(** * Sentra CLI core: approval gate, resource ledger and dispatcher

    A shallow embedding of three classes of the repository,

    - [PermissionManager] (the approval gate),
    - [ContextManager]    (the resource ledger),
    - [AgentOrchestrator] (the dispatcher),

    followed by the properties of the specification that concern them.

    Conventions of the embedding.

    - A JavaScript [number] that only ever holds an integer (sizes, scores,
      timeouts, timestamps) is a [Z]; one that holds a quotient (usage
      percentages) is an exact rational [Q], compared with [Qle]/[Qlt]
      and, for equality, with [Qeq].
    - A JavaScript string is a [string]: a sequence of 8-bit code units.
    - A method that throws is a computation in the monad [M]: it returns
      [Err e] together with the state reached when the exception was
      raised (a throw does not roll mutations back).
    - [async] methods run to completion, one after the other; writes to
      disk succeed.  The requests that the notification services send
      over the network may fail: the answers of the network are part of
      the state of the gate.  [new Date()] and the random request
      identifier are arguments ([now], [rid]) of the operation that reads
      them.  Calls to the logger are not part of any state. *)

From Stdlib Require Import ZArith QArith Qround Qminmax List String Ascii Bool Lia.
From Stdlib Require Import Permutation Sorted.
From stdpp Require Import gmap strings pretty.
Import ListNotations.

Local Open Scope Z_scope.

(** ** Shared types (src/types/index.ts) *)

Inductive PersonaType : Type :=
| requirements_analyst
| ui_ux_designer
| frontend_developer
| backend_architect
| qa_engineer
| security_analyst
| technical_writer
| devops_engineer.

#[global] Instance PersonaType_eq_dec : EqDecision PersonaType.
Proof. solve_decision. Defined.

Inductive RiskLevel : Type := low | medium | high | critical.

#[global] Instance RiskLevel_eq_dec : EqDecision RiskLevel.
Proof. solve_decision. Defined.

Inductive PermissionStatus : Type := pending | approved_ | denied | expired.

#[global] Instance PermissionStatus_eq_dec : EqDecision PermissionStatus.
Proof. solve_decision. Defined.

(** The errors the three classes throw.  A [SentraError] is identified by
    its [code]; the constructor carries the values interpolated in its
    message.  [TypeError] is the runtime error of reading a property of
    [undefined]. *)
Inductive SentraError : Type :=
| REQUEST_NOT_FOUND (requestId : string)
| REQUEST_ALREADY_RESOLVED (requestId : string)
| PERMISSION_DENIED (command : string) (reason : option string)
| CONTEXT_WINDOW_NOT_FOUND (persona : PersonaType)
| CONTEXT_OVERFLOW (usage limit : Q)
| INVALID_TASK
| AGENT_NOT_FOUND (persona : PersonaType)
| CONTEXT_LIMIT_EXCEEDED (requirement : Q) (limit : Z)
| INTEGRATION_NOT_CONFIGURED (message : string)
| TWILIO_REQUEST_FAILED
| PUSHOVER_REQUEST_FAILED
| TypeError.

(** ** A state and exception monad *)

Inductive result (A : Type) : Type :=
| Ok (a : A)
| Err (e : SentraError).
Arguments Ok {A} a.
Arguments Err {A} e.

Definition M (S A : Type) : Type := S -> result A * S.

Definition ret {S A} (a : A) : M S A := fun s => (Ok a, s).

Definition bind {S A B} (m : M S A) (k : A -> M S B) : M S B :=
  fun s => match m s with
           | (Ok a, s') => k a s'
           | (Err e, s') => (Err e, s')
           end.

Definition throw {S A} (e : SentraError) : M S A := fun s => (Err e, s).
Definition get {S} : M S S := fun s => (Ok s, s).
Definition gets {S A} (f : S -> A) : M S A := fun s => (Ok (f s), s).
Definition modify {S} (f : S -> S) : M S unit := fun s => (Ok tt, f s).

Notation "'do' x <- m ; k" := (bind m (fun x => k))
  (at level 10, x name, m at level 100, k at level 200,
   format "'[v' 'do'  x  <-  m ; '/' k ']'").
Notation "'do_' m ; k" := (bind m (fun _ => k))
  (at level 10, m at level 100, k at level 200,
   format "'[v' 'do_'  m ; '/' k ']'").

(** [for (const x of l) body(x)] *)
Fixpoint for_each {S A} (l : list A) (body : A -> M S unit) : M S unit :=
  match l with
  | [] => ret tt
  | x :: l' => do_ body x; for_each l' body
  end.

(** ** JavaScript built-ins used by the code *)

(** [Math.round]: the nearest integer, halves rounded up. *)
Definition Math_round (x : Q) : Z := Qfloor (x + (1 # 2))%Q.

Definition str_length (s : string) : Z := Z.of_nat (String.length s).

(** [s.includes(sub)] *)
Fixpoint includes (s sub : string) : bool :=
  String.prefix sub s ||
  match s with
  | EmptyString => false
  | String _ s' => includes s' sub
  end.

(** [c.toLowerCase()] on one code unit below 256. *)
Definition lower_ascii (c : ascii) : ascii :=
  let n := N_of_ascii c in
  if ((65 <=? n) && (n <=? 90))%N then ascii_of_N (n + 32)
  else if ((192 <=? n) && (n <=? 222) && negb (n =? 215))%N
       then ascii_of_N (n + 32)
       else c.

Fixpoint toLowerCase (s : string) : string :=
  match s with
  | EmptyString => EmptyString
  | String c s' => String (lower_ascii c) (toLowerCase s')
  end.

(** [l.join(sep)] *)
Fixpoint join (sep : string) (l : list string) : string :=
  match l with
  | [] => ""
  | [x] => x
  | x :: l' => x +:+ sep +:+ join sep l'
  end.

(** [s.repeat(n)] *)
Fixpoint repeat_string (s : string) (n : nat) : string :=
  match n with
  | O => ""
  | S n' => s +:+ repeat_string s n'
  end.

(** A stable sort by an integer key: [l.sort((a, b) => key(a) - key(b))].
    ECMAScript requires [Array.prototype.sort] to be stable, and a stable
    sort by a total preorder has exactly one result. *)
Section StableSort.
Context {A : Type} (key : A -> Z).

(** [x] stood before every element of [l]: it goes in front of the first
    element whose key is not smaller, hence before its equals. *)
Fixpoint insert_by (x : A) (l : list A) : list A :=
  match l with
  | [] => [x]
  | y :: l' => if key x <=? key y then x :: y :: l'
               else y :: insert_by x l'
  end.

Fixpoint sort_by (l : list A) : list A :=
  match l with
  | [] => []
  | x :: l' => insert_by x (sort_by l')
  end.

(** the order of the keys, and the element that a sort by [key] puts
    first *)
Definition keyLe (x y : A) : Prop := key x <= key y.

Fixpoint firstLeast (l : list A) : option A :=
  match l with
  | [] => None
  | x :: l' =>
      match firstLeast l' with
      | None => Some x
      | Some y => if key x <=? key y then Some x else Some y
      end
  end.

End StableSort.

(** ** Regular expressions

    The fragment of JavaScript regular expressions that the permission
    rules use: literals, [\s], [.], concatenation, alternation and
    repetition, all under the [i] flag.  [test] decides whether some
    substring of the subject matches, as [RegExp.prototype.test] does for
    a pattern with no anchors. *)
Module Regex.

Inductive regex : Type :=
| Void
| Eps
| Lit (c : ascii)
| Space
| Dot
| Cat (r1 r2 : regex)
| Alt (r1 r2 : regex)
| Star (r : regex).

(** [\s] on code units below 256 *)
Definition is_space (c : ascii) : bool :=
  let n := N_of_ascii c in
  (((9 <=? n) && (n <=? 13)) || (n =? 32) || (n =? 160))%N.

(** [.] matches everything but a line terminator *)
Definition is_line_terminator (c : ascii) : bool :=
  let n := N_of_ascii c in ((n =? 10) || (n =? 13))%N.

(** Canonicalisation under the [i] flag.  The patterns hold no code unit
    above 127, and none above 127 folds onto one below: it is enough to
    fold a-z onto A-Z. *)
Definition canonicalize (c : ascii) : ascii :=
  let n := N_of_ascii c in
  if ((97 <=? n) && (n <=? 122))%N then ascii_of_N (n - 32) else c.

Fixpoint nullable (r : regex) : bool :=
  match r with
  | Void | Lit _ | Space | Dot => false
  | Eps | Star _ => true
  | Cat r1 r2 => nullable r1 && nullable r2
  | Alt r1 r2 => nullable r1 || nullable r2
  end.

Definition cat (r1 r2 : regex) : regex :=
  match r1, r2 with
  | Void, _ | _, Void => Void
  | Eps, r | r, Eps => r
  | _, _ => Cat r1 r2
  end.

Definition alt (r1 r2 : regex) : regex :=
  match r1, r2 with
  | Void, r | r, Void => r
  | _, _ => Alt r1 r2
  end.

(** Brzozowski derivative: what remains to be matched after reading [c] *)
Fixpoint deriv (c : ascii) (r : regex) : regex :=
  match r with
  | Void | Eps => Void
  | Lit d => if Ascii.eqb (canonicalize c) (canonicalize d) then Eps else Void
  | Space => if is_space c then Eps else Void
  | Dot => if is_line_terminator c then Void else Eps
  | Cat r1 r2 =>
      if nullable r1 then alt (cat (deriv c r1) r2) (deriv c r2)
      else cat (deriv c r1) r2
  | Alt r1 r2 => alt (deriv c r1) (deriv c r2)
  | Star r1 => cat (deriv c r1) (Star r1)
  end.

(** some prefix of [s] matches [r] *)
Fixpoint matches_prefix (r : regex) (s : string) : bool :=
  nullable r ||
  match s with
  | EmptyString => false
  | String c s' => matches_prefix (deriv c r) s'
  end.

(** [r.test(s)]: some substring of [s] matches [r] *)
Fixpoint test (r : regex) (s : string) : bool :=
  matches_prefix r s ||
  match s with
  | EmptyString => false
  | String _ s' => test r s'
  end.

(** the pattern that matches the text [s] literally *)
Fixpoint lit (s : string) : regex :=
  match s with
  | EmptyString => Eps
  | String c EmptyString => Lit c
  | String c s' => Cat (Lit c) (lit s')
  end.

Definition plus (r : regex) : regex := Cat r (Star r).

Fixpoint alts (l : list regex) : regex :=
  match l with
  | [] => Void
  | [r] => r
  | r :: l' => Alt r (alts l')
  end.

End Regex.

(** ** The approval gate (class [PermissionManager]) *)

Module PermissionResponse.
Record t : Type := mk {
  approved : bool;
  respondedAt : Z;
  reason : option string;
  respondedBy : string
}.
End PermissionResponse.

Module PermissionRequest.
Record t : Type := mk {
  id : string;
  agent : PersonaType;
  command : string;
  context : string;
  riskLevel : RiskLevel;
  timeout : Z;
  createdAt : Z;
  status : PermissionStatus;
  response : option PermissionResponse.t
}.

(** [request.status = st; request.response = resp] *)
Definition resolve (st : PermissionStatus) (resp : PermissionResponse.t)
    (r : t) : t :=
  mk (id r) (agent r) (command r) (context r) (riskLevel r) (timeout r)
     (createdAt r) st (Some resp).
End PermissionRequest.

Module PermissionRule.
Record t : Type := mk {
  pattern : Regex.regex;
  riskLevel : RiskLevel;
  requiresApproval : bool;
  timeout : Z;
  reason : string
}.
End PermissionRule.

Module RiskAssessment.
Record t : Type := mk {
  level : RiskLevel;
  factors : list string;
  score : Z;
  recommendation : string
}.
End RiskAssessment.

Module PermissionManager.
Import Regex.

(** A request is a mutable object: the pending map, the caller of
    [requestPermission] and the listeners of the dashboard all hold the
    same one.  [loc] is its address in the store [heap]. *)
Definition loc : Type := positive.

Inductive Channel : Type := sms | push.
Inductive NotificationKind : Type := approval_request | confirmation.

Inductive Event : Type :=
| permission_requested (permissionId : string) (agent : PersonaType)
    (riskLevel : RiskLevel) (timestamp : Z)
| permission_approved (permissionId : string) (agent : PersonaType)
    (riskLevel : RiskLevel) (timestamp : Z)
| permission_denied (permissionId : string) (agent : PersonaType)
    (riskLevel : RiskLevel) (timestamp : Z)
| permission_cancelled (requestId : string) (reason : string) (timestamp : Z)
| dashboard_permission_request (request : loc) (assessment : RiskAssessment.t)
    (timestamp : Z)
| dashboard_permission_response (request : loc)
    (response : PermissionResponse.t) (timestamp : Z).

(** the files of [permissionsDir] *)
Inductive PersistedFile : Type :=
| request_json (r : PermissionRequest.t)
| response_json (r : PermissionResponse.t).

Record State : Type := mkState {
  heap : gmap loc PermissionRequest.t;
  pendingRequests : gmap string loc;
  permissionHistory : gmap string PermissionResponse.t;
  permissionRules : list PermissionRule.t;
  (** the world around the gate *)
  disk : gmap string PersistedFile;
  timers : list (string * Z);
  emitted : list Event;
  sent : list (Channel * NotificationKind * string);
  (** the variables of the environment that an integration reads are set *)
  twilioConfigured : bool;
  pushoverConfigured : bool;
  (** the answers that the network gives to the next requests of the
      integrations, in order: [true] for a response, [false] for a
      failure (no route, a time-out, a status of error); past the end of
      the list every request is answered *)
  network : list bool
}.

Definition set_heap (f : gmap loc PermissionRequest.t -> gmap loc PermissionRequest.t)
    (s : State) : State :=
  mkState (f (heap s)) (pendingRequests s) (permissionHistory s)
    (permissionRules s) (disk s) (timers s) (emitted s) (sent s)
    (twilioConfigured s) (pushoverConfigured s) (network s).

Definition set_pendingRequests (f : gmap string loc -> gmap string loc)
    (s : State) : State :=
  mkState (heap s) (f (pendingRequests s)) (permissionHistory s)
    (permissionRules s) (disk s) (timers s) (emitted s) (sent s)
    (twilioConfigured s) (pushoverConfigured s) (network s).

Definition set_permissionHistory
    (f : gmap string PermissionResponse.t -> gmap string PermissionResponse.t)
    (s : State) : State :=
  mkState (heap s) (pendingRequests s) (f (permissionHistory s))
    (permissionRules s) (disk s) (timers s) (emitted s) (sent s)
    (twilioConfigured s) (pushoverConfigured s) (network s).

Definition set_disk (f : gmap string PersistedFile -> gmap string PersistedFile)
    (s : State) : State :=
  mkState (heap s) (pendingRequests s) (permissionHistory s)
    (permissionRules s) (f (disk s)) (timers s) (emitted s) (sent s)
    (twilioConfigured s) (pushoverConfigured s) (network s).

Definition set_timers (f : list (string * Z) -> list (string * Z))
    (s : State) : State :=
  mkState (heap s) (pendingRequests s) (permissionHistory s)
    (permissionRules s) (disk s) (f (timers s)) (emitted s) (sent s)
    (twilioConfigured s) (pushoverConfigured s) (network s).

Definition set_emitted (f : list Event -> list Event) (s : State) : State :=
  mkState (heap s) (pendingRequests s) (permissionHistory s)
    (permissionRules s) (disk s) (timers s) (f (emitted s)) (sent s)
    (twilioConfigured s) (pushoverConfigured s) (network s).

Definition set_sent
    (f : list (Channel * NotificationKind * string) ->
         list (Channel * NotificationKind * string))
    (s : State) : State :=
  mkState (heap s) (pendingRequests s) (permissionHistory s)
    (permissionRules s) (disk s) (timers s) (emitted s) (f (sent s))
    (twilioConfigured s) (pushoverConfigured s) (network s).

Definition set_network (f : list bool -> list bool) (s : State) : State :=
  mkState (heap s) (pendingRequests s) (permissionHistory s)
    (permissionRules s) (disk s) (timers s) (emitted s) (sent s)
    (twilioConfigured s) (pushoverConfigured s) (f (network s)).

(** [this.emit(type, event)] *)
Definition emit (e : Event) : M State unit :=
  modify (set_emitted (fun l => l ++ [e])).

(** *** The rules of [initializePermissionRules] *)

Definition seq (l : list regex) : regex := fold_right Cat Eps l.
Definition any : regex := Star Dot.
Definition ws1 : regex := plus Space.
Definition ws0 : regex := Star Space.

Definition initialPermissionRules : list PermissionRule.t := [
  (* /rm\s+-rf|rmdir|delete.*\.git|format.*disk/i *)
  PermissionRule.mk
    (alts [seq [lit "rm"; ws1; lit "-rf"]; lit "rmdir";
           seq [lit "delete"; any; lit ".git"];
           seq [lit "format"; any; lit "disk"]])
    critical true 600000 "Destructive file system operation";
  (* /chmod\s+777|chown.*root|sudo.*rm/i *)
  PermissionRule.mk
    (alts [seq [lit "chmod"; ws1; lit "777"];
           seq [lit "chown"; any; lit "root"];
           seq [lit "sudo"; any; lit "rm"]])
    high true 300000 "Elevated permissions required";
  (* /npm\s+install.*-g|yarn.*global|pip.*install.*--user/i *)
  PermissionRule.mk
    (alts [seq [lit "npm"; ws1; lit "install"; any; lit "-g"];
           seq [lit "yarn"; any; lit "global"];
           seq [lit "pip"; any; lit "install"; any; lit "--user"]])
    medium true 180000 "Global package installation";
  (* /drop\s+(database|table|schema)|truncate.*table|delete.*from.*where.*1=1/i *)
  PermissionRule.mk
    (alts [seq [lit "drop"; ws1;
                alts [lit "database"; lit "table"; lit "schema"]];
           seq [lit "truncate"; any; lit "table"];
           seq [lit "delete"; any; lit "from"; any; lit "where"; any;
                lit "1=1"]])
    critical true 600000 "Destructive database operation";
  (* /alter\s+(table|database)|create.*index|grant.*all/i *)
  PermissionRule.mk
    (alts [seq [lit "alter"; ws1; alts [lit "table"; lit "database"]];
           seq [lit "create"; any; lit "index"];
           seq [lit "grant"; any; lit "all"]])
    high true 300000 "Database schema modification";
  (* /curl.*\|\s*sh|wget.*\|\s*bash|ssh.*root@/i *)
  PermissionRule.mk
    (alts [seq [lit "curl"; any; lit "|"; ws0; lit "sh"];
           seq [lit "wget"; any; lit "|"; ws0; lit "bash"];
           seq [lit "ssh"; any; lit "root@"]])
    critical true 600000 "Remote code execution risk";
  (* /git.*push.*--force|git.*reset.*--hard.*HEAD/i *)
  PermissionRule.mk
    (alts [seq [lit "git"; any; lit "push"; any; lit "--force"];
           seq [lit "git"; any; lit "reset"; any; lit "--hard"; any;
                lit "HEAD"]])
    high true 300000 "Potentially destructive Git operation";
  (* /docker.*run.*--privileged|docker.*rm.*-f/i *)
  PermissionRule.mk
    (alts [seq [lit "docker"; any; lit "run"; any; lit "--privileged"];
           seq [lit "docker"; any; lit "rm"; any; lit "-f"]])
    high true 300000 "Privileged container operation";
  (* /export.*PATH=|unset.*PATH|rm.*\.env/i *)
  PermissionRule.mk
    (alts [seq [lit "export"; any; lit "PATH="];
           seq [lit "unset"; any; lit "PATH"];
           seq [lit "rm"; any; lit ".env"]])
    medium true 180000 "Environment variable modification";
  (* /deploy.*production|push.*main|merge.*master/i *)
  PermissionRule.mk
    (alts [seq [lit "deploy"; any; lit "production"];
           seq [lit "push"; any; lit "main"];
           seq [lit "merge"; any; lit "master"]])
    high true 300000 "Production deployment"
].

(** the gate as its constructor leaves it, on a network that answers *)
Definition initialState (twilio pushover : bool) : State :=
  mkState ∅ ∅ ∅ initialPermissionRules ∅ [] [] [] twilio pushover [].

(** the same gate on a network whose next answers are [answers] *)
Definition withNetwork (answers : list bool) (s : State) : State :=
  set_network (fun _ => answers) s.

(** *** Helper methods *)

Definition getRiskScore (riskLevel : RiskLevel) : Z :=
  match riskLevel with
  | low => 10
  | medium => 30
  | high => 60
  | critical => 100
  end.

Definition getTimeoutForRisk (riskLevel : RiskLevel) : Z :=
  match riskLevel with
  | low => 60000
  | medium => 180000
  | high => 300000
  | critical => 600000
  end.

Definition generateRiskRecommendation (level : RiskLevel)
    (factors : list string) : string :=
  match level with
  | critical => "CRITICAL: This operation could cause significant damage. Carefully review before approval."
  | high => "HIGH RISK: This operation requires careful consideration and may affect system stability."
  | medium => "MEDIUM RISK: Standard approval required. Review the operation details."
  | low => "LOW RISK: Safe operation that can typically be auto-approved."
  end.

(** *** [assessRisk] *)

(** one iteration of the loop over the rules; the accumulator is
    [(score, factors, level)] *)
Definition assessRule (command : string)
    (acc : Z * list string * RiskLevel) (rule : PermissionRule.t)
    : Z * list string * RiskLevel :=
  let '(score, factors, level) := acc in
  if test (PermissionRule.pattern rule) command then
    (score + getRiskScore (PermissionRule.riskLevel rule),
     factors ++ [PermissionRule.reason rule],
     if getRiskScore level <? getRiskScore (PermissionRule.riskLevel rule)
     then PermissionRule.riskLevel rule else level)
  else acc.

Definition assessRisk (rules : list PermissionRule.t)
    (command context : string) : RiskAssessment.t :=
  let '(score, factors, level) :=
    fold_left (assessRule command) rules (0, [], low) in
  (* additional contextual factors *)
  let '(score, factors, level) :=
    if includes context "production" || includes context "prod" then
      (score + 30, factors ++ ["Production environment"],
       if decide (level = low) then medium else level)
    else (score, factors, level) in
  let '(score, factors) :=
    if includes context "database" || includes context "db" then
      (score + 20, factors ++ ["Database operation"])
    else (score, factors) in
  let '(score, factors) :=
    if includes command "sudo" || includes command "root" then
      (score + 25, factors ++ ["Elevated privileges"])
    else (score, factors) in
  (* final risk level based on score *)
  let level :=
    if 80 <=? score then critical
    else if 50 <=? score then high
    else if 20 <=? score then medium
    else level in
  RiskAssessment.mk level factors score
    (generateRiskRecommendation level factors).

(** *** [requiresApproval] *)

Fixpoint firstMatchingRule (rules : list PermissionRule.t)
    (command : string) : option PermissionRule.t :=
  match rules with
  | [] => None
  | rule :: rules' =>
      if test (PermissionRule.pattern rule) command then Some rule
      else firstMatchingRule rules' command
  end.

Definition requiresApproval (rules : list PermissionRule.t)
    (command : string) (riskLevel : RiskLevel) : bool :=
  if bool_decide (riskLevel = critical) || bool_decide (riskLevel = high)
  then true
  else match firstMatchingRule rules command with
       | Some rule => PermissionRule.requiresApproval rule
       | None => bool_decide (riskLevel = medium)
       end.

(** *** Storage *)

(** [this.pendingRequests.get(requestId)]: the address held by the map and
    the object found there (an address held by the map is never vacant) *)
Definition getPending (s : State) (requestId : string)
    : option (loc * PermissionRequest.t) :=
  match pendingRequests s !! requestId with
  | Some l => match heap s !! l with
              | Some request => Some (l, request)
              | None => None
              end
  | None => None
  end.

(** a new object *)
Definition alloc (request : PermissionRequest.t) : M State loc :=
  fun s => let l := fresh (dom (heap s)) in
           (Ok l, set_heap (insert l request) s).

Definition persistRequest (request : PermissionRequest.t) : M State unit :=
  modify (set_disk (insert (PermissionRequest.id request +:+ ".json")
                           (request_json request))).

Definition persistResponse (requestId : string)
    (response : PermissionResponse.t) : M State unit :=
  modify (set_disk (insert (requestId +:+ "-response.json")
                           (response_json response))).

(** *** The notification services (classes [TwilioIntegration] and
    [PushoverIntegration]); the text of a message is not modelled *)

(** one request over the network ([this.client.get], [this.client.post]):
    [true] when it is answered; when it is not, the interceptor of the
    client throws *)
Definition networkRequest : M State bool :=
  fun s => match network s with
           | [] => (Ok true, s)
           | answer :: rest => (Ok answer, set_network (fun _ => rest) s)
           end.

(** a message that a service has accepted *)
Definition delivered (c : Channel) (k : NotificationKind)
    (requestId : string) : M State unit :=
  modify (set_sent (fun l => l ++ [(c, k, requestId)])).

Module TwilioIntegration.

(** [isConfigured]: the variables are set and the account answers
    ([getAccountInfo]); a failure of that request is caught *)
Definition isConfigured : M State bool :=
  do configured <- gets twilioConfigured;
  if negb configured then ret false
  else networkRequest.

(** [sendSMS]: checks the configuration again, then posts the message.
    Once the configuration holds, the two numbers are set and the checks
    for a missing recipient or sender pass. *)
Definition sendSMS (k : NotificationKind) (requestId : string)
    : M State unit :=
  do configured <- isConfigured;
  if negb configured then
    throw (INTEGRATION_NOT_CONFIGURED "Twilio integration not configured")
  else
    do answered <- networkRequest;
    if negb answered then throw TWILIO_REQUEST_FAILED
    else delivered sms k requestId.

End TwilioIntegration.

Module PushoverIntegration.

(** [isConfigured]: the variables are set and the service answers
    ([validateCredentials], whose verdict is not read); a failure of that
    request is caught *)
Definition isConfigured : M State bool :=
  do configured <- gets pushoverConfigured;
  if negb configured then ret false
  else networkRequest.

(** [sendNotification]: checks the configuration again, then posts the
    message *)
Definition sendNotification (k : NotificationKind) (requestId : string)
    : M State unit :=
  do configured <- isConfigured;
  if negb configured then
    throw (INTEGRATION_NOT_CONFIGURED "Pushover integration not configured")
  else
    do answered <- networkRequest;
    if negb answered then throw PUSHOVER_REQUEST_FAILED
    else delivered push k requestId.

End PushoverIntegration.

(** *** Notifications; an error of a service is not caught *)

Definition sendApprovalNotifications (now : Z) (l : loc)
    (request : PermissionRequest.t) (riskAssessment : RiskAssessment.t)
    : M State unit :=
  (* SMS notification via Twilio *)
  do twilio <- TwilioIntegration.isConfigured;
  do_ (if twilio : bool
       then TwilioIntegration.sendSMS approval_request
              (PermissionRequest.id request)
       else ret tt);
  (* push notification via Pushover *)
  do pushover <- PushoverIntegration.isConfigured;
  do_ (if pushover : bool
       then PushoverIntegration.sendNotification approval_request
              (PermissionRequest.id request)
       else ret tt);
  (* dashboard notification (always available) *)
  emit (dashboard_permission_request l riskAssessment now).

Definition sendConfirmationNotification (now : Z) (l : loc)
    (request : PermissionRequest.t) (response : PermissionResponse.t)
    : M State unit :=
  do twilio <- TwilioIntegration.isConfigured;
  do_ (if twilio : bool
       then TwilioIntegration.sendSMS confirmation
              (PermissionRequest.id request)
       else ret tt);
  do pushover <- PushoverIntegration.isConfigured;
  do_ (if pushover : bool
       then PushoverIntegration.sendNotification confirmation
              (PermissionRequest.id request)
       else ret tt);
  emit (dashboard_permission_response l response now).

(** *** [setupRequestTimeout]: arm the timer of a request *)
Definition setupRequestTimeout (request : PermissionRequest.t)
    : M State unit :=
  modify (set_timers (fun l =>
    l ++ [(PermissionRequest.id request, PermissionRequest.timeout request)])).

(** *** [requestPermission]

    The promise it returns is either settled at once or is the one of
    [waitForResponse(request.id)], settled later by [checkResponse]. *)
Inductive Outcome : Type :=
| Resolved (response : PermissionResponse.t)
| Waiting (requestId : string).

Definition requestPermission (now : Z) (rid : string) (agent : PersonaType)
    (command context : string) : M State Outcome :=
  do rules <- gets permissionRules;
  let riskAssessment := assessRisk rules command context in
  if negb (requiresApproval rules command
             (RiskAssessment.level riskAssessment)) then
    (* auto-approve low-risk operations *)
    ret (Resolved (PermissionResponse.mk true now
                     (Some "Auto-approved: low risk operation") "system"))
  else
    let request :=
      PermissionRequest.mk rid agent command context
        (RiskAssessment.level riskAssessment)
        (getTimeoutForRisk (RiskAssessment.level riskAssessment))
        now pending None in
    do l <- alloc request;
    do_ modify (set_pendingRequests (insert rid l));
    do_ persistRequest request;
    do_ sendApprovalNotifications now l request riskAssessment;
    do_ setupRequestTimeout request;
    do_ emit (permission_requested rid agent
                (RiskAssessment.level riskAssessment) now);
    ret (Waiting rid).

(** *** [respondToRequest] *)
Definition respondToRequest (now : Z) (requestId : string) (approved : bool)
    (reason : option string) (respondedBy : option string) : M State unit :=
  let respondedBy := default "user" respondedBy in
  do s <- get;
  match getPending s requestId with
  | None => throw (REQUEST_NOT_FOUND requestId)
  | Some (l, request) =>
      if negb (bool_decide (PermissionRequest.status request = pending)) then
        throw (REQUEST_ALREADY_RESOLVED requestId)
      else
        let response :=
          PermissionResponse.mk approved now reason respondedBy in
        (* update request *)
        let request :=
          PermissionRequest.resolve (if approved then approved_ else denied)
            response request in
        do_ modify (set_heap (insert l request));
        (* store in history, remove from pending *)
        do_ modify (set_permissionHistory (insert requestId response));
        do_ modify (set_pendingRequests (delete requestId));
        do_ persistResponse requestId response;
        do_ emit ((if approved then permission_approved else permission_denied)
                    requestId (PermissionRequest.agent request)
                    (PermissionRequest.riskLevel request) now);
        sendConfirmationNotification now l request response
  end.

(** *** [cancelRequest] *)
Definition cancelRequest (now : Z) (requestId : string)
    (reason : option string) : M State unit :=
  let reason := default "Cancelled by user" reason in
  do s <- get;
  match getPending s requestId with
  | None => throw (REQUEST_NOT_FOUND requestId)
  | Some (l, request) =>
      let response :=
        PermissionResponse.mk false now (Some reason) "system" in
      do_ modify (set_heap
                    (insert l (PermissionRequest.resolve expired response
                                 request)));
      do_ modify (set_pendingRequests (delete requestId));
      do_ modify (set_permissionHistory (insert requestId response));
      do_ persistResponse requestId response;
      emit (permission_cancelled requestId reason now)
  end.

(** the callback that [setupRequestTimeout] hands to [setTimeout], run
    when the timer of request [requestId] fires *)
Definition requestTimeoutCallback (now : Z) (requestId : string)
    : M State unit :=
  do s <- get;
  if bool_decide (is_Some (getPending s requestId))
  then cancelRequest now requestId (Some "Request timeout")
  else ret tt.

(** *** [waitForResponse]

    [checkResponse] is one poll of the waiter: [Some] settles the promise
    (resolved with a response or rejected with an error), [None] polls
    again a second later. *)
Definition checkResponse (requestId : string) (s : State)
    : option (result PermissionResponse.t) :=
  match permissionHistory s !! requestId with
  | Some response =>
      if PermissionResponse.approved response then Some (Ok response)
      else Some (Err (PERMISSION_DENIED
                        ("Permission denied for request " +:+ requestId)
                        (PermissionResponse.reason response)))
  | None =>
      match getPending s requestId with
      | Some (_, request) =>
          if bool_decide (PermissionRequest.status request = expired)
          then Some (Err (PERMISSION_DENIED
                            ("Permission request expired: " +:+ requestId)
                            (Some "Request timeout")))
          else None
      | None => None
      end
  end.

(** *** What the specification says of the level

    [scoreLevel] is the level derived from the score alone.
    [specifiedLevel] follows the words of the specification, not the code:
    when some rule matches, the level of the matching rule of the highest
    category wins; when none does, the level is the one derived from the
    score. *)
Definition scoreLevel (score : Z) : RiskLevel :=
  if 80 <=? score then critical
  else if 50 <=? score then high
  else if 20 <=? score then medium
  else low.

Definition higherLevel (l1 l2 : RiskLevel) : RiskLevel :=
  if getRiskScore l1 <? getRiskScore l2 then l2 else l1.

Fixpoint highestMatchingLevel (rules : list PermissionRule.t)
    (command : string) : option RiskLevel :=
  match rules with
  | [] => None
  | rule :: rules' =>
      if test (PermissionRule.pattern rule) command then
        Some (match highestMatchingLevel rules' command with
              | Some l => higherLevel (PermissionRule.riskLevel rule) l
              | None => PermissionRule.riskLevel rule
              end)
      else highestMatchingLevel rules' command
  end.

Definition specifiedLevel (rules : list PermissionRule.t)
    (command context : string) : RiskLevel :=
  match highestMatchingLevel rules command with
  | Some l => l
  | None =>
      scoreLevel (RiskAssessment.score (assessRisk rules command context))
  end.

(** *** The score that the loop over the rules accumulates *)
Definition matchedScore (command : string) (rules : list PermissionRule.t)
    : Z :=
  fold_right (fun rule acc =>
                if test (PermissionRule.pattern rule) command
                then getRiskScore (PermissionRule.riskLevel rule) + acc
                else acc) 0 rules.

(** below a score of 20 the loop has not raised the level *)
Definition lowBelow20 (acc : Z * list string * RiskLevel) : Prop :=
  0 <= fst (fst acc) /\ (fst (fst acc) < 20 -> snd acc = low).

(** *** A run of the gate

    A request for the approval of a destructive command, then either an
    approval from the dashboard or the expiry of its timer. *)
Definition sampleId : string := "9f86d081884c7d65".

Definition sampleRequested : State :=
  snd (requestPermission 1000 sampleId devops_engineer
         "rm -rf node_modules" "cleaning up dependencies"
         (initialState true true)).

Definition sampleApproved : State :=
  snd (respondToRequest 2000 sampleId true (Some "Approved")
         (Some "dashboard-user") sampleRequested).

Definition sampleExpired : State :=
  snd (requestTimeoutCallback 601000 sampleId sampleRequested).

(** *** [getPermissionHistory]

    [findRequestInHistory] has no store of resolved requests to read and
    returns [undefined].  The entries of the history are visited in the
    order of [map_to_list], not in the order of insertion; the list is
    sorted afterwards. *)
Definition findRequestInHistory (s : State) (requestId : string)
    : option PermissionRequest.t := None.

(** [l.slice(0, limit)] *)
Definition slice0 {A} (limit : Z) (l : list A) : list A :=
  if limit <? 0 then take (Z.to_nat (Z.of_nat (length l) + limit)) l
  else take (Z.to_nat limit) l.

Definition getPermissionHistory (limit : option Z) (s : State)
    : list (PermissionRequest.t * PermissionResponse.t) :=
  let limit := default 100 limit in
  let history :=
    omap (fun entry : string * PermissionResponse.t =>
            match findRequestInHistory s (fst entry) with
            | Some request => Some (request, snd entry)
            | None => None
            end)
         (map_to_list (permissionHistory s)) in
  slice0 limit
    (sort_by (fun entry : PermissionRequest.t * PermissionResponse.t =>
                - PermissionRequest.createdAt (fst entry)) history).

(** *** Runs of the gate

    The calls that reach the gate from outside: a request for permission,
    a response, a cancellation, and the firing of the timer of a request. *)
Inductive Action : Type :=
| Request (now : Z) (rid : string) (agent : PersonaType)
    (command context : string)
| Respond (now : Z) (requestId : string) (approved : bool)
    (reason respondedBy : option string)
| Cancel (now : Z) (requestId : string) (reason : option string)
| TimerFires (now : Z) (requestId : string).

(** the state an action leaves, whether it returns or throws *)
Definition act (a : Action) (s : State) : State :=
  match a with
  | Request now rid agent command context =>
      snd (requestPermission now rid agent command context s)
  | Respond now requestId approved reason respondedBy =>
      snd (respondToRequest now requestId approved reason respondedBy s)
  | Cancel now requestId reason => snd (cancelRequest now requestId reason s)
  | TimerFires now requestId => snd (requestTimeoutCallback now requestId s)
  end.

Definition acts (l : list Action) (s : State) : State :=
  fold_left (fun s a => act a s) l s.

(** every entry of the pending map leads to an object of its identity that
    is still pending, and no two entries lead to the same object *)
Definition pendingArePending (s : State) : Prop :=
  (forall requestId l,
     pendingRequests s !! requestId = Some l ->
     exists request,
       heap s !! l = Some request /\
       PermissionRequest.status request = pending) /\
  (forall id1 id2 l,
     pendingRequests s !! id1 = Some l -> pendingRequests s !! id2 = Some l ->
     id1 = id2).

(** the notifications of one kind that go out for a request when the
    network answers *)
Definition channelsNotified (k : NotificationKind) (requestId : string)
    (s : State) : list (Channel * NotificationKind * string) :=
  (if twilioConfigured s then [(sms, k, requestId)] else []) ++
  (if pushoverConfigured s then [(push, k, requestId)] else []).

(** the errors that come from a notification service *)
Definition channelError (e : SentraError) : bool :=
  match e with
  | INTEGRATION_NOT_CONFIGURED _ | TWILIO_REQUEST_FAILED
  | PUSHOVER_REQUEST_FAILED => true
  | _ => false
  end.

(** the network answers every request from now on *)
Definition reliable (s : State) : bool :=
  forallb (fun answer : bool => answer) (network s).

(** what a notification leaves as it is: all of the gate but the messages
    sent, the events emitted and the answers that the network has left *)
Definition sameStore (s s' : State) : Prop :=
  heap s' = heap s /\ pendingRequests s' = pendingRequests s /\
  permissionHistory s' = permissionHistory s /\
  permissionRules s' = permissionRules s /\ disk s' = disk s /\
  timers s' = timers s /\ twilioConfigured s' = twilioConfigured s /\
  pushoverConfigured s' = pushoverConfigured s.

(** *** The same request on a network that fails

    [sampleSkipped]: neither service answers the check of its
    configuration.  [sampleUnannounced]: the account of Twilio answers
    the two checks, and the post of the message is refused. *)
Definition sampleSkipped : result Outcome * State :=
  requestPermission 1000 sampleId devops_engineer
    "rm -rf node_modules" "cleaning up dependencies"
    (withNetwork [false; false] (initialState true true)).

Definition sampleUnannounced : result Outcome * State :=
  requestPermission 1000 sampleId devops_engineer
    "rm -rf node_modules" "cleaning up dependencies"
    (withNetwork [true; true; false] (initialState true true)).

End PermissionManager.

(** ** The resource ledger (class [ContextManager]) *)

Module ContextItem.
Inductive kind : Type := file | interface | dependency | config.

Record t : Type := mk {
  type : kind;
  path : string;
  content : option string;
  size : Z
}.

(** [item.size = size] *)
Definition with_size (sz : Z) (item : t) : t :=
  mk (type item) (path item) (content item) sz.
End ContextItem.

Module ContextWindow.
Record t : Type := mk {
  persona : PersonaType;
  items : list ContextItem.t;
  currentUsage : Z;
  lastUpdated : Z;
  priority : Z
}.
End ContextWindow.

Module ContextLimits.
Record t : Type := mk {
  maxPercentage : Q;
  warningThreshold : Q;
  maxItems : Z
}.
End ContextLimits.

Module ProjectContext.
Record t : Type := mk {
  totalUsage : Q;
  agentUsage : PersonaType -> Q;
  activeContext : list ContextItem.t;
  limits : ContextLimits.t
}.
End ProjectContext.

Module ContextManager.

(** the keys of [contextWindows] and of [agentUsage], in insertion order *)
Definition personas : list PersonaType :=
  [requirements_analyst; ui_ux_designer; frontend_developer;
   backend_architect; qa_engineer; security_analyst; technical_writer;
   devops_engineer].

Inductive Event : Type :=
| context_warning (persona : PersonaType) (usage threshold : Q)
| context_cleanup_completed (persona : PersonaType) (itemsRemoved : Z)
    (spaceFreed : Z)
| context_cleanup_manual (persona : PersonaType) (itemsRemoved : Z)
    (spaceFreed : Z)
| context_emergency_cleanup (totalItemsRemoved totalSpaceFreed : Z)
    (timestamp : Z).

(** Both maps are keyed by [PersonaType] and hold every persona from the
    constructor on: they are total functions, and the branches for a
    missing window are not reachable. *)
Record State : Type := mkState {
  contextWindows : PersonaType -> ContextWindow.t;
  projectContext : ProjectContext.t;
  (** the files [contextDir/<persona>.json] *)
  disk : PersonaType -> option ContextWindow.t;
  emitted : list Event
}.

(** [m[p] = v] *)
Definition upd {V : Type} (m : PersonaType -> V) (p : PersonaType) (v : V)
    : PersonaType -> V :=
  fun q => if decide (q = p) then v else m q.

Definition set_window (persona : PersonaType) (w : ContextWindow.t)
    (s : State) : State :=
  mkState (upd (contextWindows s) persona w) (projectContext s) (disk s)
    (emitted s).

Definition set_projectContext (f : ProjectContext.t -> ProjectContext.t)
    (s : State) : State :=
  mkState (contextWindows s) (f (projectContext s)) (disk s) (emitted s).

Definition set_disk (persona : PersonaType) (f : option ContextWindow.t)
    (s : State) : State :=
  mkState (contextWindows s) (projectContext s) (upd (disk s) persona f)
    (emitted s).

Definition emit (e : Event) : M State unit :=
  modify (fun s => mkState (contextWindows s) (projectContext s) (disk s)
                     (emitted s ++ [e])).

(** [projectContext.agentUsage[persona] = usage] *)
Definition set_agentUsage (persona : PersonaType) (usage : Q)
    (pc : ProjectContext.t) : ProjectContext.t :=
  ProjectContext.mk (ProjectContext.totalUsage pc)
    (upd (ProjectContext.agentUsage pc) persona usage)
    (ProjectContext.activeContext pc) (ProjectContext.limits pc).

Definition set_totalUsage (usage : Q) (pc : ProjectContext.t)
    : ProjectContext.t :=
  ProjectContext.mk usage (ProjectContext.agentUsage pc)
    (ProjectContext.activeContext pc) (ProjectContext.limits pc).

(** *** Helper methods *)

Definition typeSizes (k : ContextItem.kind) : Z :=
  match k with
  | ContextItem.file => 100
  | ContextItem.interface => 50
  | ContextItem.dependency => 25
  | ContextItem.config => 30
  end.

(** an empty [content] is falsy, like a missing one *)
Definition calculateItemSize (item : ContextItem.t) : Z :=
  let size := (0 + inject_Z (str_length (ContextItem.path item)) / 4)%Q in
  let size :=
    match ContextItem.content item with
    | Some (String c rest) =>
        (size + inject_Z (str_length (String c rest)) / 4)%Q
    | _ => (size + inject_Z (typeSizes (ContextItem.type item)))%Q
    end in
  Math_round size.

Definition adjustments (persona : PersonaType) : Q :=
  match persona with
  | requirements_analyst => 12 # 10
  | ui_ux_designer => 9 # 10
  | frontend_developer => 11 # 10
  | backend_architect => 13 # 10
  | qa_engineer => 1
  | security_analyst => 8 # 10
  | technical_writer => 7 # 10
  | devops_engineer => 1
  end.

Definition getContextCapacity (persona : PersonaType) : Z :=
  let baseCapacity := 8000%Q in
  Math_round (baseCapacity * adjustments persona).

Definition getPersonaPriority (persona : PersonaType) : Z :=
  match persona with
  | requirements_analyst => 9
  | backend_architect => 8
  | frontend_developer => 7
  | qa_engineer => 6
  | security_analyst => 6
  | ui_ux_designer => 5
  | devops_engineer => 4
  | technical_writer => 3
  end.

(** [(usage / getContextCapacity(persona)) * 100] *)
Definition percentage (usage : Z) (persona : PersonaType) : Q :=
  (inject_Z usage / inject_Z (getContextCapacity persona) * 100)%Q.

(** [a > b] on numbers *)
Definition Qgt_bool (a b : Q) : bool := negb (Qle_bool a b).

(** the ledger as its constructor leaves it *)
Definition initialState : State :=
  mkState
    (fun persona =>
       ContextWindow.mk persona [] 0 0 (getPersonaPriority persona))
    (ProjectContext.mk 0 (fun _ => 0%Q) []
       (ContextLimits.mk 40 35 1000))
    (fun _ => None)
    [].

(** *** [updateTotalUsage]: the mean of the recorded usages *)
Definition mean (usages : list Q) : Q :=
  (fold_left Qplus usages 0 / inject_Z (Z.of_nat (length usages)))%Q.

Definition updateTotalUsage : M State unit :=
  modify (set_projectContext (fun pc =>
    set_totalUsage (mean (map (ProjectContext.agentUsage pc) personas)) pc)).

Definition persistContextState (persona : PersonaType) : M State unit :=
  modify (fun s => set_disk persona (Some (contextWindows s persona)) s).

Definition removePersistedState (persona : PersonaType) : M State unit :=
  modify (set_disk persona None).

(** *** [removeContext] *)

(** [findIndex] by path and [splice]: the first item of that path, and
    the items left *)
Fixpoint removeFirst (itemPath : string) (items : list ContextItem.t)
    : option (ContextItem.t * list ContextItem.t) :=
  match items with
  | [] => None
  | item :: rest =>
      if bool_decide (ContextItem.path item = itemPath) then Some (item, rest)
      else match removeFirst itemPath rest with
           | Some (removed, rest') => Some (removed, item :: rest')
           | None => None
           end
  end.

Definition removeContext (now : Z) (persona : PersonaType)
    (itemPath : string) : M State bool :=
  do window <- gets (fun s => contextWindows s persona);
  match removeFirst itemPath (ContextWindow.items window) with
  | None => ret false
  | Some (removedItem, rest) =>
      let window :=
        ContextWindow.mk (ContextWindow.persona window) rest
          (ContextWindow.currentUsage window - ContextItem.size removedItem)
          now (ContextWindow.priority window) in
      do_ modify (set_window persona window);
      (* project-level tracking *)
      let usagePercentage :=
        percentage (ContextWindow.currentUsage window) persona in
      do_ modify (set_projectContext (set_agentUsage persona usagePercentage));
      do_ updateTotalUsage;
      do_ persistContextState persona;
      ret true
  end.

(** *** [performAutomaticCleanup] *)

Definition typePriority (k : ContextItem.kind) : Z :=
  match k with
  | ContextItem.config => 1
  | ContextItem.dependency => 2
  | ContextItem.file => 3
  | ContextItem.interface => 4
  end.

Definition itemPriority (item : ContextItem.t) : Z :=
  typePriority (ContextItem.type item).

(** the loop that chooses what to remove: the items taken from the front
    of [sortedItems], and the space they free *)
Fixpoint selectItems (requiredSpace freedSpace : Z)
    (sortedItems : list ContextItem.t) : list ContextItem.t * Z :=
  match sortedItems with
  | [] => ([], freedSpace)
  | item :: rest =>
      if requiredSpace <=? freedSpace then ([], freedSpace)
      else
        let '(chosen, freed) :=
          selectItems requiredSpace (freedSpace + ContextItem.size item) rest in
        (item :: chosen, freed)
  end.

Definition performAutomaticCleanup (now : Z) (persona : PersonaType)
    (requiredSpace : Z) : M State unit :=
  do window <- gets (fun s => contextWindows s persona);
  let sortedItems := sort_by itemPriority (ContextWindow.items window) in
  let '(chosen, freedSpace) := selectItems requiredSpace 0 sortedItems in
  let itemsToRemove := map ContextItem.path chosen in
  do_ for_each itemsToRemove
        (fun itemPath => do _ <- removeContext now persona itemPath; ret tt);
  emit (context_cleanup_completed persona
          (Z.of_nat (length itemsToRemove)) freedSpace).

(** *** [addContext] *)
Definition addContext (now : Z) (persona : PersonaType)
    (item : ContextItem.t) : M State unit :=
  do window <- gets (fun s => contextWindows s persona);
  (* item size *)
  let itemSize := calculateItemSize item in
  let item := ContextItem.with_size itemSize item in
  (* would adding this item exceed the limits? *)
  let newUsage := ContextWindow.currentUsage window + itemSize in
  let usagePercentage := percentage newUsage persona in
  do limits <- gets (fun s => ProjectContext.limits (projectContext s));
  do_ (if Qgt_bool usagePercentage (ContextLimits.maxPercentage limits) then
         do_ performAutomaticCleanup now persona itemSize;
         (* check again after cleanup *)
         do window <- gets (fun s => contextWindows s persona);
         let updatedUsage := ContextWindow.currentUsage window + itemSize in
         let updatedPercentage := percentage updatedUsage persona in
         if Qgt_bool updatedPercentage (ContextLimits.maxPercentage limits)
         then throw (CONTEXT_OVERFLOW updatedPercentage
                       (ContextLimits.maxPercentage limits))
         else ret tt
       else ret tt);
  (* add item to context window *)
  do window <- gets (fun s => contextWindows s persona);
  do_ modify (set_window persona
        (ContextWindow.mk (ContextWindow.persona window)
           (ContextWindow.items window ++ [item])
           (ContextWindow.currentUsage window + itemSize)
           now (ContextWindow.priority window)));
  (* project-level tracking *)
  do_ modify (set_projectContext (set_agentUsage persona usagePercentage));
  do_ updateTotalUsage;
  do_ persistContextState persona;
  (* warning if approaching limit *)
  if Qle_bool (ContextLimits.warningThreshold limits) usagePercentage
  then emit (context_warning persona usagePercentage
               (ContextLimits.warningThreshold limits))
  else ret tt.

(** *** [cleanup] and [emergencyCleanup] *)
Definition cleanup (now : Z) (persona : PersonaType) : M State unit :=
  do window <- gets (fun s => contextWindows s persona);
  let itemsRemoved := Z.of_nat (length (ContextWindow.items window)) in
  let spaceFreed := ContextWindow.currentUsage window in
  do_ modify (set_window persona
        (ContextWindow.mk (ContextWindow.persona window) [] 0 now
           (ContextWindow.priority window)));
  do_ modify (set_projectContext (set_agentUsage persona 0));
  do_ updateTotalUsage;
  do_ removePersistedState persona;
  emit (context_cleanup_manual persona itemsRemoved spaceFreed).

(** the loop of [emergencyCleanup] over the windows; the accumulator is
    [(totalItemsRemoved, totalSpaceFreed)] *)
Fixpoint emergencyLoop (now : Z) (keys : list PersonaType) (acc : Z * Z)
    : M State (Z * Z) :=
  match keys with
  | [] => ret acc
  | persona :: keys' =>
      do window <- gets (fun s => contextWindows s persona);
      match ContextWindow.items window with
      | [] => emergencyLoop now keys' acc
      | _ :: _ =>
          let acc :=
            (fst acc + Z.of_nat (length (ContextWindow.items window)),
             snd acc + ContextWindow.currentUsage window) in
          do_ cleanup now persona;
          emergencyLoop now keys' acc
      end
  end.

Definition emergencyCleanup (now : Z) : M State unit :=
  do totals <- emergencyLoop now personas (0, 0);
  (* reset project context *)
  do_ modify (set_projectContext (fun pc =>
        ProjectContext.mk 0 (fun _ => 0%Q) [] (ProjectContext.limits pc)));
  emit (context_emergency_cleanup (fst totals) (snd totals) now).

(** [calculateUsage] *)
Definition calculateUsage (persona : PersonaType) : M State Q :=
  do window <- gets (fun s => contextWindows s persona);
  let usagePercentage :=
    percentage (ContextWindow.currentUsage window) persona in
  do_ modify (set_projectContext (set_agentUsage persona usagePercentage));
  ret usagePercentage.

(** *** Sequences of reservations and releases *)
Inductive Op : Type :=
| Reserve (now : Z) (persona : PersonaType) (item : ContextItem.t)
| Release (now : Z) (persona : PersonaType) (itemPath : string).

(** the state an operation leaves, whether it returns or throws *)
Definition runOp (op : Op) (s : State) : State :=
  match op with
  | Reserve now persona item => snd (addContext now persona item s)
  | Release now persona itemPath => snd (removeContext now persona itemPath s)
  end.

Definition runOps (ops : list Op) (s : State) : State :=
  fold_left (fun s op => runOp op s) ops s.

(** the usage of a persona, as its window has it *)
Definition usageOf (s : State) (persona : PersonaType) : Q :=
  percentage (ContextWindow.currentUsage (contextWindows s persona)) persona.

Definition itemsOf (s : State) (persona : PersonaType)
    : list ContextItem.t :=
  ContextWindow.items (contextWindows s persona).

Definition limitsOf (s : State) : ContextLimits.t :=
  ProjectContext.limits (projectContext s).

Definition usedBy (s : State) (persona : PersonaType) : Z :=
  ContextWindow.currentUsage (contextWindows s persona).

(** the recorded usage of a persona, and the aggregate *)
Definition recordedUsage (s : State) (persona : PersonaType) : Q :=
  ProjectContext.agentUsage (projectContext s) persona.

Definition totalUsageOf (s : State) : Q :=
  ProjectContext.totalUsage (projectContext s).

(** *** The effect of the operations, in closed form *)

(** what [removeContext] leaves of a list of items, and the size it
    takes off the running total *)
Definition removePath (itemPath : string) (items : list ContextItem.t)
    : list ContextItem.t :=
  match removeFirst itemPath items with
  | Some (_, rest) => rest
  | None => items
  end.

Definition removedSize (itemPath : string) (items : list ContextItem.t) : Z :=
  match removeFirst itemPath items with
  | Some (removed, _) => ContextItem.size removed
  | None => 0
  end.

Fixpoint removedTotal (paths : list string) (items : list ContextItem.t)
    : Z :=
  match paths with
  | [] => 0
  | p :: paths' =>
      removedSize p items + removedTotal paths' (removePath p items)
  end.

(** the items that [performAutomaticCleanup] chooses in a window *)
Definition evictedItems (requiredSpace : Z) (items : list ContextItem.t)
    : list ContextItem.t :=
  fst (selectItems requiredSpace 0 (sort_by itemPriority items)).

Definition totalSize (items : list ContextItem.t) : Z :=
  fold_right (fun item acc => ContextItem.size item + acc) 0 items.

(** the state in which [addContext] leaves [s] when it appends [item],
    having computed [usagePercentage] on entry *)
Definition appended (now : Z) (persona : PersonaType) (item : ContextItem.t)
    (usagePercentage : Q) (s : State) : State :=
  let window := contextWindows s persona in
  let s := set_window persona
             (ContextWindow.mk (ContextWindow.persona window)
                (ContextWindow.items window ++ [item])
                (ContextWindow.currentUsage window + ContextItem.size item)
                now (ContextWindow.priority window)) s in
  let s := set_projectContext (set_agentUsage persona usagePercentage) s in
  let s := snd (updateTotalUsage s) in
  let s := snd (persistContextState persona s) in
  if Qle_bool (ContextLimits.warningThreshold (limitsOf s)) usagePercentage
  then snd (emit (context_warning persona usagePercentage
                    (ContextLimits.warningThreshold (limitsOf s))) s)
  else s.

(** *** Predicates on the ledger *)

Definition nonnegSizes (items : list ContextItem.t) : Prop :=
  Forall (fun item => 0 <= ContextItem.size item) items.

Definition distinctPaths (items : list ContextItem.t) : Prop :=
  NoDup (map ContextItem.path items).

(** what two states of the ledger share besides the window of [persona];
    the ceiling and the other windows *)
Definition sameElsewhere (persona : PersonaType) (s s' : State) : Prop :=
  limitsOf s' = limitsOf s /\
  forall q, q <> persona -> contextWindows s' q = contextWindows s q.

(** no window above the ceiling, the ceiling as configured, no item of
    negative size *)
Definition withinBudget (s : State) : Prop :=
  limitsOf s = ContextLimits.mk 40 35 1000 /\
  forall persona,
    (usageOf s persona <= ContextLimits.maxPercentage (limitsOf s))%Q /\
    nonnegSizes (itemsOf s persona).

(** *** Two runs of the ledger

    The window of the technical writer holds 5600 units, of which 40% is
    2240.  In the first run a file of 2001 units is evicted to admit one
    of 501.  In the second the window holds an interface and a
    configuration item that share the path [/src/types.ts], and a file;
    a reservation of 21 units then needs an eviction. *)
Definition largeFile : ContextItem.t :=
  ContextItem.mk ContextItem.file "/a"
    (Some (repeat_string "x" (Z.to_nat 8000))) 0.

Definition smallFile : ContextItem.t :=
  ContextItem.mk ContextItem.file "/b"
    (Some (repeat_string "x" (Z.to_nat 2000))) 0.

Definition afterEviction : State :=
  runOps [Reserve 1 technical_writer largeFile;
          Reserve 2 technical_writer smallFile] initialState.

Definition typesInterface : ContextItem.t :=
  ContextItem.mk ContextItem.interface "/src/types.ts" None 0.

Definition typesConfig : ContextItem.t :=
  ContextItem.mk ContextItem.config "/src/types.ts" None 0.

Definition bulkFile : ContextItem.t :=
  ContextItem.mk ContextItem.file "/f"
    (Some (repeat_string "x" (Z.to_nat 8550))) 0.

Definition note : ContextItem.t :=
  ContextItem.mk ContextItem.dependency "/n"
    (Some (repeat_string "x" (Z.to_nat 80))) 0.

Definition sharedPath : State :=
  runOps [Reserve 1 technical_writer typesInterface;
          Reserve 2 technical_writer typesConfig;
          Reserve 3 technical_writer bulkFile] initialState.

(** *** [loadPersistedState]

    A file of [contextDir] holds the fields of a window, as
    [persistContextState] writes them.  [state.currentUsage || 0] is
    [state.currentUsage], and [state.lastUpdated] is never missing. *)
Definition loadWindow (persona : PersonaType) : M State unit :=
  do file <- gets (fun s => disk s persona);
  match file with
  | None => ret tt
  | Some state =>
      do window <- gets (fun s => contextWindows s persona);
      let window :=
        ContextWindow.mk (ContextWindow.persona window)
          (ContextWindow.items state) (ContextWindow.currentUsage state)
          (ContextWindow.lastUpdated state)
          (if decide (ContextWindow.priority state = 0)
           then getPersonaPriority persona
           else ContextWindow.priority state) in
      do_ modify (set_window persona window);
      modify (set_projectContext
                (set_agentUsage persona
                   (percentage (ContextWindow.currentUsage window) persona)))
  end.

Definition loadPersistedState : M State unit :=
  do_ for_each personas loadWindow;
  updateTotalUsage.

(** a new manager over the directory that [s] leaves *)
Definition restarted (s : State) : State :=
  mkState (contextWindows initialState) (projectContext initialState)
    (disk s) [].

(** *** [getContextStatus] *)

(** the value of a [PersonaType] *)
Definition personaKey (persona : PersonaType) : string :=
  match persona with
  | requirements_analyst => "requirements-analyst"
  | ui_ux_designer => "ui-ux-designer"
  | frontend_developer => "frontend-developer"
  | backend_architect => "backend-architect"
  | qa_engineer => "qa-engineer"
  | security_analyst => "security-analyst"
  | technical_writer => "technical-writer"
  | devops_engineer => "devops-engineer"
  end.

Module ContextStatus.
Record t : Type := mk {
  totalUsage : Q;
  agentUsage : PersonaType -> Q;
  limits : ContextLimits.t;
  recommendations : list string
}.
End ContextStatus.

(** the personas whose recorded usage is above the warning threshold *)
Definition highUsageAgents (s : State) : list PersonaType :=
  filter (fun persona =>
            Qgt_bool (recordedUsage s persona)
              (ContextLimits.warningThreshold (limitsOf s)) = true)
         personas.

Definition getContextStatus (s : State) : ContextStatus.t :=
  let recommendations :=
    match highUsageAgents s with
    | [] => []
    | agents =>
        ["High context usage detected for: " +:+
           join ", " (map personaKey agents);
         "Consider decomposing tasks or cleaning up unused context"]
    end in
  let recommendations :=
    if Qgt_bool (totalUsageOf s)
         (ContextLimits.warningThreshold (limitsOf s))
    then recommendations ++
         ["Total context usage is approaching critical levels";
          "Emergency cleanup may be required soon"]
    else recommendations in
  ContextStatus.mk (totalUsageOf s)
    (ProjectContext.agentUsage (projectContext s)) (limitsOf s)
    recommendations.

(** *** Runs of the ledger over all its public methods *)
Inductive Call : Type :=
| AddContext (now : Z) (persona : PersonaType) (item : ContextItem.t)
| RemoveContext (now : Z) (persona : PersonaType) (itemPath : string)
| AutomaticCleanup (now : Z) (persona : PersonaType) (requiredSpace : Z)
| Cleanup (now : Z) (persona : PersonaType)
| EmergencyCleanup (now : Z)
| CalculateUsage (persona : PersonaType).

(** the state a call leaves, whether it returns or throws *)
Definition call (c : Call) (s : State) : State :=
  match c with
  | AddContext now persona item => snd (addContext now persona item s)
  | RemoveContext now persona itemPath =>
      snd (removeContext now persona itemPath s)
  | AutomaticCleanup now persona requiredSpace =>
      snd (performAutomaticCleanup now persona requiredSpace s)
  | Cleanup now persona => snd (cleanup now persona s)
  | EmergencyCleanup now => snd (emergencyCleanup now s)
  | CalculateUsage persona => snd (calculateUsage persona s)
  end.

Definition calls (l : list Call) (s : State) : State :=
  fold_left (fun s c => call c s) l s.

(** A window is sound when it carries its persona and the priority of its
    persona, its running total is the sum of the sizes of its items, none
    of them negative, and is within the ceiling, and the file of the
    persona is a copy of it; a persona without a file has an empty
    window. *)
Definition windowSound (s : State) (persona : PersonaType) : Prop :=
  let window := contextWindows s persona in
  ContextWindow.persona window = persona /\
  ContextWindow.priority window = getPersonaPriority persona /\
  ContextWindow.currentUsage window = totalSize (ContextWindow.items window)
  /\
  nonnegSizes (ContextWindow.items window) /\
  (percentage (ContextWindow.currentUsage window) persona
     <= ContextLimits.maxPercentage (limitsOf s))%Q /\
  match disk s persona with
  | Some file => file = window
  | None => ContextWindow.items window = []
  end.

Definition ledgerSound (s : State) : Prop :=
  limitsOf s = ContextLimits.mk 40 35 1000 /\
  forall persona, windowSound s persona.

(** the number of items, and the space, that the windows of [keys] hold *)
Definition itemsHeld (s : State) (keys : list PersonaType) : Z :=
  fold_right (fun persona acc =>
                Z.of_nat (length (itemsOf s persona)) + acc) 0 keys.

Definition spaceHeld (s : State) (keys : list PersonaType) : Z :=
  fold_right (fun persona acc => usedBy s persona + acc) 0 keys.

End ContextManager.

(** ** The dispatcher (class [AgentOrchestrator]) *)

Inductive AgentStatus : Type := idle | working | blocked | error.

#[global] Instance AgentStatus_eq_dec : EqDecision AgentStatus.
Proof. solve_decision. Defined.

Inductive TaskStatus : Type :=
| task_pending | task_in_progress | task_testing | task_review
| task_completed | task_failed.

Module Priority.
Inductive t : Type := low | medium | high | critical.
End Priority.

Module Task.
(** [id] and [title] are strings by their type; the validation of
    [assignTask] also meets the value [undefined], here [None]. *)
Record t : Type := mk {
  id : option string;
  linearId : option string;
  title : option string;
  description : string;
  status : TaskStatus;
  priority : Priority.t;
  assignedAgent : option PersonaType;
  dependencies : list string;
  contextRequirement : Q;
  acceptanceCriteria : list string;
  createdAt : Z;
  updatedAt : Z;
  completedAt : option Z
}.

(** [task.assignedAgent = persona] *)
Definition assign (persona : PersonaType) (task : t) : t :=
  mk (id task) (linearId task) (title task) (description task) (status task)
     (priority task) (Some persona) (dependencies task)
     (contextRequirement task) (acceptanceCriteria task) (createdAt task)
     (updatedAt task) (completedAt task).
End Task.

Module Agent.
Record t : Type := mk {
  id : string;
  name : string;
  persona : PersonaType;
  specializations : list string;
  contextLimit : Z;
  status : AgentStatus;
  currentTask : option Task.t;
  contextUsage : Q
}.
End Agent.

(** ** The task executor (class [TaskExecutor]) *)

(** *** A [Map] in insertion order

    [set] replaces the value of a key that is present, in place, and
    adds a key that is not at the end. *)
Section JsMap.
Context {K V : Type} `{EqDecision K}.

Fixpoint Map_get (m : list (K * V)) (k : K) : option V :=
  match m with
  | [] => None
  | (k', v) :: m' => if decide (k' = k) then Some v else Map_get m' k
  end.

Definition Map_has (m : list (K * V)) (k : K) : bool :=
  match Map_get m k with Some _ => true | None => false end.

Fixpoint Map_set (m : list (K * V)) (k : K) (v : V) : list (K * V) :=
  match m with
  | [] => [(k, v)]
  | (k', v') :: m' =>
      if decide (k' = k) then (k, v) :: m' else (k', v') :: Map_set m' k v
  end.

Fixpoint Map_delete (m : list (K * V)) (k : K) : list (K * V) :=
  match m with
  | [] => []
  | (k', v') :: m' =>
      if decide (k' = k) then m' else (k', v') :: Map_delete m' k
  end.

Definition Map_values (m : list (K * V)) : list V := map snd m.

End JsMap.

(** *** Failures of the execution layer

    The errors above, [TaskExecutionError], the code that [executeTask]
    raises for a task without an agent, and the errors of the
    collaborators that are not part of these sources. *)
Module Failure.
Inductive t : Type :=
| Sentra (e : SentraError)
| TASK_EXECUTION_FAILED (taskId : option string) (details : string)
| NO_ASSIGNED_AGENT
| External (message : string).
End Failure.

Inductive outcome (A : Type) : Type :=
| Done (a : A)
| Thrown (f : Failure.t).
Arguments Done {A} a.
Arguments Thrown {A} f.

Module ExecutionResult.
(** [output] stands for the value that the work of the persona returns;
    no code here looks into it *)
Record t : Type := mk {
  success : bool;
  output : option string;
  error : option string;
  duration : Z;
  contextUsed : Q;
  artifacts : option (list string)
}.
End ExecutionResult.

Module TaskExecutor.

Inductive Event : Type :=
| executor_task_executed (taskId : option string) (result : ExecutionResult.t)
    (agent : PersonaType)
| executor_task_failed (taskId : option string) (result : ExecutionResult.t)
    (agent : PersonaType) (message : string).

Record State : Type := mkState {
  executingTasks : list (option string * Task.t);
  completedTasks : list (option string * ExecutionResult.t);
  emitted : list Event
}.

Definition initialState : State := mkState [] [] [].

(** What the body of the [try] block of [execute] does before it marks
    the task as completed: the report to Linear that the task is in
    progress, the work of the persona ([executeByPersona]) and the
    collection of artifacts.  These reach outside the sources at hand
    (Linear, the file system, the environment); they return an output and
    artifacts, or throw. *)
Inductive Work : Type :=
| Finished (output : string) (artifacts : list string)
| Failed (message : string).

(** the collaborators: the work on a task by an agent, and the reports to
    Linear for a task that has a [linearId], of a success (status and
    comment) and of a failure; a report returns ([None]) or throws *)
Record Collaborators : Type := mkCollaborators {
  work : Task.t -> Agent.t -> Work;
  reportSuccess : string -> ExecutionResult.t -> option string;
  reportFailure : string -> string -> option string
}.

Definition with_progress (status : TaskStatus) (updatedAt : Z)
    (completedAt : option Z) (task : Task.t) : Task.t :=
  Task.mk (Task.id task) (Task.linearId task) (Task.title task)
    (Task.description task) status (Task.priority task)
    (Task.assignedAgent task) (Task.dependencies task)
    (Task.contextRequirement task) (Task.acceptanceCriteria task)
    (Task.createdAt task) updatedAt completedAt.

(** a string inside a template literal *)
Definition interpolate (s : option string) : string := default "undefined" s.

(** *** [resolveDependencies] *)
Fixpoint checkDependencies (taskId : option string)
    (completed : list (option string * ExecutionResult.t))
    (dependencies : list string) : outcome unit :=
  match dependencies with
  | [] => Done tt
  | depId :: dependencies' =>
      match Map_get completed (Some depId) with
      | None =>
          Thrown (Failure.TASK_EXECUTION_FAILED taskId
                    ("Dependency not completed: " +:+ depId))
      | Some depResult =>
          if ExecutionResult.success depResult
          then checkDependencies taskId completed dependencies'
          else Thrown (Failure.TASK_EXECUTION_FAILED taskId
                         ("Dependency failed: " +:+ depId +:+ " - " +:+
                          interpolate (ExecutionResult.error depResult)))
      end
  end.

Definition resolveDependencies (task : Task.t) (s : State) : outcome unit :=
  checkDependencies (Task.id task) (completedTasks s) (Task.dependencies task).

(** *** [execute]

    [now] is the clock when the call starts and [later] the clock when
    the work has ended.  The task is an object that the caller shares:
    the task as [execute] leaves it is returned with the state. *)
Definition execute (c : Collaborators) (now later : Z) (task : Task.t)
    (agent : Agent.t) (s : State)
    : outcome ExecutionResult.t * Task.t * State :=
  (* validate task state *)
  if Map_has (executingTasks s) (Task.id task) then
    (Thrown (Failure.TASK_EXECUTION_FAILED (Task.id task)
               "Task is already executing"), task, s)
  else
    (* check dependencies *)
    match resolveDependencies task s with
    | Thrown f => (Thrown f, task, s)
    | Done _ =>
        (* add to executing tasks *)
        let task :=
          with_progress task_in_progress now (Task.completedAt task) task in
        let s :=
          mkState (Map_set (executingTasks s) (Task.id task) task)
            (completedTasks s) (emitted s) in
        let duration := later - now in
        let finally (s : State) : State :=
          mkState (Map_delete (executingTasks s) (Task.id task))
            (completedTasks s) (emitted s) in
        (* the [catch] block, for an error thrown in the [try] block when
           the task is [task] *)
        let caught (task : Task.t) (errorMessage : string) :=
          let executionResult :=
            ExecutionResult.mk false None (Some errorMessage) duration
              (Agent.contextUsage agent) None in
          let task :=
            with_progress task_failed later (Task.completedAt task) task in
          match match Task.linearId task with
                | Some linearId => reportFailure c linearId errorMessage
                | None => None
                end with
          | Some thrown => (Thrown (Failure.External thrown), task, finally s)
          | None =>
              (* store result *)
              let s :=
                mkState (executingTasks s)
                  (Map_set (completedTasks s) (Task.id task)
                     executionResult)
                  (emitted s ++
                     [executor_task_failed (Task.id task) executionResult
                        (Agent.persona agent) errorMessage]) in
              (Thrown (Failure.TASK_EXECUTION_FAILED (Task.id task)
                         errorMessage), task, finally s)
          end in
        match work c task agent with
        | Finished output artifacts =>
            let executionResult :=
              ExecutionResult.mk true (Some output) None duration
                (Agent.contextUsage agent) (Some artifacts) in
            let task := with_progress task_completed later (Some later) task in
            (* update Linear task *)
            match match Task.linearId task with
                  | Some linearId => reportSuccess c linearId executionResult
                  | None => None
                  end with
            | Some errorMessage => caught task errorMessage
            | None =>
                (* store result *)
                let s :=
                  mkState (executingTasks s)
                    (Map_set (completedTasks s) (Task.id task)
                       executionResult)
                    (emitted s ++
                       [executor_task_executed (Task.id task) executionResult
                          (Agent.persona agent)]) in
                (Done executionResult, task, finally s)
            end
        | Failed errorMessage => caught task errorMessage
        end
    end.

(** *** [getExecutionStatus] *)
Module ExecutionStatus.
Record t : Type := mk {
  executing : list Task.t;
  completed : nat;
  failed : nat;
  totalDuration : Z;
  averageDuration : Q
}.
End ExecutionStatus.

Definition getExecutionStatus (s : State) : ExecutionStatus.t :=
  let executing := Map_values (executingTasks s) in
  let completedResults := Map_values (completedTasks s) in
  let completed :=
    length (filter (fun r => ExecutionResult.success r = true)
              completedResults) in
  let failed :=
    length (filter (fun r => ExecutionResult.success r = false)
              completedResults) in
  let totalDuration :=
    fold_left (fun sum r => sum + ExecutionResult.duration r)
      completedResults 0 in
  let averageDuration :=
    match completedResults with
    | [] => 0%Q
    | _ :: _ =>
        (inject_Z totalDuration
         / inject_Z (Z.of_nat (length completedResults)))%Q
    end in
  ExecutionStatus.mk executing completed failed totalDuration averageDuration.

(** *** Runs of the executor, one call after the other *)
Record Run : Type := mkRun {
  run_now : Z;
  run_later : Z;
  run_task : Task.t;
  run_agent : Agent.t
}.

Definition runs (c : Collaborators) (l : list Run) (s : State) : State :=
  fold_left (fun s r =>
               snd (execute c (run_now r) (run_later r) (run_task r)
                      (run_agent r) s))
            l s.

(** a dependency that has a recorded result, which is a success *)
Definition succeeded (s : State) (depId : string) : Prop :=
  exists depResult,
    Map_get (completedTasks s) (Some depId) = Some depResult /\
    ExecutionResult.success depResult = true.

#[global] Instance succeeded_dec s depId : Decision (succeeded s depId).
Proof.
  unfold succeeded.
  destruct (Map_get (completedTasks s) (Some depId)) as [r|].
  - destruct (ExecutionResult.success r) eqn:Hsucc.
    + left. exists r. auto.
    + right. intros (r' & [= <-] & H). congruence.
  - right. intros (r' & [=] & _).
Defined.

(** what [resolveDependencies] tells about a dependency that holds the
    task up *)
Definition blockedBy (s : State) (depId : string) : string :=
  match Map_get (completedTasks s) (Some depId) with
  | None => "Dependency not completed: " +:+ depId
  | Some depResult =>
      "Dependency failed: " +:+ depId +:+ " - " +:+
      interpolate (ExecutionResult.error depResult)
  end.

(** nothing is executing, each task has one result at most, and a
    failure carries its message *)
Definition resultsSound (s : State) : Prop :=
  executingTasks s = [] /\
  NoDup (map fst (completedTasks s)) /\
  Forall (fun entry =>
            ExecutionResult.success (snd entry) = false ->
            is_Some (ExecutionResult.error (snd entry)))
         (completedTasks s).

End TaskExecutor.

Module AgentOrchestrator.

Inductive Event : Type :=
| task_assigned (taskId : option string) (agent : PersonaType)
    (title : option string) (priority : Priority.t).

(** [agents] is a [Map]: the list of its entries in insertion order *)
Record State : Type := mkState {
  agents : list (PersonaType * Agent.t);
  activeAgents : list PersonaType;
  taskQueue : list Task.t;
  isRunning : bool;
  emitted : list Event
}.

(** [this.agents.get(persona)] *)
Fixpoint agents_get (agents : list (PersonaType * Agent.t))
    (persona : PersonaType) : option Agent.t :=
  match agents with
  | [] => None
  | (p, agent) :: agents' =>
      if decide (p = persona) then Some agent else agents_get agents' persona
  end.

(** *** Helper methods *)

Definition personaName (persona : PersonaType) : string :=
  match persona with
  | requirements_analyst => "requirements-analyst"
  | ui_ux_designer => "ui-ux-designer"
  | frontend_developer => "frontend-developer"
  | backend_architect => "backend-architect"
  | qa_engineer => "qa-engineer"
  | security_analyst => "security-analyst"
  | technical_writer => "technical-writer"
  | devops_engineer => "devops-engineer"
  end.

Definition getAgentDisplayName (persona : PersonaType) : string :=
  match persona with
  | requirements_analyst => "Requirements Analyst Master"
  | ui_ux_designer => "UI/UX Designer Master"
  | frontend_developer => "Frontend Developer Master"
  | backend_architect => "Backend Architect Master"
  | qa_engineer => "QA Engineer Master"
  | security_analyst => "Security Analyst Master"
  | technical_writer => "Technical Writer Master"
  | devops_engineer => "DevOps Engineer Master"
  end.

Definition getPersonaContextLimit (persona : PersonaType) : Z :=
  match persona with
  | requirements_analyst => 30
  | ui_ux_designer => 25
  | frontend_developer => 35
  | backend_architect => 35
  | qa_engineer => 30
  | security_analyst => 25
  | technical_writer => 20
  | devops_engineer => 30
  end.

(** *** [initializeAgents]

    The persona classes are not part of the sources at hand:
    [getSpecializations] stands for their method of that name. *)
Definition agentConfigs : list PersonaType :=
  [requirements_analyst; ui_ux_designer; frontend_developer;
   backend_architect; qa_engineer; security_analyst; technical_writer;
   devops_engineer].

Definition initializeAgents (getSpecializations : PersonaType -> list string)
    (now : Z) : list (PersonaType * Agent.t) :=
  map (fun persona =>
         (persona,
          Agent.mk ("agent-" +:+ personaName persona +:+ "-" +:+ pretty now)
            (getAgentDisplayName persona) persona
            (getSpecializations persona)
            (getPersonaContextLimit persona) idle None 0))
      agentConfigs.

Definition initialState (getSpecializations : PersonaType -> list string)
    (now : Z) : State :=
  mkState (initializeAgents getSpecializations now) [] [] false [].

(** *** [analyzeTaskRequirements] *)

Definition specializationKeywords : list (string * list string) := [
  ("stakeholder-analysis",
     ["stakeholder"; "user"; "business"; "requirement"; "analysis"]);
  ("user-story-creation", ["story"; "epic"; "feature"; "user"; "need"]);
  ("user-experience-design",
     ["ux"; "user experience"; "wireframe"; "prototype"; "design"]);
  ("interface-design", ["ui"; "interface"; "component"; "layout"; "design"]);
  ("react-development", ["react"; "component"; "jsx"; "hook"; "state"]);
  ("typescript", ["typescript"; "type"; "interface"; "generic"]);
  ("api-design", ["api"; "endpoint"; "rest"; "graphql"; "service"]);
  ("database-architecture",
     ["database"; "sql"; "schema"; "migration"; "query"]);
  ("test-automation", ["test"; "testing"; "automation"; "spec"; "coverage"]);
  ("security-auditing",
     ["security"; "auth"; "encrypt"; "vulnerability"; "audit"]);
  ("documentation", ["docs"; "documentation"; "readme"; "guide"; "manual"]);
  ("ci-cd-pipelines", ["ci"; "cd"; "pipeline"; "deploy"; "build"])
].

(** a string inside a template literal *)
Definition interpolate (s : option string) : string := default "undefined" s.

Definition taskText (task : Task.t) : string :=
  toLowerCase (interpolate (Task.title task) +:+ " " +:+
               Task.description task +:+ " " +:+
               join " " (Task.acceptanceCriteria task)).

(** the specializations one of whose patterns occurs in [text] *)
Definition matchingKeywords (text : string) : list string :=
  map fst (filter (fun entry => existsb (includes text) (snd entry))
                  specializationKeywords).

Definition analyzeTaskRequirements (task : Task.t) : list string * Z :=
  let text := taskText task in
  let keywords := matchingKeywords text in
  let complexity :=
    (1 + (1 # 2) * inject_Z (Z.of_nat (length keywords)))%Q in
  let complexity :=
    (complexity + Qmin (inject_Z (str_length text) / 1000) 3)%Q in
  (keywords, Math_round complexity).

(** *** [selectOptimalAgent] *)

(** [keywords.includes(specialization)] *)
Definition array_includes (l : list string) (x : string) : bool :=
  existsb (String.eqb x) l.

Definition agentScore (keywords : list string) (agent : Agent.t) : Z :=
  (* specialization match score *)
  let score :=
    fold_left (fun score specialization =>
                 if array_includes keywords specialization then score + 10
                 else score)
              (Agent.specializations agent) 0 in
  (* context availability score *)
  let score :=
    if negb (Qle_bool (inject_Z (Agent.contextLimit agent) * (8 # 10))
                      (Agent.contextUsage agent))
    then score + 5 else score in
  (* agent availability score *)
  if decide (Agent.status agent = idle) then score + 8
  else if decide (Agent.status agent = working) then score - 5
  else score.

Definition selectOptimalAgent (agents : list (PersonaType * Agent.t))
    (task : Task.t) : result PersonaType :=
  let taskAnalysis := analyzeTaskRequirements task in
  let agentScores :=
    map (fun entry => (fst entry, agentScore (fst taskAnalysis) (snd entry)))
        agents in
  (* [sort((a, b) => b.score - a.score)] *)
  let agentScores := sort_by (fun entry => - snd entry) agentScores in
  match agentScores with
  | [] => Err TypeError
  | selectedAgent :: _ => Ok (fst selectedAgent)
  end.

(** *** [assignTask] *)

(** the truth value of a string that may be [undefined] *)
Definition truthy (s : option string) : bool :=
  match s with
  | Some (String _ _) => true
  | _ => false
  end.

Definition assignTask (task : Task.t) : M State unit :=
  (* validate task *)
  if negb (truthy (Task.id task)) || negb (truthy (Task.title task)) then
    throw INVALID_TASK
  else
    (* auto-assign agent if not specified *)
    do assigned <-
      match Task.assignedAgent task with
      | Some persona => ret persona
      | None =>
          do roster <- gets agents;
          match selectOptimalAgent roster task with
          | Ok persona => ret persona
          | Err e => throw e
          end
      end;
    let task := Task.assign assigned task in
    (* check context requirements *)
    do roster <- gets agents;
    match agents_get roster assigned with
    | None => throw (AGENT_NOT_FOUND assigned)
    | Some agent =>
        if negb (Qle_bool (Task.contextRequirement task)
                          (inject_Z (Agent.contextLimit agent)))
        then throw (CONTEXT_LIMIT_EXCEEDED (Task.contextRequirement task)
                      (Agent.contextLimit agent))
        else
          (* add to queue *)
          do_ modify (fun s =>
                mkState (agents s) (activeAgents s) (taskQueue s ++ [task])
                  (isRunning s) (emitted s));
          modify (fun s =>
            mkState (agents s) (activeAgents s) (taskQueue s) (isRunning s)
              (emitted s ++ [task_assigned (Task.id task) assigned
                               (Task.title task) (Task.priority task)]))
    end.

(** *** What the claims speak of *)

(** a roster whose limits are those of [getPersonaContextLimit], as every
    roster built by [initializeAgents] is ([contextLimit] is read-only) *)
Definition rosterLimits (agents : list (PersonaType * Agent.t)) : Prop :=
  Forall (fun entry =>
            Agent.contextLimit (snd entry) =
            getPersonaContextLimit (fst entry)) agents.

(** two workers with the same capability set, status and consumption *)
Definition sameWorker (a b : PersonaType * Agent.t) : Prop :=
  fst a = fst b /\
  Agent.specializations (snd a) = Agent.specializations (snd b) /\
  Agent.status (snd a) = Agent.status (snd b) /\
  (Agent.contextUsage (snd a) == Agent.contextUsage (snd b))%Q.

(** two tasks with the same text *)
Definition sameText (t1 t2 : Task.t) : Prop :=
  Task.title t1 = Task.title t2 /\
  Task.description t1 = Task.description t2 /\
  Task.acceptanceCriteria t1 = Task.acceptanceCriteria t2.

(** the score of a worker for a task *)
Definition scoreFor (task : Task.t) (entry : PersonaType * Agent.t) : Z :=
  agentScore (fst (analyzeTaskRequirements task)) (snd entry).

(** the first entry of the roster that no other entry outscores *)
Fixpoint firstBest (task : Task.t) (agents : list (PersonaType * Agent.t))
    : option (PersonaType * Agent.t) :=
  match agents with
  | [] => None
  | entry :: agents' =>
      match firstBest task agents' with
      | None => Some entry
      | Some best =>
          if scoreFor task best <=? scoreFor task entry then Some entry
          else Some best
      end
  end.

(** the state in which [assignTask] leaves [s] when it enqueues [task]
    for [persona] *)
Definition enqueued (persona : PersonaType) (task : Task.t) (s : State)
    : State :=
  mkState (agents s) (activeAgents s)
    (taskQueue s ++ [Task.assign persona task]) (isRunning s)
    (emitted s ++ [task_assigned (Task.id task) persona (Task.title task)
                     (Task.priority task)]).

(** *** A roster with no worker to spare

    The first worker has been stopped in an emergency and is in error;
    the seven others are working, each with 40% of context in use, which
    is above 80% of its limit.  The task names no capability. *)
Definition sampleSpecializations (persona : PersonaType) : list string :=
  match persona with
  | requirements_analyst => ["stakeholder-analysis"; "user-story-creation"]
  | ui_ux_designer => ["user-experience-design"; "interface-design"]
  | frontend_developer => ["react-development"; "typescript"]
  | backend_architect => ["api-design"; "database-architecture"]
  | qa_engineer => ["test-automation"]
  | security_analyst => ["security-auditing"]
  | technical_writer => ["documentation"]
  | devops_engineer => ["ci-cd-pipelines"]
  end.

Definition sampleTask : Task.t :=
  Task.mk (Some "task-1") None (Some "Tidy up") "Housekeeping" task_pending
    Priority.medium None [] 10 ["Done"] 0 0 None.

Definition busyRoster : State :=
  mkState
    (map (fun entry =>
            let agent := snd entry in
            (fst entry,
             Agent.mk (Agent.id agent) (Agent.name agent)
               (Agent.persona agent) (Agent.specializations agent)
               (Agent.contextLimit agent)
               (if decide (fst entry = requirements_analyst)
                then error else working)
               None
               (if decide (fst entry = requirements_analyst)
                then 0%Q else 40%Q)))
         (initializeAgents sampleSpecializations 0))
    [] [] true [].

(** *** The execution methods

    The orchestrator works on its own fields, on the context manager and
    on the task executor that its constructor receives.  The events of
    these methods are kept in a list of their own. *)
Inductive LifecycleEvent : Type :=
| agent_status_changed (agentId : string) (agent : PersonaType)
    (previous current : AgentStatus)
| orchestrator_task_completed (taskId : option string)
    (agent : option PersonaType) (details : ExecutionResult.t)
| orchestrator_task_failed (taskId : option string)
    (agent : option PersonaType) (error : Failure.t)
| orchestrator_stopped (timestamp : Z)
| orchestrator_emergency_stopped (timestamp : Z).

Record System : Type := mkSystem {
  orchestrator : State;
  contextManager : ContextManager.State;
  taskExecutor : TaskExecutor.State;
  lifecycle : list LifecycleEvent
}.

Definition set_orchestrator (f : State -> State) (sys : System) : System :=
  mkSystem (f (orchestrator sys)) (contextManager sys) (taskExecutor sys)
    (lifecycle sys).

Definition set_contextManager (ctx : ContextManager.State) (sys : System)
    : System :=
  mkSystem (orchestrator sys) ctx (taskExecutor sys) (lifecycle sys).

Definition set_taskExecutor (exec : TaskExecutor.State) (sys : System)
    : System :=
  mkSystem (orchestrator sys) (contextManager sys) exec (lifecycle sys).

Definition emitLifecycle (e : LifecycleEvent) (sys : System) : System :=
  mkSystem (orchestrator sys) (contextManager sys) (taskExecutor sys)
    (lifecycle sys ++ [e]).

(** an assignment to the fields of the agent object of [persona] *)
Fixpoint agents_update (roster : list (PersonaType * Agent.t))
    (persona : PersonaType) (f : Agent.t -> Agent.t)
    : list (PersonaType * Agent.t) :=
  match roster with
  | [] => []
  | (p, agent) :: roster' =>
      if decide (p = persona) then (p, f agent) :: roster'
      else (p, agent) :: agents_update roster' persona f
  end.

Definition set_agents (f : list (PersonaType * Agent.t) ->
                           list (PersonaType * Agent.t)) (s : State)
    : State :=
  mkState (f (agents s)) (activeAgents s) (taskQueue s) (isRunning s)
    (emitted s).

Definition set_activeAgents (f : list PersonaType -> list PersonaType)
    (s : State) : State :=
  mkState (agents s) (f (activeAgents s)) (taskQueue s) (isRunning s)
    (emitted s).

Definition set_taskQueue (f : list Task.t -> list Task.t) (s : State)
    : State :=
  mkState (agents s) (activeAgents s) (f (taskQueue s)) (isRunning s)
    (emitted s).

Definition set_isRunning (b : bool) (s : State) : State :=
  mkState (agents s) (activeAgents s) (taskQueue s) b (emitted s).

Definition with_work (status : AgentStatus) (currentTask : option Task.t)
    (agent : Agent.t) : Agent.t :=
  Agent.mk (Agent.id agent) (Agent.name agent) (Agent.persona agent)
    (Agent.specializations agent) (Agent.contextLimit agent) status
    currentTask (Agent.contextUsage agent).

Definition with_contextUsage (usage : Q) (agent : Agent.t) : Agent.t :=
  Agent.mk (Agent.id agent) (Agent.name agent) (Agent.persona agent)
    (Agent.specializations agent) (Agent.contextLimit agent)
    (Agent.status agent) (Agent.currentTask agent) usage.

(** [this.activeAgents.add(persona)] and [.delete(persona)] *)
Definition Set_add (persona : PersonaType) (l : list PersonaType)
    : list PersonaType :=
  if bool_decide (persona ∈ l) then l else l ++ [persona].

Definition Set_delete (persona : PersonaType) (l : list PersonaType)
    : list PersonaType :=
  filter (fun p => p <> persona) l.

(** *** [startAgent] *)
Definition startAgent (persona : PersonaType) (task : Task.t) (sys : System)
    : outcome unit * System :=
  match agents_get (agents (orchestrator sys)) persona with
  | None => (Thrown (Failure.Sentra (AGENT_NOT_FOUND persona)), sys)
  | Some agent =>
      (* agent status *)
      let sys :=
        set_orchestrator
          (set_agents (fun roster =>
             agents_update roster persona (with_work working (Some task))))
          sys in
      (* add to active agents *)
      let sys := set_orchestrator (set_activeAgents (Set_add persona)) sys in
      (* context usage *)
      match ContextManager.calculateUsage persona (contextManager sys) with
      | (Err e, ctx) => (Thrown (Failure.Sentra e), set_contextManager ctx sys)
      | (Ok usage, ctx) =>
          let sys := set_contextManager ctx sys in
          let sys :=
            set_orchestrator
              (set_agents (fun roster =>
                 agents_update roster persona (with_contextUsage usage)))
              sys in
          (Done tt,
           emitLifecycle
             (agent_status_changed (Agent.id agent) persona idle working) sys)
      end
  end.

(** *** [stopAgent] *)
Definition stopAgent (now : Z) (persona : PersonaType) (sys : System)
    : outcome unit * System :=
  match agents_get (agents (orchestrator sys)) persona with
  | None => (Done tt, sys)
  | Some agent =>
      let previousStatus := Agent.status agent in
      let sys :=
        set_orchestrator
          (set_agents (fun roster =>
             agents_update roster persona (with_work idle None)))
          sys in
      (* remove from active agents *)
      let sys :=
        set_orchestrator (set_activeAgents (Set_delete persona)) sys in
      (* clean up context *)
      match ContextManager.cleanup now persona (contextManager sys) with
      | (Err e, ctx) => (Thrown (Failure.Sentra e), set_contextManager ctx sys)
      | (Ok _, ctx) =>
          let sys := set_contextManager ctx sys in
          let sys :=
            set_orchestrator
              (set_agents (fun roster =>
                 agents_update roster persona (with_contextUsage 0)))
              sys in
          (Done tt,
           emitLifecycle
             (agent_status_changed (Agent.id agent) persona previousStatus
                idle) sys)
      end
  end.

(** *** [executeTask]

    [c] stands for Linear and the work of the personas; [now] is the
    clock when the execution starts, [later] when the work has ended.
    The task as the call leaves it is returned with the state. *)
Definition executeTask (c : TaskExecutor.Collaborators) (now later : Z)
    (task : Task.t) (sys : System) : outcome unit * Task.t * System :=
  match Task.assignedAgent task with
  | None => (Thrown Failure.NO_ASSIGNED_AGENT, task, sys)
  | Some persona =>
      match agents_get (agents (orchestrator sys)) persona with
      | None => (Thrown (Failure.Sentra (AGENT_NOT_FOUND persona)), task, sys)
      | Some agent =>
          (* is the agent available? *)
          if negb (bool_decide (Agent.status agent = idle)) then
            (* re-queue the task for later *)
            (Done tt, task,
             set_orchestrator (set_taskQueue (fun q => q ++ [task])) sys)
          else
            match startAgent persona task sys with
            | (Thrown f, sys) => (Thrown f, task, sys)
            | (Done _, sys) =>
                (* [agent] is the object that [startAgent] has updated *)
                let agent :=
                  match agents_get (agents (orchestrator sys)) persona with
                  | Some updated => updated
                  | None => agent
                  end in
                let '(r, task, sys) :=
                  match TaskExecutor.execute c now later task agent
                          (taskExecutor sys) with
                  | (Done result, task, exec) =>
                      let task :=
                        TaskExecutor.with_progress task_completed
                          (Task.updatedAt task) (Some later) task in
                      (Done tt, task,
                       emitLifecycle
                         (orchestrator_task_completed (Task.id task)
                            (Task.assignedAgent task) result)
                         (set_taskExecutor exec sys))
                  | (Thrown f, task, exec) =>
                      let task :=
                        TaskExecutor.with_progress task_failed
                          (Task.updatedAt task) (Task.completedAt task)
                          task in
                      (Thrown f, task, set_taskExecutor exec sys)
                  end in
                (* finally: stop the agent *)
                match stopAgent later persona sys with
                | (Thrown f, sys) => (Thrown f, task, sys)
                | (Done _, sys) => (r, task, sys)
                end
            end
      end
  end.

(** *** [processTaskQueue]

    The pause between two tasks and the timer that calls for the next
    pass are left out. *)
#[global] Instance Priority_eq_dec : EqDecision Priority.t.
Proof. solve_decision. Defined.

Definition priorityOrder (p : Priority.t) : Z :=
  match p with
  | Priority.critical => 4
  | Priority.high => 3
  | Priority.medium => 2
  | Priority.low => 1
  end.

(** [this.taskQueue.sort((a, b) => priorityOrder[b.priority] -
    priorityOrder[a.priority])] *)
Definition sortQueue (queue : list Task.t) : list Task.t :=
  sort_by (fun task => - priorityOrder (Task.priority task)) queue.

(** one turn of the loop on a queue that is not empty: the task at the
    head is taken and executed, and a failure is reported *)
Definition processTask (c : TaskExecutor.Collaborators) (now later : Z)
    (task : Task.t) (sys : System) : System :=
  match executeTask c now later task sys with
  | (Done _, _, sys) => sys
  | (Thrown f, task, sys) =>
      emitLifecycle
        (orchestrator_task_failed (Task.id task) (Task.assignedAgent task)
           f)
        sys
  end.

(** the loop, for as long as the clock [ticks] reaches: each turn reads
    the clock at its start and when the work has ended.  It returns
    whether the loop has come to its end, and the state. *)
Fixpoint processLoop (c : TaskExecutor.Collaborators)
    (ticks : list (Z * Z)) (sys : System) : bool * System :=
  match taskQueue (orchestrator sys) with
  | [] => (true, sys)
  | task :: queue =>
      if negb (isRunning (orchestrator sys)) then (true, sys)
      else
        match ticks with
        | [] => (false, sys)
        | (now, later) :: ticks' =>
            let sys := set_orchestrator (set_taskQueue (fun _ => queue)) sys in
            processLoop c ticks' (processTask c now later task sys)
        end
  end.

Definition processTaskQueue (c : TaskExecutor.Collaborators)
    (ticks : list (Z * Z)) (sys : System) : bool * System :=
  if negb (isRunning (orchestrator sys)) then (true, sys)
  else
    processLoop c ticks (set_orchestrator (set_taskQueue sortQueue) sys).

(** *** [stop] *)
Fixpoint stopAgents (now : Z) (active : list PersonaType) (sys : System)
    : outcome unit * System :=
  match active with
  | [] => (Done tt, sys)
  | persona :: active' =>
      match stopAgent now persona sys with
      | (Thrown f, sys) => (Thrown f, sys)
      | (Done _, sys) => stopAgents now active' sys
      end
  end.

Definition stop (now : Z) (sys : System) : outcome unit * System :=
  if negb (isRunning (orchestrator sys)) then (Done tt, sys)
  else
    let sys := set_orchestrator (set_isRunning false) sys in
    (* stop all active agents *)
    match stopAgents now (activeAgents (orchestrator sys)) sys with
    | (Thrown f, sys) => (Thrown f, sys)
    | (Done _, sys) => (Done tt, emitLifecycle (orchestrator_stopped now) sys)
    end.

(** *** [emergencyStop] *)
Definition emergencyStop (now : Z) (sys : System) : outcome unit * System :=
  let sys := set_orchestrator (set_isRunning false) sys in
  let sys := set_orchestrator (set_taskQueue (fun _ => [])) sys in
  (* force stop all agents *)
  let sys :=
    set_orchestrator
      (set_agents (fun roster =>
         fold_left (fun roster persona =>
                      agents_update roster persona (with_work error None))
                   (activeAgents (orchestrator sys)) roster))
      sys in
  let sys := set_orchestrator (set_activeAgents (fun _ => [])) sys in
  (* clean up all contexts *)
  match ContextManager.emergencyCleanup now (contextManager sys) with
  | (Err e, ctx) => (Thrown (Failure.Sentra e), set_contextManager ctx sys)
  | (Ok _, ctx) =>
      (Done tt,
       emitLifecycle (orchestrator_emergency_stopped now)
         (set_contextManager ctx sys))
  end.

(** *** What the execution properties speak of *)

(** the system as the constructors leave it *)
Definition initialSystem (getSpecializations : PersonaType -> list string)
    (now : Z) : System :=
  mkSystem (initialState getSpecializations now) ContextManager.initialState
    TaskExecutor.initialState [].

(** an agent at work on [task] with [usage] of context, and an agent
    that has been stopped *)
Definition engaged (task : Task.t) (usage : Q) (agent : Agent.t) : Agent.t :=
  with_contextUsage usage (with_work working (Some task) agent).

Definition released (agent : Agent.t) : Agent.t :=
  with_contextUsage 0 (with_work idle None agent).

(** the agent of [persona] is there and is not idle *)
Definition busy (sys : System) (task : Task.t) : Prop :=
  exists persona agent,
    Task.assignedAgent task = Some persona /\
    agents_get (agents (orchestrator sys)) persona = Some agent /\
    Agent.status agent <> idle.

(** the system with [queue] for its queue *)
Definition withQueue (queue : list Task.t) (sys : System) : System :=
  set_orchestrator (set_taskQueue (fun _ => queue)) sys.

(** the agent of [persona] is in the roster *)
Definition enrolled (sys : System) (persona : PersonaType) : bool :=
  match agents_get (agents (orchestrator sys)) persona with
  | Some _ => true
  | None => false
  end.

(** [p] is at least as urgent as [q]: critical comes before high, high
    before medium, medium before low *)
Definition atLeastAsUrgent (p q : Priority.t) : Prop :=
  match p, q with
  | Priority.critical, _ => True
  | Priority.high, Priority.critical => False
  | Priority.high, _ => True
  | Priority.medium, (Priority.critical | Priority.high) => False
  | Priority.medium, _ => True
  | Priority.low, Priority.low => True
  | Priority.low, _ => False
  end.

(** a queue from the most urgent to the least: no task comes before a
    task that is more urgent *)
Definition byPriority (queue : list Task.t) : Prop :=
  StronglySorted
    (fun a b => atLeastAsUrgent (Task.priority a) (Task.priority b))
    queue.

(** collaborators for whom every piece of work succeeds *)
Definition diligent : TaskExecutor.Collaborators :=
  TaskExecutor.mkCollaborators
    (fun task _ => TaskExecutor.Finished "{}" [])
    (fun _ _ => None)
    (fun _ _ => None).

(** *** A system at work

    [start] has set the running flag.  The technical writer holds a file
    in its window and has been started on a task; five tasks of the QA
    engineer wait in the queue, in the order in which they were
    assigned. *)
Definition taskOf (id : string) (priority : Priority.t)
    (persona : PersonaType) : Task.t :=
  Task.mk (Some id) None (Some id) "" task_pending priority (Some persona)
    [] 10 [] 0 0 None.

Definition sampleQueue : list Task.t :=
  [taskOf "t1" Priority.low qa_engineer;
   taskOf "t2" Priority.critical qa_engineer;
   taskOf "t3" Priority.medium qa_engineer;
   taskOf "t4" Priority.critical qa_engineer;
   taskOf "t5" Priority.high qa_engineer].

Definition sampleAtWork : System :=
  withQueue sampleQueue
    (snd (startAgent technical_writer
            (taskOf "t0" Priority.high technical_writer)
            (set_contextManager
               (ContextManager.calls
                  [ContextManager.AddContext 1 technical_writer
                     ContextManager.smallFile]
                  ContextManager.initialState)
               (set_orchestrator (set_isRunning true)
                  (initialSystem sampleSpecializations 0))))).

End AgentOrchestrator.

(** * Properties *)

(** ** The monad *)

Lemma bind_Ok {S A B} (m : M S A) (k : A -> M S B) s a s' :
  m s = (Ok a, s') -> bind m k s = k a s'.
Proof. unfold bind. intros ->. reflexivity. Qed.

Lemma bind_Err {S A B} (m : M S A) (k : A -> M S B) s e s' :
  m s = (Err e, s') -> bind m k s = (Err e, s').
Proof. unfold bind. intros ->. reflexivity. Qed.

Lemma bind_gets {S A B} (f : S -> A) (k : A -> M S B) s :
  bind (gets f) k s = k (f s) s.
Proof. reflexivity. Qed.

Lemma bind_modify {S B} (f : S -> S) (k : unit -> M S B) s :
  bind (modify f) k s = k tt (f s).
Proof. reflexivity. Qed.

Lemma bind_assoc {S A B C} (m : M S A) (f : A -> M S B) (g : B -> M S C) s :
  bind (bind m f) g s = bind m (fun x => bind (f x) g) s.
Proof. unfold bind. destruct (m s) as [[a|e] s']; reflexivity. Qed.

Lemma bind_guarded {S C} (m : M S bool) (a : M S unit) (k : M S C) s :
  (do b <- m; do_ (if b : bool then a else ret tt); k) s =
  (do_ (do b <- m; if b : bool then a else ret tt); k) s.
Proof. symmetry. apply bind_assoc. Qed.

(** ** The approval gate *)

Module PermissionManagerFacts.
Import Regex PermissionManager.

(** *** The score accumulated by the loop over the rules *)

Lemma getRiskScore_pos l : 10 <= getRiskScore l.
Proof. destruct l; simpl; lia. Qed.

Lemma matchedScore_nonneg command rules : 0 <= matchedScore command rules.
Proof.
  induction rules as [|rule rules IH]; simpl; [lia|].
  destruct (test _ _); [|exact IH].
  pose proof (getRiskScore_pos (PermissionRule.riskLevel rule)). lia.
Qed.

Lemma matchedScore_ge command rules rule :
  In rule rules -> test (PermissionRule.pattern rule) command = true ->
  getRiskScore (PermissionRule.riskLevel rule) <= matchedScore command rules.
Proof.
  induction rules as [|r rules IH]; simpl; [tauto|].
  intros [->|Hin] Hm.
  - rewrite Hm. pose proof (matchedScore_nonneg command rules). lia.
  - specialize (IH Hin Hm).
    destruct (test (PermissionRule.pattern r) command); [|exact IH].
    pose proof (getRiskScore_pos (PermissionRule.riskLevel r)). lia.
Qed.

Lemma fold_assessRule_score command rules acc :
  fst (fst (fold_left (assessRule command) rules acc)) =
  fst (fst acc) + matchedScore command rules.
Proof.
  revert acc. induction rules as [|rule rules IH]; intros [[score factors] level].
  - simpl. lia.
  - simpl fold_left. rewrite IH. unfold assessRule. simpl matchedScore.
    destruct (test _ _); simpl; lia.
Qed.

Lemma assessRule_lowBelow20 command acc rule :
  lowBelow20 acc -> lowBelow20 (assessRule command acc rule).
Proof.
  destruct acc as [[score factors] level]. unfold lowBelow20, assessRule.
  simpl. intros [Hs Hl]. destruct (test _ _); simpl; [|tauto].
  pose proof (getRiskScore_pos (PermissionRule.riskLevel rule)) as Hr.
  split; [lia|]. intros Hlt. rewrite Hl by lia.
  destruct (PermissionRule.riskLevel rule); simpl in *; try lia; reflexivity.
Qed.

Lemma fold_assessRule_lowBelow20 command rules acc :
  lowBelow20 acc -> lowBelow20 (fold_left (assessRule command) rules acc).
Proof.
  revert acc. induction rules as [|rule rules IH]; intros acc H; simpl.
  - exact H.
  - apply IH, assessRule_lowBelow20, H.
Qed.

(** [assessRisk], as a function of what the loop returns *)
Lemma assessRisk_score rules command context :
  RiskAssessment.score (assessRisk rules command context) =
  matchedScore command rules
  + (if includes context "production" || includes context "prod"
     then 30 else 0)
  + (if includes context "database" || includes context "db" then 20 else 0)
  + (if includes command "sudo" || includes command "root" then 25 else 0).
Proof.
  unfold assessRisk.
  pose proof (fold_assessRule_score command rules (0, [], low)) as Hs.
  destruct (fold_left _ _ _) as [[score factors] level]. simpl in Hs.
  destruct (includes context "production" || includes context "prod");
    destruct (includes context "database" || includes context "db");
    destruct (includes command "sudo" || includes command "root");
    simpl; lia.
Qed.

Lemma assessRisk_scoreLevel rules command context :
  RiskAssessment.level (assessRisk rules command context) =
  scoreLevel (RiskAssessment.score (assessRisk rules command context)).
Proof.
  unfold assessRisk.
  assert (Hl : lowBelow20 (fold_left (assessRule command) rules (0, [], low))).
  { apply fold_assessRule_lowBelow20. split; simpl; [lia|reflexivity]. }
  destruct (fold_left _ _ _) as [[score factors] level].
  unfold lowBelow20 in Hl. simpl in Hl. destruct Hl as [Hs Hl].
  unfold scoreLevel.
  destruct (includes context "production" || includes context "prod");
    destruct (includes context "database" || includes context "db");
    destruct (includes command "sudo" || includes command "root");
    simpl;
    repeat match goal with
           | |- context [?a <=? ?b] => destruct (Z.leb_spec a b)
           end; try reflexivity; try lia; apply Hl; lia.
Qed.

Lemma scoreLevel_ge level score :
  getRiskScore level <= score ->
  getRiskScore level <= getRiskScore (scoreLevel score).
Proof.
  unfold scoreLevel. intros H.
  repeat match goal with
         | |- context [?a <=? ?b] => destruct (Z.leb_spec a b)
         end; destruct level; simpl in *; lia.
Qed.

Lemma assessRisk_score_ge rules command context :
  matchedScore command rules <=
  RiskAssessment.score (assessRisk rules command context).
Proof.
  rewrite assessRisk_score.
  destruct (includes context "production" || includes context "prod");
    destruct (includes context "database" || includes context "db");
    destruct (includes command "sudo" || includes command "root"); lia.
Qed.

Lemma firstMatchingRule_Some rules command rule :
  firstMatchingRule rules command = Some rule ->
  In rule rules /\ test (PermissionRule.pattern rule) command = true.
Proof.
  induction rules as [|r rules IH]; simpl; [discriminate|].
  destruct (test (PermissionRule.pattern r) command) eqn:Hm.
  - intros [= <-]. auto.
  - intros H. destruct (IH H). auto.
Qed.

(** no rule of the gate is of level [low] *)
Lemma initialPermissionRules_not_low rule :
  In rule initialPermissionRules ->
  30 <= getRiskScore (PermissionRule.riskLevel rule).
Proof.
  unfold initialPermissionRules. simpl.
  intros H. repeat (destruct H as [<-|H]; [simpl; lia|]). destruct H.
Qed.

Lemma low_requires_no_approval command context :
  RiskAssessment.level (assessRisk initialPermissionRules command context)
    = low ->
  requiresApproval initialPermissionRules command low = false.
Proof.
  intros Hlow. unfold requiresApproval.
  change (bool_decide (low = critical) || bool_decide (low = high))
    with false. cbv iota.
  destruct (firstMatchingRule initialPermissionRules command) as [rule|] eqn:Hf;
    [|reflexivity].
  exfalso. apply firstMatchingRule_Some in Hf as [Hin Hm].
  pose proof (initialPermissionRules_not_low rule Hin) as H30.
  pose proof (matchedScore_ge command _ rule Hin Hm) as Hge.
  pose proof (assessRisk_score_ge initialPermissionRules command context) as Hs.
  rewrite assessRisk_scoreLevel in Hlow. unfold scoreLevel in Hlow.
  repeat match type of Hlow with
         | context [?a <=? ?b] => destruct (Z.leb_spec a b)
         end; try discriminate; lia.
Qed.

(** *** Claims *)

(** C3 (as amended).  For every rule list, command and context, the level
    returned by [assessRisk] is the level derived from the score
    (at least 80 critical, at least 50 high, at least 20 medium, else low).
    No matching rule overrides it; but it is never below the level of a
    matching rule, and so a command that matches a critical rule is
    always assessed as critical. *)
Theorem assessRisk_level_from_score rules command context :
  let a := assessRisk rules command context in
  RiskAssessment.level a = scoreLevel (RiskAssessment.score a) /\
  (forall rule, In rule rules ->
     test (PermissionRule.pattern rule) command = true ->
     getRiskScore (PermissionRule.riskLevel rule)
       <= getRiskScore (RiskAssessment.level a)) /\
  (forall rule, In rule rules ->
     test (PermissionRule.pattern rule) command = true ->
     PermissionRule.riskLevel rule = critical ->
     RiskAssessment.level a = critical).
Proof.
  intros a. subst a.
  assert (Hge : forall rule, In rule rules ->
     test (PermissionRule.pattern rule) command = true ->
     getRiskScore (PermissionRule.riskLevel rule)
       <= getRiskScore
            (RiskAssessment.level (assessRisk rules command context))).
  { intros rule Hin Hm. rewrite assessRisk_scoreLevel.
    apply scoreLevel_ge.
    pose proof (matchedScore_ge command rules rule Hin Hm).
    pose proof (assessRisk_score_ge rules command context). lia. }
  split; [apply assessRisk_scoreLevel|]. split; [exact Hge|].
  intros rule Hin Hm Hc. specialize (Hge rule Hin Hm). rewrite Hc in Hge.
  destruct (RiskAssessment.level _); simpl in Hge; try lia; reflexivity.
Qed.

Lemma assessRisk_level_from_score_witness :
  RiskAssessment.level
    (assessRisk initialPermissionRules "rm -rf /" "production deployment")
  = critical.
Proof.
  refine (proj2 (proj2 (assessRisk_level_from_score initialPermissionRules
                          "rm -rf /" "production deployment"))
            (nth 0 initialPermissionRules
               (PermissionRule.mk Void low false 0 "")) _ _ _).
  - simpl. left. reflexivity.
  - vm_compute. reflexivity.
  - reflexivity.
Defined.

(** C3 (as stated) fails: the only rule that matches
    [npm install -g some-package] is of level medium, but in the context
    [production database] the score is 80 and the level returned is
    critical, not the level of the rule. *)
Lemma assessRisk_rule_level_does_not_win :
  let command := "npm install -g some-package" in
  let context := "production database" in
  highestMatchingLevel initialPermissionRules command = Some medium /\
  specifiedLevel initialPermissionRules command context = medium /\
  RiskAssessment.score (assessRisk initialPermissionRules command context)
    = 80 /\
  RiskAssessment.level (assessRisk initialPermissionRules command context)
    = critical /\
  RiskAssessment.level (assessRisk initialPermissionRules command context)
    <> specifiedLevel initialPermissionRules command context.
Proof.
  vm_compute. repeat split; discriminate.
Qed.

(** *** The cases of the test suite, and of the specification *)

Example assessRisk_safe_operation :
  RiskAssessment.level
    (assessRisk initialPermissionRules "ls -la" "development environment")
  = low.
Proof. vm_compute. reflexivity. Qed.

Example assessRisk_destructive_operation :
  let a := assessRisk initialPermissionRules "rm -rf /"
             "production environment" in
  RiskAssessment.level a = critical /\ RiskAssessment.score a = 130 /\
  RiskAssessment.factors a =
    ["Destructive file system operation"; "Production environment"].
Proof. vm_compute. auto. Qed.

Example assessRisk_database_operation :
  let a := assessRisk initialPermissionRules "DROP TABLE users"
             "database operation" in
  RiskAssessment.level a = critical /\
  RiskAssessment.factors a =
    ["Destructive database operation"; "Database operation"].
Proof. vm_compute. auto. Qed.

Example assessRisk_package_installation :
  let a := assessRisk initialPermissionRules "npm install -g some-package"
             "global package installation" in
  RiskAssessment.level a = medium /\
  RiskAssessment.factors a = ["Global package installation"].
Proof. vm_compute. auto. Qed.

Example requiresApproval_by_level :
  requiresApproval initialPermissionRules "ls -la" low = false /\
  requiresApproval initialPermissionRules "rm -rf *" high = true /\
  requiresApproval initialPermissionRules "DROP DATABASE" critical = true.
Proof. vm_compute. auto. Qed.

(** [rm -rf /] in the context [production deployment]: critical, approval
    required, a request with a timeout of 600000 ms *)
Example requestPermission_critical :
  let r := requestPermission 0 sampleId devops_engineer "rm -rf /"
             "production deployment" (initialState false false) in
  fst r = Ok (Waiting sampleId) /\
  timers (snd r) = [(sampleId, 600000)] /\
  (PermissionRequest.riskLevel <$> (snd <$> getPending (snd r) sampleId))
    = Some critical.
Proof. vm_compute. auto. Qed.

(** *** The stateful operations *)

Ltac run :=
  cbv [bind ret throw get gets modify emit delivered persistResponse
       persistRequest].

(** *** The notification services *)

Lemma reliable_tail a rest :
  forallb (fun answer : bool => answer) (a :: rest) = true ->
  a = true /\ forallb (fun answer : bool => answer) rest = true.
Proof. cbn. intros H. apply andb_true_iff in H. exact H. Qed.

(** a message to Twilio, when the service says that it is configured *)
Lemma twilio_notification k requestId s :
  let r := (do twilio <- TwilioIntegration.isConfigured;
            if twilio : bool then TwilioIntegration.sendSMS k requestId
            else ret tt) s in
  sameStore s (snd r) /\ emitted (snd r) = emitted s /\
  (exists d,
      sent (snd r) = sent s ++ d /\
      sublist d (if twilioConfigured s then [(sms, k, requestId)] else [])) /\
  match fst r with
  | Ok _ => True
  | Err e => channelError e = true /\ reliable s = false
  end /\
  (reliable s = true ->
   fst r = Ok tt /\ reliable (snd r) = true /\
   sent (snd r) =
     sent s ++ (if twilioConfigured s then [(sms, k, requestId)] else [])).
Proof.
  destruct s as [h p hi r d t e o tw pu net].
  unfold TwilioIntegration.sendSMS, TwilioIntegration.isConfigured,
    networkRequest, reliable, sameStore. run.
  destruct tw; cbn;
    [destruct net as [|[] [|[] [|[] net]]]; cbn|];
    (split; [repeat split|]); (split; [reflexivity|]);
    (split; [first [exists []; rewrite app_nil_r; split;
                      [reflexivity|apply sublist_nil_l]
                   |eexists; split; reflexivity]|]);
    (split; [auto|]); intros H; try discriminate H; rewrite ?app_nil_r; auto.
Qed.

(** a message to Pushover, when the service says that it is configured *)
Lemma pushover_notification k requestId s :
  let r := (do pushover <- PushoverIntegration.isConfigured;
            if pushover : bool
            then PushoverIntegration.sendNotification k requestId
            else ret tt) s in
  sameStore s (snd r) /\ emitted (snd r) = emitted s /\
  (exists d,
      sent (snd r) = sent s ++ d /\
      sublist d (if pushoverConfigured s then [(push, k, requestId)] else [])) /\
  match fst r with
  | Ok _ => True
  | Err e => channelError e = true /\ reliable s = false
  end /\
  (reliable s = true ->
   fst r = Ok tt /\ reliable (snd r) = true /\
   sent (snd r) =
     sent s ++ (if pushoverConfigured s then [(push, k, requestId)] else [])).
Proof.
  destruct s as [h p hi r d t e o tw pu net].
  unfold PushoverIntegration.sendNotification,
    PushoverIntegration.isConfigured,
    networkRequest, reliable, sameStore. run.
  destruct pu; cbn;
    [destruct net as [|[] [|[] [|[] net]]]; cbn|];
    (split; [repeat split|]); (split; [reflexivity|]);
    (split; [first [exists []; rewrite app_nil_r; split;
                      [reflexivity|apply sublist_nil_l]
                   |eexists; split; reflexivity]|]);
    (split; [auto|]); intros H; try discriminate H; rewrite ?app_nil_r; auto.
Qed.

(** the notifications of a request or of a response: a message to each
    service that says it is configured, then the event for the dashboard.
    The first service that throws ends them. *)
Lemma notifications_spec k requestId e s :
  let r := (do twilio <- TwilioIntegration.isConfigured;
            do_ (if twilio : bool then TwilioIntegration.sendSMS k requestId
                 else ret tt);
            do pushover <- PushoverIntegration.isConfigured;
            do_ (if pushover : bool
                 then PushoverIntegration.sendNotification k requestId
                 else ret tt);
            emit e) s in
  sameStore s (snd r) /\
  (exists d,
      sent (snd r) = sent s ++ d /\
      sublist d (channelsNotified k requestId s)) /\
  match fst r with
  | Ok _ => emitted (snd r) = emitted s ++ [e]
  | Err err =>
      channelError err = true /\ emitted (snd r) = emitted s /\
      reliable s = false
  end /\
  (reliable s = true ->
   fst r = Ok tt /\
   sent (snd r) = sent s ++ channelsNotified k requestId s).
Proof.
  intros r.
  pose proof (twilio_notification k requestId s) as Ht. cbv zeta in Ht.
  destruct ((do twilio <- TwilioIntegration.isConfigured;
             if twilio : bool then TwilioIntegration.sendSMS k requestId
             else ret tt) s) as [[[]|err] s1] eqn:E1; cbn [fst snd] in Ht;
    destruct Ht as (Hs1 & He1 & (d1 & Hd1 & Hsub1) & Hr1 & Hrel1).
  - pose proof (pushover_notification k requestId s1) as Hp. cbv zeta in Hp.
    destruct ((do pushover <- PushoverIntegration.isConfigured;
               if pushover : bool
               then PushoverIntegration.sendNotification k requestId
               else ret tt) s1) as [[[]|err] s2] eqn:E2;
      cbn [fst snd] in Hp;
      destruct Hp as (Hs2 & He2 & (d2 & Hd2 & Hsub2) & Hr2 & Hrel2);
      destruct Hs1 as (? & ? & ? & ? & ? & ? & Htw & Hpu);
      destruct Hs2 as (? & ? & ? & ? & ? & ? & ? & ?);
      rewrite Hpu in Hsub2, Hrel2.
    + assert (Hr : r = (Ok tt, set_emitted (fun l => l ++ [e]) s2)).
      { subst r. rewrite bind_guarded, (bind_Ok _ _ _ _ _ E1).
        rewrite bind_guarded, (bind_Ok _ _ _ _ _ E2). reflexivity. }
      rewrite Hr. cbn [fst snd].
      split; [unfold sameStore; cbn; repeat split; congruence|].
      split.
      { exists (d1 ++ d2). cbn. rewrite Hd2, Hd1, app_assoc.
        split; [reflexivity|]. apply sublist_app; assumption. }
      split; [cbn; congruence|].
      intros Hrel. destruct (Hrel1 Hrel) as (_ & Hrel' & Hsent1).
      destruct (Hrel2 Hrel') as (_ & _ & Hsent2).
      split; [reflexivity|]. cbn. unfold channelsNotified.
      rewrite Hsent2, Hsent1, app_assoc. reflexivity.
    + assert (Hr : r = (Err err, s2)).
      { subst r. rewrite bind_guarded, (bind_Ok _ _ _ _ _ E1).
        rewrite bind_guarded, (bind_Err _ _ _ _ _ E2). reflexivity. }
      rewrite Hr. cbn [fst snd].
      destruct Hr2 as [Herr Hunrel].
      split; [unfold sameStore; repeat split; congruence|].
      split.
      { exists (d1 ++ d2). rewrite Hd2, Hd1, app_assoc.
        split; [reflexivity|]. apply sublist_app; assumption. }
      assert (Hno : reliable s = false).
      { destruct (reliable s) eqn:Hrel; [|reflexivity].
        destruct (Hrel1 eq_refl) as (_ & Hrel' & _). congruence. }
      split; [split; [exact Herr|split; [congruence|exact Hno]]|].
      rewrite Hno. discriminate.
  - assert (Hr : r = (Err err, s1)).
    { subst r. rewrite bind_guarded, (bind_Err _ _ _ _ _ E1). reflexivity. }
    rewrite Hr. cbn [fst snd].
    destruct Hr1 as [Herr Hno].
    split; [exact Hs1|]. split.
    { exists d1. split; [exact Hd1|]. unfold channelsNotified.
      apply sublist_inserts_r, Hsub1. }
    split; [auto|]. rewrite Hno. discriminate.
Qed.

Lemma sendApprovalNotifications_spec now l request riskAssessment s :
  let r := sendApprovalNotifications now l request riskAssessment s in
  sameStore s (snd r) /\
  (exists d,
      sent (snd r) = sent s ++ d /\
      sublist d (channelsNotified approval_request
                   (PermissionRequest.id request) s)) /\
  match fst r with
  | Ok _ =>
      emitted (snd r) =
        emitted s ++ [dashboard_permission_request l riskAssessment now]
  | Err err =>
      channelError err = true /\ emitted (snd r) = emitted s /\
      reliable s = false
  end /\
  (reliable s = true ->
   fst r = Ok tt /\
   sent (snd r) =
     sent s ++ channelsNotified approval_request
                 (PermissionRequest.id request) s).
Proof.
  exact (notifications_spec approval_request (PermissionRequest.id request)
           (dashboard_permission_request l riskAssessment now) s).
Qed.

Lemma sendConfirmationNotification_spec now l request response s :
  let r := sendConfirmationNotification now l request response s in
  sameStore s (snd r) /\
  (exists d,
      sent (snd r) = sent s ++ d /\
      sublist d (channelsNotified confirmation
                   (PermissionRequest.id request) s)) /\
  match fst r with
  | Ok _ =>
      emitted (snd r) =
        emitted s ++ [dashboard_permission_response l response now]
  | Err err =>
      channelError err = true /\ emitted (snd r) = emitted s /\
      reliable s = false
  end /\
  (reliable s = true ->
   fst r = Ok tt /\
   sent (snd r) =
     sent s ++ channelsNotified confirmation
                 (PermissionRequest.id request) s).
Proof.
  exact (notifications_spec confirmation (PermissionRequest.id request)
           (dashboard_permission_response l response now) s).
Qed.

(** *** Responses *)

Lemma getPending_None_respond now requestId approved reason respondedBy s :
  getPending s requestId = None ->
  respondToRequest now requestId approved reason respondedBy s =
  (Err (REQUEST_NOT_FOUND requestId), s).
Proof. intros H. unfold respondToRequest. run. rewrite H. reflexivity. Qed.

Lemma getPending_absent s requestId :
  pendingRequests s !! requestId = None -> getPending s requestId = None.
Proof. intros H. unfold getPending. rewrite H. reflexivity. Qed.

Lemma getPending_resolved now requestId approved reason respondedBy s l
    request :
  getPending s requestId = Some (l, request) ->
  PermissionRequest.status request <> pending ->
  respondToRequest now requestId approved reason respondedBy s =
  (Err (REQUEST_ALREADY_RESOLVED requestId), s).
Proof.
  intros Hget Hst. unfold respondToRequest. run. rewrite Hget.
  rewrite bool_decide_eq_false_2 by exact Hst. reflexivity.
Qed.

(** a response to a pending request: the request is resolved and filed,
    and the confirmation is the last thing done *)
Lemma respondToRequest_pending now requestId approved reason respondedBy s l
    request :
  getPending s requestId = Some (l, request) ->
  PermissionRequest.status request = pending ->
  let response :=
    PermissionResponse.mk approved now reason (default "user" respondedBy) in
  let request' :=
    PermissionRequest.resolve (if approved then approved_ else denied)
      response request in
  respondToRequest now requestId approved reason respondedBy s =
  sendConfirmationNotification now l request' response
    (set_emitted
       (fun e => e ++ [(if approved then permission_approved
                        else permission_denied)
                         requestId (PermissionRequest.agent request')
                         (PermissionRequest.riskLevel request') now])
       (set_disk (insert (requestId +:+ "-response.json")
                         (response_json response))
          (set_pendingRequests (delete requestId)
             (set_permissionHistory (insert requestId response)
                (set_heap (insert l request') s))))).
Proof.
  intros Hget Hst response request'.
  unfold respondToRequest. run. rewrite Hget, Hst.
  rewrite bool_decide_eq_true_2 by reflexivity. reflexivity.
Qed.

Lemma respondToRequest_pending_spec now requestId approved reason respondedBy
    s l request :
  getPending s requestId = Some (l, request) ->
  PermissionRequest.status request = pending ->
  let response :=
    PermissionResponse.mk approved now reason (default "user" respondedBy) in
  let r := respondToRequest now requestId approved reason respondedBy s in
  heap (snd r) =
    <[l := PermissionRequest.resolve
             (if approved then approved_ else denied) response request]>
      (heap s) /\
  pendingRequests (snd r) = delete requestId (pendingRequests s) /\
  permissionHistory (snd r) = <[requestId := response]> (permissionHistory s)
  /\
  disk (snd r) =
    <[requestId +:+ "-response.json" := response_json response]> (disk s) /\
  timers (snd r) = timers s /\
  (exists d,
      sent (snd r) = sent s ++ d /\
      sublist d (channelsNotified confirmation
                   (PermissionRequest.id request) s)) /\
  match fst r with
  | Ok _ => True
  | Err e => channelError e = true /\ reliable s = false
  end /\
  (reliable s = true ->
   fst r = Ok tt /\
   sent (snd r) =
     sent s ++ channelsNotified confirmation (PermissionRequest.id request) s).
Proof.
  intros Hget Hst response r. subst r.
  rewrite (respondToRequest_pending now requestId approved reason respondedBy
             s l request Hget Hst).
  match goal with
  | |- context [sendConfirmationNotification ?n ?l ?r ?p ?st] =>
      pose proof (sendConfirmationNotification_spec n l r p st) as H;
      cbv zeta in H;
      destruct (sendConfirmationNotification n l r p st) as [res s']
  end.
  cbn [fst snd] in *.
  destruct H as ((Hh & Hp & Hhi & _ & Hd & Ht & _ & _) & Hsent & Hres & Hrel).
  rewrite Hh, Hp, Hhi, Hd, Ht.
  do 5 (split; [reflexivity|]).
  split; [exact Hsent|]. split; [|exact Hrel].
  destruct res as [[]|e]; [exact I|]. destruct Hres as (? & _ & ?). auto.
Qed.

(** a successful response removes the request from the pending map and
    files the response *)
Lemma respondToRequest_Ok now requestId approved reason respondedBy s s' :
  respondToRequest now requestId approved reason respondedBy s = (Ok tt, s') ->
  pendingRequests s' !! requestId = None /\
  permissionHistory s' !! requestId =
    Some (PermissionResponse.mk approved now reason
            (default "user" respondedBy)).
Proof.
  intros H.
  destruct (getPending s requestId) as [[l request]|] eqn:Hget;
    [|rewrite getPending_None_respond in H by exact Hget; discriminate].
  destruct (decide (PermissionRequest.status request = pending)) as [Hst|Hst];
    [|rewrite (getPending_resolved _ _ _ _ _ _ _ _ Hget Hst) in H;
      discriminate].
  destruct (respondToRequest_pending_spec now requestId approved reason
              respondedBy s l request Hget Hst)
    as (_ & Hp & Hh & _).
  rewrite H in Hp, Hh. cbn [snd] in Hp, Hh. rewrite Hp, Hh.
  split; [apply lookup_delete_eq | apply lookup_insert_eq].
Qed.

(** an error of [respondToRequest] that is not the error of a service
    leaves the state as it was *)
Lemma respondToRequest_Err now requestId approved reason respondedBy s e s' :
  respondToRequest now requestId approved reason respondedBy s = (Err e, s') ->
  channelError e = false ->
  s' = s.
Proof.
  intros H He.
  destruct (getPending s requestId) as [[l request]|] eqn:Hget;
    [|rewrite getPending_None_respond in H by exact Hget; congruence].
  destruct (decide (PermissionRequest.status request = pending)) as [Hst|Hst];
    [|rewrite (getPending_resolved _ _ _ _ _ _ _ _ Hget Hst) in H;
      congruence].
  destruct (respondToRequest_pending_spec now requestId approved reason
              respondedBy s l request Hget Hst)
    as (_ & _ & _ & _ & _ & _ & Hres & _).
  rewrite H in Hres. cbn [fst] in Hres. destruct Hres. congruence.
Qed.

(** what the second of two responses to one request meets *)
Lemma respondToRequest_twice now requestId approved reason respondedBy s s'
    now' approved' reason' respondedBy' :
  respondToRequest now requestId approved reason respondedBy s = (Ok tt, s') ->
  respondToRequest now' requestId approved' reason' respondedBy' s' =
  (Err (REQUEST_NOT_FOUND requestId), s').
Proof.
  intros H. apply respondToRequest_Ok in H as [H _].
  apply getPending_None_respond, getPending_absent, H.
Qed.

(** what [cancelRequest] does to a pending request *)
Lemma cancelRequest_pending now requestId reason s l request :
  getPending s requestId = Some (l, request) ->
  let response :=
    PermissionResponse.mk false now
      (Some (default "Cancelled by user" reason)) "system" in
  exists s',
    cancelRequest now requestId reason s = (Ok tt, s') /\
    heap s' = <[l := PermissionRequest.resolve expired response request]>
                (heap s) /\
    pendingRequests s' = delete requestId (pendingRequests s) /\
    permissionHistory s' = <[requestId := response]> (permissionHistory s).
Proof.
  intros H response. unfold cancelRequest. run. rewrite H. cbn.
  eexists. split; [reflexivity|]. cbn. auto.
Qed.

(** once the timer of a request has fired the request is not pending *)
Lemma requestTimeoutCallback_not_pending now requestId s :
  getPending (snd (requestTimeoutCallback now requestId s)) requestId = None.
Proof.
  unfold requestTimeoutCallback. run.
  destruct (getPending s requestId) as [[l request]|] eqn:H.
  - rewrite bool_decide_eq_true_2 by eauto.
    destruct (cancelRequest_pending now requestId (Some "Request timeout")
                s l request H) as (s' & -> & _ & Hp & _).
    cbn. apply getPending_absent. rewrite Hp. apply lookup_delete_eq.
  - rewrite bool_decide_eq_false_2 by (intros [? ?]; discriminate).
    exact H.
Qed.

Lemma respond_after_timeout now requestId s now' approved reason respondedBy :
  let s' := snd (requestTimeoutCallback now requestId s) in
  respondToRequest now' requestId approved reason respondedBy s' =
  (Err (REQUEST_NOT_FOUND requestId), s').
Proof.
  intros s'. apply getPending_None_respond.
  apply requestTimeoutCallback_not_pending.
Qed.

(** the timer of a request that is still in the pending map: the request
    object takes the status [expired], the request leaves the map, and
    the next poll of the waiter rejects its promise with a denial whose
    reason is "Request timeout" *)
Lemma requestTimeoutCallback_expires now requestId s l request :
  getPending s requestId = Some (l, request) ->
  let s' := snd (requestTimeoutCallback now requestId s) in
  fst (requestTimeoutCallback now requestId s) = Ok tt /\
  (exists request',
      heap s' !! l = Some request' /\
      PermissionRequest.status request' = expired /\
      PermissionRequest.id request' = PermissionRequest.id request) /\
  pendingRequests s' !! requestId = None /\
  checkResponse requestId s' =
    Some (Err (PERMISSION_DENIED
                 ("Permission denied for request " +:+ requestId)
                 (Some "Request timeout"))).
Proof.
  intros H s'. subst s'.
  unfold requestTimeoutCallback. run.
  rewrite H. rewrite bool_decide_eq_true_2 by eauto.
  destruct (cancelRequest_pending now requestId (Some "Request timeout")
              s l request H) as (s' & -> & Hh & Hp & Hr).
  cbn [fst snd].
  split; [reflexivity|]. split.
  { eexists. rewrite Hh, lookup_insert_eq. split; [reflexivity|].
    split; reflexivity. }
  split; [rewrite Hp; apply lookup_delete_eq|].
  unfold checkResponse. rewrite Hr, lookup_insert_eq. reflexivity.
Qed.

(** *** Requests *)

(** a request that needs approval: the request is stored and written to
    disk; then come the notifications, the timer and the event, in that
    order *)
Lemma requestPermission_pending now rid agent command context s :
  let riskAssessment := assessRisk (permissionRules s) command context in
  let request :=
    PermissionRequest.mk rid agent command context
      (RiskAssessment.level riskAssessment)
      (getTimeoutForRisk (RiskAssessment.level riskAssessment))
      now pending None in
  let l := fresh (dom (heap s)) in
  requiresApproval (permissionRules s) command
    (RiskAssessment.level riskAssessment) = true ->
  requestPermission now rid agent command context s =
  (do_ sendApprovalNotifications now l request riskAssessment;
   do_ setupRequestTimeout request;
   do_ emit (permission_requested rid agent
               (RiskAssessment.level riskAssessment) now);
   ret (Waiting rid))
    (set_disk (insert (rid +:+ ".json") (request_json request))
       (set_pendingRequests (insert rid l)
          (set_heap (insert l request) s))).
Proof.
  intros riskAssessment request l Hreq.
  unfold requestPermission. rewrite bind_gets. fold riskAssessment.
  rewrite Hreq. cbn [negb]. fold request. unfold alloc. fold l.
  reflexivity.
Qed.

Lemma requestPermission_pending_spec now rid agent command context s :
  let riskAssessment := assessRisk (permissionRules s) command context in
  let level := RiskAssessment.level riskAssessment in
  let request :=
    PermissionRequest.mk rid agent command context level
      (getTimeoutForRisk level) now pending None in
  let l := fresh (dom (heap s)) in
  requiresApproval (permissionRules s) command level = true ->
  let r := requestPermission now rid agent command context s in
  heap s !! l = None /\
  heap (snd r) = <[l := request]> (heap s) /\
  pendingRequests (snd r) = <[rid := l]> (pendingRequests s) /\
  permissionHistory (snd r) = permissionHistory s /\
  disk (snd r) = <[rid +:+ ".json" := request_json request]> (disk s) /\
  (exists d,
      sent (snd r) = sent s ++ d /\
      sublist d (channelsNotified approval_request rid s)) /\
  match fst r with
  | Ok o =>
      o = Waiting rid /\
      timers (snd r) = timers s ++ [(rid, getTimeoutForRisk level)] /\
      emitted (snd r) =
        emitted s ++ [dashboard_permission_request l riskAssessment now;
                      permission_requested rid agent level now]
  | Err e =>
      channelError e = true /\ reliable s = false /\
      timers (snd r) = timers s /\ emitted (snd r) = emitted s
  end /\
  (reliable s = true ->
   fst r = Ok (Waiting rid) /\
   sent (snd r) = sent s ++ channelsNotified approval_request rid s).
Proof.
  intros riskAssessment level request l Hreq r. subst r.
  rewrite (requestPermission_pending now rid agent command context s Hreq).
  fold riskAssessment. fold level. fold request. fold l.
  match goal with
  | |- context [bind (sendApprovalNotifications ?n ?l ?r ?a) ?k ?st] =>
      pose proof (sendApprovalNotifications_spec n l r a st) as H;
      cbv zeta in H;
      destruct (sendApprovalNotifications n l r a st) as [[[]|e] s'] eqn:E;
      [rewrite (bind_Ok _ _ _ _ _ E) | rewrite (bind_Err _ _ _ _ _ E)]
  end; clear E; cbn [fst snd] in *; unfold reliable, channelsNotified in *;
    cbn [network twilioConfigured pushoverConfigured sent set_disk
         set_pendingRequests set_heap PermissionRequest.id] in H;
    destruct H as ((Hh & Hp & Hhi & _ & Hd & Ht & _ & _) & Hsent & Hres & Hrel).
  - unfold setupRequestTimeout, emit, modify, bind, ret. cbn.
    rewrite Hh, Hp, Hhi, Hd, Ht, Hres. cbn.
    split; [apply not_elem_of_dom, is_fresh|].
    do 4 (split; [reflexivity|]). split; [exact Hsent|].
    split; [|intros Hr; split; [reflexivity|apply Hrel, Hr]].
    split; [reflexivity|]. split; [reflexivity|].
    rewrite <- app_assoc. reflexivity.
  - rewrite Hh, Hp, Hhi, Hd, Ht. cbn.
    split; [apply not_elem_of_dom, is_fresh|].
    do 4 (split; [reflexivity|]). split; [exact Hsent|].
    destruct Hres as (He & Hem & Hno).
    split; [auto|]. rewrite Hno. discriminate.
Qed.

(** C1 (the code departs from it).  A request is resolved by a first
    response, or expires when its timer fires; a later response to it
    fails and leaves the recorded outcome as it was, but the error is
    REQUEST_NOT_FOUND, not REQUEST_ALREADY_RESOLVED: the first resolution
    has removed the request from the map in which the status is looked
    up. *)
Theorem late_response_is_not_found :
  fst (respondToRequest 2000 sampleId true (Some "Approved")
         (Some "dashboard-user") sampleRequested) = Ok tt /\
  respondToRequest 3000 sampleId false (Some "Too risky")
    (Some "dashboard-user") sampleApproved
  = (Err (REQUEST_NOT_FOUND sampleId), sampleApproved) /\
  fst (requestTimeoutCallback 601000 sampleId sampleRequested) = Ok tt /\
  respondToRequest 602000 sampleId true None None sampleExpired
  = (Err (REQUEST_NOT_FOUND sampleId), sampleExpired).
Proof.
  split; [vm_compute; reflexivity|].
  split; [apply getPending_None_respond; vm_compute; reflexivity|].
  split; [vm_compute; reflexivity|].
  apply getPending_None_respond. vm_compute. reflexivity.
Qed.

(** C5 (the code departs from it).  A request is expired by its timer:
    when the timer of the sample request fires, the request object takes
    the status [expired], the request leaves the pending map and the
    waiter is rejected with a denial whose reason is "Request timeout".
    But the timer is armed after the notifications, and an error of a
    notification service is not caught.  When neither service answers the
    check of its configuration, the services are passed over and the
    timer is armed all the same; when Twilio answers the checks and
    refuses the message, [requestPermission] rejects with
    TWILIO_REQUEST_FAILED once the request is in the pending map and on
    disk: no timer is armed for it, nothing is emitted, the request stays
    pending, and a poll for it finds nothing to settle. *)
Theorem failed_notification_leaves_request_pending :
  let request :=
    PermissionRequest.mk sampleId devops_engineer "rm -rf node_modules"
      "cleaning up dependencies" critical 600000 1000 pending None in
  (* the services answer *)
  (requestPermission 1000 sampleId devops_engineer "rm -rf node_modules"
     "cleaning up dependencies" (initialState true true)
   = (Ok (Waiting sampleId), sampleRequested) /\
   getPending sampleRequested sampleId = Some (1%positive, request) /\
   timers sampleRequested = [(sampleId, 600000)] /\
   sent sampleRequested =
     [(sms, approval_request, sampleId); (push, approval_request, sampleId)]
   /\
   requestTimeoutCallback 601000 sampleId sampleRequested
   = (Ok tt, sampleExpired) /\
   (PermissionRequest.status <$> heap sampleExpired !! 1%positive)
   = Some expired /\
   getPending sampleExpired sampleId = None /\
   checkResponse sampleId sampleExpired =
     Some (Err (PERMISSION_DENIED
                  ("Permission denied for request " +:+ sampleId)
                  (Some "Request timeout")))) /\
  (* neither service answers the check of its configuration *)
  (fst sampleSkipped = Ok (Waiting sampleId) /\
   getPending (snd sampleSkipped) sampleId = Some (1%positive, request) /\
   timers (snd sampleSkipped) = [(sampleId, 600000)] /\
   sent (snd sampleSkipped) = []) /\
  (* Twilio answers the checks and refuses the message *)
  (fst sampleUnannounced = Err TWILIO_REQUEST_FAILED /\
   getPending (snd sampleUnannounced) sampleId = Some (1%positive, request) /\
   disk (snd sampleUnannounced) !! (sampleId +:+ ".json")
   = Some (request_json request) /\
   timers (snd sampleUnannounced) = [] /\
   emitted (snd sampleUnannounced) = [] /\
   sent (snd sampleUnannounced) = [] /\
   checkResponse sampleId (snd sampleUnannounced) = None).
Proof.
  cbv zeta. split; [|split].
  - repeat (split; [vm_compute; reflexivity|]). vm_compute. reflexivity.
  - repeat (split; [vm_compute; reflexivity|]). vm_compute. reflexivity.
  - repeat (split; [vm_compute; reflexivity|]). vm_compute. reflexivity.
Qed.

(** C9.  An operation assessed at level low is approved at once: no
    approval is solicited, the state is left as it was, and the response
    is attributed to "system".  The command [npm test] in the context
    [running tests] is assessed at level low, and so approved. *)
Theorem low_risk_auto_approved :
  (forall now rid agent command context s,
     permissionRules s = initialPermissionRules ->
     RiskAssessment.level (assessRisk initialPermissionRules command context)
       = low ->
     requestPermission now rid agent command context s =
     (Ok (Resolved (PermissionResponse.mk true now
                      (Some "Auto-approved: low risk operation") "system")),
      s)) /\
  RiskAssessment.level
    (assessRisk initialPermissionRules "npm test" "running tests") = low /\
  (forall now rid agent s,
     permissionRules s = initialPermissionRules ->
     requestPermission now rid agent "npm test" "running tests" s =
     (Ok (Resolved (PermissionResponse.mk true now
                      (Some "Auto-approved: low risk operation") "system")),
      s)).
Proof.
  assert (H : forall now rid agent command context s,
     permissionRules s = initialPermissionRules ->
     RiskAssessment.level (assessRisk initialPermissionRules command context)
       = low ->
     requestPermission now rid agent command context s =
     (Ok (Resolved (PermissionResponse.mk true now
                      (Some "Auto-approved: low risk operation") "system")),
      s)).
  { intros now rid agent command context s Hrules Hlow.
    unfold requestPermission. run. rewrite Hrules, Hlow.
    rewrite (low_requires_no_approval command context Hlow). reflexivity. }
  split; [exact H|]. split; [vm_compute; reflexivity|].
  intros now rid agent s Hrules. apply H; [exact Hrules|].
  vm_compute. reflexivity.
Qed.

Lemma low_risk_auto_approved_witness :
  requestPermission 1000 sampleId qa_engineer "ls -la"
    "development environment" sampleRequested =
  (Ok (Resolved (PermissionResponse.mk true 1000
                   (Some "Auto-approved: low risk operation") "system")),
   sampleRequested).
Proof.
  apply (proj1 low_risk_auto_approved 1000 sampleId qa_engineer "ls -la"
           "development environment" sampleRequested).
  - reflexivity.
  - vm_compute. reflexivity.
Defined.

(** C10.  When approval is not required, [requestPermission] returns an
    approved response and the state it leaves is the state it found:
    nothing enters the pending map or the history, nothing is written to
    disk, no timer is armed, nothing is emitted or sent. *)
Theorem auto_approval_leaves_state now rid agent command context s :
  requiresApproval (permissionRules s) command
    (RiskAssessment.level (assessRisk (permissionRules s) command context))
    = false ->
  exists response,
    requestPermission now rid agent command context s
      = (Ok (Resolved response), s) /\
    PermissionResponse.approved response = true /\
    PermissionResponse.respondedBy response = "system".
Proof.
  intros H. unfold requestPermission. run. rewrite H. cbn.
  eexists. split; [reflexivity|]. split; reflexivity.
Qed.

Lemma auto_approval_leaves_state_witness :
  exists response,
    requestPermission 1000 sampleId frontend_developer "npm test"
      "running tests" sampleApproved
      = (Ok (Resolved response), sampleApproved) /\
    PermissionResponse.approved response = true /\
    PermissionResponse.respondedBy response = "system".
Proof.
  apply (auto_approval_leaves_state 1000 sampleId frontend_developer
           "npm test" "running tests" sampleApproved).
  vm_compute. reflexivity.
Defined.

End PermissionManagerFacts.

(** ** The stable sort *)

Section StableSortFacts.
Context {A : Type} (key : A -> Z).

Lemma insert_by_Permutation x l : Permutation (x :: l) (insert_by key x l).
Proof.
  induction l as [|y l IH]; simpl; [reflexivity|].
  destruct (key x <=? key y); [reflexivity|].
  rewrite perm_swap. apply perm_skip, IH.
Qed.

Lemma sort_by_Permutation l : Permutation l (sort_by key l).
Proof.
  induction l as [|x l IH]; simpl; [reflexivity|].
  rewrite <- insert_by_Permutation. apply perm_skip, IH.
Qed.

Lemma insert_by_sorted x l :
  StronglySorted (keyLe key) l -> StronglySorted (keyLe key) (insert_by key x l).
Proof.
  induction 1 as [|y l Hs IH Hy]; simpl.
  - constructor; constructor.
  - destruct (Z.leb_spec (key x) (key y)).
    + constructor; [constructor; assumption|].
      constructor; [assumption|].
      eapply Forall_impl; [exact Hy|]. unfold keyLe. intros z Hz. simpl in *. lia.
    + constructor; [exact IH|].
      rewrite <- insert_by_Permutation. constructor; [unfold keyLe; lia|exact Hy].
Qed.

Lemma sort_by_sorted l : StronglySorted (keyLe key) (sort_by key l).
Proof.
  induction l as [|x l IH]; simpl; [constructor|].
  apply insert_by_sorted, IH.
Qed.

(** a front segment of a sorted list holds no key above the rest *)
Lemma sorted_app_le front back x y :
  StronglySorted (keyLe key) (front ++ back) ->
  In x front -> In y back -> key x <= key y.
Proof.
  induction front as [|z front IH]; simpl; [tauto|].
  intros Hs [->|Hx] Hy; inversion Hs as [|? ? Hs' Hall]; subst.
  - rewrite Forall_forall in Hall. apply Hall.
    apply list_elem_of_In, in_or_app. right. exact Hy.
  - apply IH; assumption.
Qed.

Lemma sorted_app_l front back :
  StronglySorted (keyLe key) (front ++ back) -> StronglySorted (keyLe key) front.
Proof.
  induction front as [|z front IH]; simpl; [constructor|].
  intros Hs. inversion Hs as [|? ? Hs' Hall]; subst.
  constructor; [apply IH, Hs'|]. apply Forall_app in Hall. apply Hall.
Qed.

Lemma head_insert_by x l :
  head (insert_by key x l) =
  match head l with
  | None => Some x
  | Some y => if key x <=? key y then Some x else Some y
  end.
Proof. destruct l as [|y l]; simpl; [reflexivity|]. destruct (_ <=? _); reflexivity. Qed.

Lemma head_sort_by l : head (sort_by key l) = firstLeast key l.
Proof.
  induction l as [|x l IH]; simpl; [reflexivity|].
  rewrite head_insert_by, IH. reflexivity.
Qed.

End StableSortFacts.

(** ** The resource ledger *)

Module ContextManagerFacts.
Import ContextManager.

Ltac run :=
  cbv [bind ret throw get gets modify emit updateTotalUsage
       persistContextState removePersistedState].

(** *** Numbers *)

Lemma getContextCapacity_pos persona : 0 < getContextCapacity persona.
Proof. destruct persona; vm_compute; reflexivity. Qed.

Lemma percentage_mono u1 u2 persona :
  u1 <= u2 -> (percentage u1 persona <= percentage u2 persona)%Q.
Proof.
  intros H. unfold percentage, Qdiv.
  apply Qmult_le_compat_r; [|discriminate].
  apply Qmult_le_compat_r; [rewrite <- Zle_Qle; exact H|].
  apply Qinv_le_0_compat. change 0%Q with (inject_Z 0).
  rewrite <- Zle_Qle. pose proof (getContextCapacity_pos persona). lia.
Qed.

Lemma Qgt_bool_false a b : Qgt_bool a b = false -> (a <= b)%Q.
Proof.
  unfold Qgt_bool. intros H. apply Qle_bool_iff.
  destruct (Qle_bool a b); [reflexivity|discriminate].
Qed.

Lemma Qgt_bool_true a b : Qgt_bool a b = true -> (b < a)%Q.
Proof.
  unfold Qgt_bool. intros H. apply Qnot_le_lt. intros Hle.
  apply Qle_bool_iff in Hle. rewrite Hle in H. discriminate.
Qed.

Lemma Math_round_nonneg x : (0 <= x)%Q -> 0 <= Math_round x.
Proof.
  intros H. unfold Math_round. change 0 with (Qfloor 0).
  apply Qfloor_resp_le.
  apply Qle_trans with x; [exact H|].
  rewrite <- (Qplus_0_r x) at 1. apply Qplus_le_r. discriminate.
Qed.

Lemma quarter_length_nonneg s : (0 <= inject_Z (str_length s) / 4)%Q.
Proof.
  unfold Qdiv. apply Qmult_le_0_compat; [|discriminate].
  change 0%Q with (inject_Z 0). rewrite <- Zle_Qle. unfold str_length. lia.
Qed.

Lemma calculateItemSize_nonneg item : 0 <= calculateItemSize item.
Proof.
  unfold calculateItemSize. apply Math_round_nonneg.
  pose proof (quarter_length_nonneg (ContextItem.path item)) as Hp.
  assert (H0 : (0 <= 0 + inject_Z (str_length (ContextItem.path item)) / 4)%Q)
    by (rewrite Qplus_0_l; exact Hp).
  destruct (ContextItem.content item) as [[|c rest]|].
  - apply Qle_trans with (0 + 0)%Q; [discriminate|].
    apply Qplus_le_compat; [exact H0|].
    change 0%Q with (inject_Z 0). rewrite <- Zle_Qle.
    destruct (ContextItem.type item); simpl; lia.
  - apply Qle_trans with (0 + 0)%Q; [discriminate|].
    apply Qplus_le_compat; [exact H0|]. apply quarter_length_nonneg.
  - apply Qle_trans with (0 + 0)%Q; [discriminate|].
    apply Qplus_le_compat; [exact H0|].
    change 0%Q with (inject_Z 0). rewrite <- Zle_Qle.
    destruct (ContextItem.type item); simpl; lia.
Qed.

(** *** Lists of items *)

Lemma removeFirst_Some itemPath items removed rest :
  removeFirst itemPath items = Some (removed, rest) ->
  exists front back,
    items = front ++ removed :: back /\ rest = front ++ back /\
    ContextItem.path removed = itemPath /\
    Forall (fun item => ContextItem.path item <> itemPath) front.
Proof.
  revert removed rest. induction items as [|item items IH]; simpl;
    intros removed rest; [discriminate|].
  case_bool_decide as Hp.
  - intros [= <- <-]. exists [], items. auto.
  - destruct (removeFirst itemPath items) as [[x r]|]; [|discriminate].
    intros [= <- <-]. destruct (IH x r eq_refl) as (front & back & -> & -> & ? & ?).
    exists (item :: front), back. auto.
Qed.

Lemma removeFirst_None itemPath items :
  removeFirst itemPath items = None ->
  Forall (fun item => ContextItem.path item <> itemPath) items.
Proof.
  induction items as [|item items IH]; simpl; [constructor|].
  case_bool_decide as Hp; [discriminate|].
  destruct (removeFirst itemPath items) as [[x r]|]; [discriminate|].
  intros _. constructor; auto.
Qed.

Lemma removePath_sublist itemPath items :
  sublist (removePath itemPath items) items.
Proof.
  unfold removePath.
  destruct (removeFirst itemPath items) as [[x rest]|] eqn:H; [|reflexivity].
  apply removeFirst_Some in H as (front & back & -> & -> & _).
  apply sublist_app; [reflexivity|]. apply sublist_cons. reflexivity.
Qed.

Lemma nonnegSizes_sublist l1 l2 :
  sublist l1 l2 -> nonnegSizes l2 -> nonnegSizes l1.
Proof.
  unfold nonnegSizes. rewrite !Forall_forall. intros Hs H x Hx.
  apply H. eapply elem_of_sublist; eauto.
Qed.

Lemma removedSize_nonneg itemPath items :
  nonnegSizes items -> 0 <= removedSize itemPath items.
Proof.
  unfold removedSize, nonnegSizes. intros H.
  destruct (removeFirst itemPath items) as [[x rest]|] eqn:Hr; [|lia].
  apply removeFirst_Some in Hr as (front & back & -> & _).
  apply Forall_app in H as [_ H]. inversion H; assumption.
Qed.

Lemma removedTotal_nonneg paths items :
  nonnegSizes items -> 0 <= removedTotal paths items.
Proof.
  revert items. induction paths as [|p paths IH]; intros items H; simpl; [lia|].
  pose proof (removedSize_nonneg p items H).
  pose proof (IH (removePath p items)
                (nonnegSizes_sublist _ _ (removePath_sublist p items) H)).
  lia.
Qed.

Lemma fold_removePath_sublist paths items :
  sublist (fold_left (fun its p => removePath p its) paths items) items.
Proof.
  revert items. induction paths as [|p paths IH]; intros items; simpl.
  - reflexivity.
  - etransitivity; [apply IH|apply removePath_sublist].
Qed.

(** *** The effect of the operations *)

Lemma upd_same {V} (m : PersonaType -> V) p v : upd m p v p = v.
Proof. unfold upd. destruct (decide (p = p)); congruence. Qed.

Lemma upd_other {V} (m : PersonaType -> V) p v q : q <> p -> upd m p v q = m q.
Proof. unfold upd. intros H. destruct (decide (q = p)); congruence. Qed.

Lemma sameElsewhere_refl persona s : sameElsewhere persona s s.
Proof. split; auto. Qed.

Lemma sameElsewhere_trans persona s1 s2 s3 :
  sameElsewhere persona s1 s2 -> sameElsewhere persona s2 s3 ->
  sameElsewhere persona s1 s3.
Proof.
  intros [L1 W1] [L2 W2]. split; [congruence|].
  intros q Hq. rewrite W2, W1 by exact Hq. reflexivity.
Qed.

Lemma removeContext_effect now persona itemPath s :
  exists b s',
    removeContext now persona itemPath s = (Ok b, s') /\
    sameElsewhere persona s s' /\
    itemsOf s' persona = removePath itemPath (itemsOf s persona) /\
    usedBy s' persona =
      usedBy s persona - removedSize itemPath (itemsOf s persona).
Proof.
  unfold removeContext, removePath, removedSize, itemsOf, usedBy. run.
  destruct (removeFirst itemPath (ContextWindow.items (contextWindows s persona)))
    as [[removed rest]|].
  - eexists true, _. split; [reflexivity|]. cbn.
    rewrite !upd_same. cbn. split; [|split; reflexivity].
    split; [reflexivity|]. intros q Hq. cbn. apply upd_other, Hq.
  - exists false, s. split; [reflexivity|].
    split; [apply sameElsewhere_refl|]. split; [reflexivity|lia].
Qed.

(** the loop of removals of [performAutomaticCleanup] *)
Lemma removal_loop_effect now persona paths s :
  exists s',
    for_each paths
      (fun itemPath => do _ <- removeContext now persona itemPath; ret tt) s
      = (Ok tt, s') /\
    sameElsewhere persona s s' /\
    itemsOf s' persona =
      fold_left (fun its p => removePath p its) paths (itemsOf s persona) /\
    usedBy s' persona =
      usedBy s persona - removedTotal paths (itemsOf s persona).
Proof.
  revert s. induction paths as [|p paths IH]; intros s; simpl.
  - exists s. split; [reflexivity|]. split; [apply sameElsewhere_refl|].
    split; [reflexivity|lia].
  - destruct (removeContext_effect now persona p s)
      as (b & s1 & Hr & He & Hi & Hu).
    destruct (IH s1) as (s2 & Hl & He2 & Hi2 & Hu2).
    exists s2. erewrite bind_Ok; [|erewrite bind_Ok; [reflexivity|exact Hr]].
    split; [exact Hl|]. split; [eapply sameElsewhere_trans; eauto|].
    rewrite Hi2, Hu2, Hi, Hu. split; [reflexivity|lia].
Qed.

Lemma performAutomaticCleanup_effect now persona requiredSpace s :
  exists s',
    performAutomaticCleanup now persona requiredSpace s = (Ok tt, s') /\
    sameElsewhere persona s s' /\
    itemsOf s' persona =
      fold_left (fun its p => removePath p its)
        (map ContextItem.path (evictedItems requiredSpace (itemsOf s persona)))
        (itemsOf s persona) /\
    usedBy s' persona =
      usedBy s persona -
      removedTotal
        (map ContextItem.path (evictedItems requiredSpace (itemsOf s persona)))
        (itemsOf s persona).
Proof.
  unfold performAutomaticCleanup, evictedItems, itemsOf.
  rewrite bind_gets.
  destruct (selectItems requiredSpace 0 _) as [chosen freedSpace] eqn:Hsel.
  cbn [fst].
  destruct (removal_loop_effect now persona (map ContextItem.path chosen) s)
    as (s' & Hl & He & Hi & Hu).
  erewrite bind_Ok by exact Hl. cbv [emit modify].
  eexists. split; [reflexivity|].
  unfold itemsOf, usedBy in *. cbn. rewrite Hi, Hu.
  split; [|split; reflexivity]. exact He.
Qed.

(** [addContext], branch by branch *)
Lemma addContext_eq now persona item s :
  let itemSize := calculateItemSize item in
  let item' := ContextItem.with_size itemSize item in
  let usagePercentage := percentage (usedBy s persona + itemSize) persona in
  let maxPercentage := ContextLimits.maxPercentage (limitsOf s) in
  addContext now persona item s =
  if Qgt_bool usagePercentage maxPercentage then
    let cleaned := snd (performAutomaticCleanup now persona itemSize s) in
    let updatedPercentage :=
      percentage (usedBy cleaned persona + itemSize) persona in
    if Qgt_bool updatedPercentage maxPercentage
    then (Err (CONTEXT_OVERFLOW updatedPercentage maxPercentage), cleaned)
    else (Ok tt, appended now persona item' usagePercentage cleaned)
  else (Ok tt, appended now persona item' usagePercentage s).
Proof.
  intros itemSize item' usagePercentage maxPercentage.
  unfold addContext. fold itemSize. fold item'.
  rewrite bind_gets. fold (usedBy s persona). fold usagePercentage.
  rewrite bind_gets. fold (limitsOf s). fold maxPercentage.
  destruct (Qgt_bool usagePercentage maxPercentage).
  - destruct (performAutomaticCleanup_effect now persona itemSize s)
      as (cleaned & Hc & [Hlim _] & _).
    rewrite Hc. cbn [snd].
    destruct (Qgt_bool (percentage (usedBy cleaned persona + itemSize) persona)
                maxPercentage) eqn:Hover.
    + erewrite bind_Err; [reflexivity|].
      erewrite bind_Ok by exact Hc. rewrite bind_gets.
      fold (usedBy cleaned persona). rewrite Hover. reflexivity.
    + erewrite bind_Ok;
        [|erewrite bind_Ok by exact Hc; rewrite bind_gets;
          fold (usedBy cleaned persona); rewrite Hover; reflexivity].
      unfold appended, limitsOf in *. run. cbn. rewrite Hlim.
      destruct (Qle_bool _ usagePercentage); reflexivity.
  - unfold appended, limitsOf. run. cbn.
    destruct (Qle_bool _ usagePercentage); reflexivity.
Qed.

Lemma appended_effect now persona item usagePercentage s :
  let s' := appended now persona item usagePercentage s in
  sameElsewhere persona s s' /\
  itemsOf s' persona = itemsOf s persona ++ [item] /\
  usedBy s' persona = usedBy s persona + ContextItem.size item /\
  recordedUsage s' persona = usagePercentage /\
  totalUsageOf s' = mean (map (recordedUsage s') personas).
Proof.
  unfold appended, itemsOf, usedBy, recordedUsage, totalUsageOf, limitsOf.
  run. cbn.
  destruct (Qle_bool _ usagePercentage); cbn; rewrite !upd_same; cbn;
    (split; [split; [reflexivity|intros q Hq; cbn; apply upd_other, Hq]|]);
    auto.
Qed.

(** *** The budget invariant *)

(** the overflow of the test suite: a file of 50000 characters for the
    technical writer *)
Example addContext_overflow :
  exists usage,
    fst (addContext 0 technical_writer
           (ContextItem.mk ContextItem.file "/test/huge-file.ts"
              (Some (repeat_string "x" (Z.to_nat 50000))) 0)
           initialState)
    = Err (CONTEXT_OVERFLOW usage 40).
Proof. eexists. vm_compute. reflexivity. Qed.

Lemma withinBudget_initialState : withinBudget initialState.
Proof.
  split; [reflexivity|]. intros persona. split.
  - destruct persona; vm_compute; discriminate.
  - constructor.
Qed.

(** a window that shrinks stays within the budget *)
Lemma withinBudget_shrink persona s s' :
  sameElsewhere persona s s' ->
  sublist (itemsOf s' persona) (itemsOf s persona) ->
  usedBy s' persona <= usedBy s persona ->
  withinBudget s -> withinBudget s'.
Proof.
  intros [Hlim Hw] Hsub Hle [Hl H]. split; [congruence|].
  intros q. rewrite Hlim. destruct (decide (q = persona)) as [->|Hq].
  - destruct (H persona) as [Hu Hn]. split.
    + eapply Qle_trans; [|exact Hu]. apply percentage_mono, Hle.
    + eapply nonnegSizes_sublist; eauto.
  - unfold usageOf, itemsOf. rewrite (Hw q Hq). apply H.
Qed.

Lemma withinBudget_removeContext now persona itemPath s :
  withinBudget s -> withinBudget (snd (removeContext now persona itemPath s)).
Proof.
  intros H. destruct (removeContext_effect now persona itemPath s)
    as (b & s' & -> & He & Hi & Hu). cbn [snd].
  apply (withinBudget_shrink persona s s' He); [| |exact H].
  - rewrite Hi. apply removePath_sublist.
  - pose proof (removedSize_nonneg itemPath _ (proj2 (proj2 H persona))). lia.
Qed.

Lemma withinBudget_cleanup now persona requiredSpace s :
  withinBudget s ->
  withinBudget (snd (performAutomaticCleanup now persona requiredSpace s)) /\
  sublist (itemsOf (snd (performAutomaticCleanup now persona requiredSpace s))
             persona)
          (itemsOf s persona).
Proof.
  intros H. destruct (performAutomaticCleanup_effect now persona requiredSpace s)
    as (s' & -> & He & Hi & Hu). cbn [snd].
  assert (Hsub : sublist (itemsOf s' persona) (itemsOf s persona))
    by (rewrite Hi; apply fold_removePath_sublist).
  split; [|exact Hsub].
  apply (withinBudget_shrink persona s s' He Hsub); [|exact H].
  pose proof (removedTotal_nonneg
    (map ContextItem.path (evictedItems requiredSpace (itemsOf s persona)))
    _ (proj2 (proj2 H persona))). lia.
Qed.

Lemma withinBudget_appended now persona item usagePercentage s :
  (percentage (usedBy s persona + ContextItem.size item) persona
     <= ContextLimits.maxPercentage (limitsOf s))%Q ->
  0 <= ContextItem.size item ->
  withinBudget s ->
  withinBudget (appended now persona item usagePercentage s).
Proof.
  intros Hfit Hsize [Hl H].
  destruct (appended_effect now persona item usagePercentage s)
    as ([Hlim Hw] & Hi & Hu & _).
  split; [congruence|]. intros q. rewrite Hlim.
  destruct (decide (q = persona)) as [->|Hq].
  - split.
    + unfold usageOf. fold (usedBy (appended now persona item usagePercentage s)
                              persona). rewrite Hu. exact Hfit.
    + rewrite Hi. apply Forall_app. split; [apply H|].
      constructor; [exact Hsize|constructor].
  - unfold usageOf, itemsOf. rewrite (Hw q Hq). apply H.
Qed.

Lemma withinBudget_addContext now persona item s :
  withinBudget s -> withinBudget (snd (addContext now persona item s)).
Proof.
  intros H. rewrite addContext_eq. cbv zeta.
  pose proof (calculateItemSize_nonneg item) as Hsize.
  destruct (Qgt_bool (percentage (usedBy s persona + calculateItemSize item)
                        persona) _) eqn:Hover.
  - destruct (withinBudget_cleanup now persona (calculateItemSize item) s H)
      as [Hc _].
    destruct (performAutomaticCleanup_effect now persona
                (calculateItemSize item) s) as (s' & Hp & [Hlim _] & _).
    rewrite Hp in *. cbn [snd] in *.
    destruct (Qgt_bool (percentage (usedBy s' persona + calculateItemSize item)
                          persona) _) eqn:Hover'; cbn [snd]; [exact Hc|].
    apply withinBudget_appended; [|exact Hsize|exact Hc].
    rewrite Hlim. apply Qgt_bool_false, Hover'.
  - cbn [snd]. apply withinBudget_appended; [|exact Hsize|exact H].
    apply Qgt_bool_false, Hover.
Qed.

Lemma withinBudget_runOps ops s :
  withinBudget s -> withinBudget (runOps ops s).
Proof.
  revert s. induction ops as [|op ops IH]; intros s H; [exact H|].
  apply IH. destruct op as [now persona item|now persona itemPath]; simpl.
  - apply withinBudget_addContext, H.
  - apply withinBudget_removeContext, H.
Qed.

(** C2.  After any sequence of reservations and releases, the consumption
    of every window, as a percentage of the capacity of its persona, is at
    most the ceiling of 40.  A reservation that would exceed the ceiling
    first evicts; either the new total then fits and the item is appended
    to what the eviction left, or the call fails with CONTEXT_OVERFLOW and
    the window is what the eviction left, the new item not added. *)
Theorem budget_never_exceeded ops :
  (forall persona,
     (usageOf (runOps ops initialState) persona
        <= ContextLimits.maxPercentage (limitsOf (runOps ops initialState)))%Q
     /\ ContextLimits.maxPercentage (limitsOf (runOps ops initialState))
        = 40%Q) /\
  (forall now persona item,
     let s := runOps ops initialState in
     let itemSize := calculateItemSize item in
     let cleaned := snd (performAutomaticCleanup now persona itemSize s) in
     let s' := snd (addContext now persona item s) in
     Qgt_bool (percentage (usedBy s persona + itemSize) persona)
       (ContextLimits.maxPercentage (limitsOf s)) = true ->
     (fst (addContext now persona item s) = Ok tt /\
      (percentage (usedBy cleaned persona + itemSize) persona
         <= ContextLimits.maxPercentage (limitsOf s))%Q /\
      itemsOf s' persona =
        itemsOf cleaned persona ++ [ContextItem.with_size itemSize item] /\
      usedBy s' persona = usedBy cleaned persona + itemSize /\
      (usageOf s' persona <= ContextLimits.maxPercentage (limitsOf s'))%Q)
     \/
     (exists usage,
        fst (addContext now persona item s)
          = Err (CONTEXT_OVERFLOW usage
                   (ContextLimits.maxPercentage (limitsOf s))) /\
        (ContextLimits.maxPercentage (limitsOf s) < usage)%Q /\
        s' = cleaned /\
        sublist (itemsOf s' persona) (itemsOf s persona))).
Proof.
  pose proof (withinBudget_runOps ops initialState withinBudget_initialState)
    as H.
  split.
  - intros persona. split; [apply H|]. destruct H as [-> _]. reflexivity.
  - intros now persona item s itemSize cleaned s' Hover.
    pose proof (withinBudget_addContext now persona item s H) as H'.
    fold s' in H'. subst s'. revert H'.
    rewrite addContext_eq. cbv zeta. fold s. fold itemSize. rewrite Hover.
    fold cleaned.
    destruct (Qgt_bool (percentage (usedBy cleaned persona + itemSize) persona)
                _) eqn:Hover'; cbn [fst snd]; intros H'.
    + right. eexists. split; [reflexivity|].
      split; [apply Qgt_bool_true, Hover'|]. split; [reflexivity|].
      apply (withinBudget_cleanup now persona itemSize s H).
    + left. split; [reflexivity|].
      split; [apply Qgt_bool_false, Hover'|].
      destruct (appended_effect now persona
                  (ContextItem.with_size itemSize item)
                  (percentage (usedBy s persona + itemSize) persona) cleaned)
        as (_ & Hi & Hu & _).
      split; [exact Hi|]. split; [exact Hu|]. apply H'.
Qed.

Lemma budget_never_exceeded_witness :
  (fst (addContext 2 technical_writer smallFile
          (runOps [Reserve 1 technical_writer largeFile] initialState))
     = Ok tt /\
   usedBy afterEviction technical_writer = 501) \/
  (exists usage,
     fst (addContext 2 technical_writer smallFile
            (runOps [Reserve 1 technical_writer largeFile] initialState))
       = Err (CONTEXT_OVERFLOW usage 40)).
Proof.
  destruct (proj2 (budget_never_exceeded
                     [Reserve 1 technical_writer largeFile])
              2 technical_writer smallFile) as [H|H].
  - vm_compute. reflexivity.
  - left. split; [apply H|]. vm_compute. reflexivity.
  - right. destruct H as (usage & H & _). exists usage.
    rewrite H. vm_compute. reflexivity.
Defined.

(** *** Eviction *)

Lemma selectItems_spec requiredSpace sortedItems :
  forall freedSpace chosen freed,
  selectItems requiredSpace freedSpace sortedItems = (chosen, freed) ->
  exists rest,
    sortedItems = chosen ++ rest /\
    freed = freedSpace + totalSize chosen /\
    (rest = [] \/ requiredSpace <= freed) /\
    (forall front item back,
       chosen = front ++ item :: back ->
       freedSpace + totalSize front < requiredSpace).
Proof.
  induction sortedItems as [|x l IH]; simpl; intros freedSpace chosen freed.
  - intros [= <- <-]. exists []. simpl. split; [reflexivity|].
    split; [lia|]. split; [auto|]. intros [|? ?] ? ? [=].
  - destruct (Z.leb_spec requiredSpace freedSpace) as [Hle|Hlt].
    + intros [= <- <-]. exists (x :: l). simpl. split; [reflexivity|].
      split; [lia|]. split; [auto|]. intros [|? ?] ? ? [=].
    + destruct (selectItems requiredSpace (freedSpace + ContextItem.size x) l)
        as [chosen' freed'] eqn:Hsel.
      intros [= <- <-].
      destruct (IH _ _ _ Hsel) as (rest & -> & -> & Hstop & Hmin).
      exists rest. simpl. split; [reflexivity|]. split; [lia|].
      split; [exact Hstop|].
      intros [|y front] item back; simpl; intros [= ? ?]; subst.
      * lia.
      * specialize (Hmin front item back eq_refl). lia.
Qed.

Lemma removePath_distinct itemPath items :
  distinctPaths items ->
  removePath itemPath items =
  filter (fun item => ContextItem.path item <> itemPath) items.
Proof.
  unfold removePath, distinctPaths.
  induction items as [|x l IH]; simpl; [reflexivity|].
  intros Hnd. apply NoDup_cons in Hnd as [Hx Hnd]. specialize (IH Hnd).
  rewrite filter_cons. case_bool_decide as Hp.
  - rewrite decide_False by tauto. symmetry.
    subst itemPath. clear IH Hnd. induction l as [|y l IHl]; [reflexivity|].
    simpl in Hx. apply not_elem_of_cons in Hx as [Hy Hx].
    rewrite filter_cons, decide_True by congruence. f_equal. apply IHl, Hx.
  - rewrite decide_True by exact Hp.
    destruct (removeFirst itemPath l) as [[removed rest]|]; congruence.
Qed.

Lemma distinctPaths_sublist l1 l2 :
  sublist l1 l2 -> distinctPaths l2 -> distinctPaths l1.
Proof.
  unfold distinctPaths. intros Hs Hnd. eapply sublist_NoDup; [exact Hnd|].
  clear Hnd. induction Hs; simpl; constructor; assumption.
Qed.

Lemma filter_all {A} (P : A -> Prop) `{forall x, Decision (P x)} (l : list A) :
  (forall x, P x) -> filter P l = l.
Proof.
  intros HP. induction l as [|x l IH]; [reflexivity|].
  rewrite filter_cons, decide_True by apply HP. f_equal. exact IH.
Qed.

Lemma fold_removePath_distinct paths items :
  distinctPaths items ->
  fold_left (fun its p => removePath p its) paths items =
  filter (fun item => ContextItem.path item ∉ paths) items.
Proof.
  revert items. induction paths as [|p paths IH]; intros items Hnd; simpl.
  - symmetry. apply filter_all. intros x. apply not_elem_of_nil.
  - rewrite IH
      by (eapply distinctPaths_sublist; [apply removePath_sublist|exact Hnd]).
    rewrite removePath_distinct by exact Hnd.
    rewrite list_filter_filter. apply list_filter_iff.
    intros x. rewrite not_elem_of_cons. tauto.
Qed.

(** The eviction when no two items share a path.  Take a window whose
    items have pairwise distinct paths, and a new item whose path is not
    among them.  When the reservation of the new item exceeds the
    ceiling, the eviction removes
    a front segment of the items sorted by type priority (config,
    dependency, file, interface): the evicted items come in ascending
    priority and none is of higher priority than an item that stays; an
    item is evicted only while the space freed so far is below the size
    of the new item, and the eviction ends with that size freed or with
    nothing left.  The window then holds the items not evicted, in their
    order; if the reservation succeeds it holds them followed by the new
    item, and no evicted item. *)
Theorem eviction_in_priority_order now persona item s :
  let itemSize := calculateItemSize item in
  let item' := ContextItem.with_size itemSize item in
  let evicted := evictedItems itemSize (itemsOf s persona) in
  let cleaned := snd (performAutomaticCleanup now persona itemSize s) in
  let s' := snd (addContext now persona item s) in
  distinctPaths (itemsOf s persona ++ [item]) ->
  Qgt_bool (percentage (usedBy s persona + itemSize) persona)
    (ContextLimits.maxPercentage (limitsOf s)) = true ->
  (* what is evicted, and in which order *)
  (exists rest,
     sort_by itemPriority (itemsOf s persona) = evicted ++ rest /\
     (rest = [] \/ itemSize <= totalSize evicted)) /\
  StronglySorted (keyLe itemPriority) evicted /\
  (forall front e back,
     evicted = front ++ e :: back -> totalSize front < itemSize) /\
  (* what stays *)
  itemsOf cleaned persona =
    filter (fun i => ContextItem.path i ∉ map ContextItem.path evicted)
           (itemsOf s persona) /\
  (forall e r, In e evicted -> In r (itemsOf cleaned persona) ->
               itemPriority e <= itemPriority r) /\
  (* after a successful reservation *)
  (fst (addContext now persona item s) = Ok tt ->
   itemsOf s' persona = itemsOf cleaned persona ++ [item'] /\
   In item' (itemsOf s' persona) /\
   forall e, In e evicted -> ~ In e (itemsOf s' persona)).
Proof.
  intros itemSize item' evicted cleaned s' Hnd Hover.
  assert (Hnd' : distinctPaths (itemsOf s persona)).
  { eapply distinctPaths_sublist; [|exact Hnd]. apply sublist_inserts_r.
    reflexivity. }
  pose proof (sort_by_sorted itemPriority (itemsOf s persona)) as Hsorted.
  pose proof (sort_by_Permutation itemPriority (itemsOf s persona)) as Hperm.
  destruct (selectItems itemSize 0 (sort_by itemPriority (itemsOf s persona)))
    as [chosen freed] eqn:Hsel.
  assert (Hev : evicted = chosen)
    by (subst evicted; unfold evictedItems; rewrite Hsel; reflexivity).
  destruct (selectItems_spec _ _ _ _ _ Hsel) as (rest & Hsplit & -> & Hstop & Hmin).
  rewrite <- Hev in *. clear Hsel.
  destruct (performAutomaticCleanup_effect now persona itemSize s)
    as (sc & Hc & _ & Hitems & _).
  assert (Hcleaned : cleaned = sc) by (subst cleaned; rewrite Hc; reflexivity).
  fold evicted in Hitems.
  rewrite fold_removePath_distinct in Hitems by exact Hnd'.
  rewrite <- Hcleaned in Hitems.
  assert (Hgone : forall e, In e evicted -> ~ In e (itemsOf cleaned persona)).
  { intros e He Hin. rewrite Hitems in Hin.
    apply list_elem_of_In, list_elem_of_filter in Hin as [Hin _].
    apply Hin. apply list_elem_of_fmap. exists e. split; [reflexivity|].
    apply list_elem_of_In, He. }
  assert (Hin_items : forall e, In e evicted -> In e (itemsOf s persona)).
  { intros e He. apply (Permutation_in _ (Permutation_sym Hperm)).
    rewrite Hsplit. apply in_or_app. left. exact He. }
  split; [exists rest; split; [exact Hsplit|]; simpl in Hstop; exact Hstop|].
  split; [rewrite Hsplit in Hsorted; eapply sorted_app_l; exact Hsorted|].
  split; [intros front e back Hfe; specialize (Hmin front e back Hfe); lia|].
  split; [exact Hitems|].
  split.
  { intros e r He Hr. rewrite Hsplit in Hsorted.
    apply (sorted_app_le itemPriority evicted rest e r Hsorted He).
    assert (Hr' : In r (itemsOf s persona)).
    { rewrite Hitems in Hr.
      apply list_elem_of_In, list_elem_of_filter in Hr as [_ Hr].
      apply list_elem_of_In, Hr. }
    apply (Permutation_in _ Hperm) in Hr'. rewrite Hsplit in Hr'.
    apply in_app_or in Hr' as [Hr'|Hr']; [|exact Hr'].
    exfalso. exact (Hgone r Hr' Hr). }
  intros Hok. subst s'. revert Hok. rewrite addContext_eq. cbv zeta.
  fold itemSize. rewrite Hover. fold cleaned.
  destruct (Qgt_bool (percentage (usedBy cleaned persona + itemSize) persona) _);
    cbn [fst snd]; [discriminate|]. intros _.
  destruct (appended_effect now persona (ContextItem.with_size itemSize item)
              (percentage (usedBy s persona + itemSize) persona) cleaned)
    as (_ & Hi & _).
  fold item' in Hi |- *. rewrite Hi.
  split; [reflexivity|]. split; [apply in_or_app; right; left; reflexivity|].
  intros e He Hin. apply in_app_or in Hin as [Hin|[Hin|[]]].
  - exact (Hgone e He Hin).
  - (* the new item has a path of its own *)
    unfold distinctPaths in Hnd. rewrite map_app in Hnd.
    apply NoDup_app in Hnd as (_ & Hdisj & _).
    apply (Hdisj (ContextItem.path e)).
    + apply list_elem_of_fmap. exists e. split; [reflexivity|].
      apply list_elem_of_In, Hin_items, He.
    + subst e. simpl. left.
Qed.

Lemma eviction_in_priority_order_witness :
  itemsOf afterEviction technical_writer =
  itemsOf (snd (performAutomaticCleanup 2 technical_writer
                  (calculateItemSize smallFile)
                  (runOps [Reserve 1 technical_writer largeFile]
                     initialState)))
          technical_writer
  ++ [ContextItem.with_size (calculateItemSize smallFile) smallFile].
Proof.
  refine (proj1 (proj2 (proj2 (proj2 (proj2 (proj2
            (eviction_in_priority_order 2 technical_writer smallFile
               (runOps [Reserve 1 technical_writer largeFile] initialState)
               _ _))))) _)).
  - apply (bool_decide_unpack _). vm_compute. exact I.
  - vm_compute. reflexivity.
  - vm_compute. reflexivity.
Defined.

(** C6 (the code departs from it).  The eviction sorts the items by type
    priority ([config < dependency < file < interface]) and chooses from
    the front, but it removes what it has chosen by path, and
    [removeContext] removes the first item of a path.  The window here
    holds an interface and a configuration item of the path
    [/src/types.ts] and a file; a reservation of 21 units exceeds the
    ceiling.  The eviction chooses the configuration item, the item of
    lowest priority; the item that goes is the interface item, of highest
    priority, and the configuration item is still in the window after the
    reservation has succeeded. *)
Lemma eviction_with_shared_path :
  let s := sharedPath in
  let r := addContext 4 technical_writer note s in
  Qgt_bool (percentage (usedBy s technical_writer + calculateItemSize note)
              technical_writer)
    (ContextLimits.maxPercentage (limitsOf s)) = true /\
  fst r = Ok tt /\
  itemsOf s technical_writer =
    [ContextItem.with_size 53 typesInterface;
     ContextItem.with_size 33 typesConfig;
     ContextItem.with_size 2138 bulkFile] /\
  evictedItems (calculateItemSize note) (itemsOf s technical_writer) =
    [ContextItem.with_size 33 typesConfig] /\
  itemsOf (snd r) technical_writer =
    [ContextItem.with_size 33 typesConfig;
     ContextItem.with_size 2138 bulkFile;
     ContextItem.with_size 21 note] /\
  itemPriority (ContextItem.with_size 33 typesConfig)
    < itemPriority (ContextItem.with_size 53 typesInterface) /\
  In (ContextItem.with_size 33 typesConfig) (itemsOf (snd r) technical_writer)
  /\
  ~ In (ContextItem.with_size 53 typesInterface)
       (itemsOf (snd r) technical_writer).
Proof.
  cbv zeta.
  assert (Hitems : itemsOf (snd (addContext 4 technical_writer note sharedPath))
                     technical_writer =
    [ContextItem.with_size 33 typesConfig;
     ContextItem.with_size 2138 bulkFile;
     ContextItem.with_size 21 note]) by (vm_compute; reflexivity).
  rewrite Hitems.
  split; [vm_compute; reflexivity|]. split; [vm_compute; reflexivity|].
  split; [vm_compute; reflexivity|]. split; [vm_compute; reflexivity|].
  split; [reflexivity|]. split; [vm_compute; reflexivity|].
  split; [left; reflexivity|].
  intros [H|[H|[H|[]]]]; discriminate H.
Qed.

(** *** The recorded usage *)

(** a reservation that needs no eviction records the usage of the window *)
Lemma addContext_records_usage now persona item s :
  Qgt_bool (percentage (usedBy s persona + calculateItemSize item) persona)
    (ContextLimits.maxPercentage (limitsOf s)) = false ->
  let s' := snd (addContext now persona item s) in
  recordedUsage s' persona = usageOf s' persona /\
  totalUsageOf s' = mean (map (recordedUsage s') personas).
Proof.
  intros Hfit. rewrite addContext_eq. cbv zeta. rewrite Hfit. cbn [snd].
  destruct (appended_effect now persona
              (ContextItem.with_size (calculateItemSize item) item)
              (percentage (usedBy s persona + calculateItemSize item) persona)
              s) as (_ & _ & Hu & Hr & Ht).
  split; [|exact Ht]. rewrite Hr. unfold usageOf.
  fold (usedBy (appended now persona
                  (ContextItem.with_size (calculateItemSize item) item)
                  (percentage (usedBy s persona + calculateItemSize item)
                     persona) s) persona).
  rewrite Hu. reflexivity.
Qed.

(** C7 (the code departs from it).  A file of 2001 units fills the window
    of the technical writer; the reservation of a file of 501 units evicts
    it and succeeds.  The window then holds 501 units of 5600, but the
    usage recorded for the persona is the one computed before the
    eviction, 2502 units of 5600, and the aggregate is the mean of the
    recorded usages, not of the usages of the windows. *)
Theorem stale_usage_after_eviction :
  fst (addContext 2 technical_writer smallFile
         (runOps [Reserve 1 technical_writer largeFile] initialState))
    = Ok tt /\
  usedBy afterEviction technical_writer = 501 /\
  (usageOf afterEviction technical_writer == 501 # 56)%Q /\
  (recordedUsage afterEviction technical_writer == 1251 # 28)%Q /\
  ~ (recordedUsage afterEviction technical_writer
       == usageOf afterEviction technical_writer)%Q /\
  (totalUsageOf afterEviction
     == mean (map (recordedUsage afterEviction) personas))%Q /\
  ~ (totalUsageOf afterEviction
       == mean (map (usageOf afterEviction) personas))%Q.
Proof.
  split; [vm_compute; reflexivity|]. split; [vm_compute; reflexivity|].
  split; [vm_compute; reflexivity|]. split; [vm_compute; reflexivity|].
  split; [vm_compute; discriminate|]. split; [vm_compute; reflexivity|].
  vm_compute; discriminate.
Qed.

End ContextManagerFacts.

(** ** The dispatcher *)

Module AgentOrchestratorFacts.
Import AgentOrchestrator.

Lemma Qle_bool_compat_r x y y' : (y == y')%Q -> Qle_bool x y = Qle_bool x y'.
Proof.
  intros H. destruct (Qle_bool x y') eqn:H'.
  - apply Qle_bool_iff. rewrite H. apply Qle_bool_iff, H'.
  - destruct (Qle_bool x y) eqn:H''; [|reflexivity].
    apply Qle_bool_iff in H''. rewrite H in H''.
    apply Qle_bool_iff in H''. congruence.
Qed.

(** the score reads the capability set, the limit, the status and the
    consumption of a worker, and nothing else *)
Lemma agentScore_same keywords a b :
  sameWorker a b ->
  Agent.contextLimit (snd a) = Agent.contextLimit (snd b) ->
  agentScore keywords (snd a) = agentScore keywords (snd b).
Proof.
  intros (_ & Hspec & Hstatus & Husage) Hlimit. unfold agentScore.
  rewrite Hspec, Hstatus, Hlimit.
  rewrite (Qle_bool_compat_r _ _ _ Husage). reflexivity.
Qed.

(** the analysis reads the title, the description and the acceptance
    criteria of a task, and nothing else *)
Lemma analyzeTaskRequirements_same t1 t2 :
  sameText t1 t2 -> analyzeTaskRequirements t1 = analyzeTaskRequirements t2.
Proof.
  intros (Ht & Hd & Ha). unfold analyzeTaskRequirements, taskText.
  rewrite Ht, Hd, Ha. reflexivity.
Qed.

Lemma scores_same keywords agents1 agents2 :
  rosterLimits agents1 -> rosterLimits agents2 ->
  Forall2 sameWorker agents1 agents2 ->
  map (fun entry => (fst entry, agentScore keywords (snd entry))) agents1 =
  map (fun entry => (fst entry, agentScore keywords (snd entry))) agents2.
Proof.
  unfold rosterLimits. intros H1 H2 Hsame. revert H1 H2.
  induction Hsame as [|a b l1 l2 Hab Hl IH]; intros H1 H2; [reflexivity|].
  apply Forall_cons in H1 as [Ha H1]. apply Forall_cons in H2 as [Hb H2].
  simpl. rewrite (IH H1 H2). f_equal.
  rewrite (agentScore_same keywords a b Hab)
    by (rewrite Ha, Hb; f_equal; apply Hab).
  f_equal. apply Hab.
Qed.

(** the head of the sorted scores is the first best entry of the roster *)
Lemma firstLeast_scores task agents :
  firstLeast (fun entry : PersonaType * Z => - snd entry)
    (map (fun entry =>
            (fst entry,
             agentScore (fst (analyzeTaskRequirements task)) (snd entry)))
         agents) =
  option_map (fun best => (fst best, scoreFor task best))
    (firstBest task agents).
Proof.
  induction agents as [|entry agents IH]; [reflexivity|].
  cbn [map firstLeast firstBest]. rewrite IH.
  destruct (firstBest task agents) as [best|]; cbn [option_map fst snd];
    [|reflexivity].
  fold (scoreFor task entry).
  destruct (Z.leb_spec (- scoreFor task entry) (- scoreFor task best));
    destruct (Z.leb_spec (scoreFor task best) (scoreFor task entry));
    try reflexivity; lia.
Qed.

Lemma selectOptimalAgent_firstBest agents task :
  selectOptimalAgent agents task =
  match firstBest task agents with
  | Some best => Ok (fst best)
  | None => Err TypeError
  end.
Proof.
  unfold selectOptimalAgent.
  pose proof (head_sort_by (fun entry : PersonaType * Z => - snd entry)
    (map (fun entry =>
            (fst entry,
             agentScore (fst (analyzeTaskRequirements task)) (snd entry)))
         agents)) as H.
  rewrite firstLeast_scores in H.
  destruct (sort_by _ _) as [|selectedAgent rest];
    destruct (firstBest task agents) as [best|]; simpl in H;
    try discriminate; [reflexivity|].
  injection H as ->. reflexivity.
Qed.

(** the first best entry: no entry outscores it, and no entry before it
    scores as much *)
Lemma firstBest_spec task agents best :
  firstBest task agents = Some best ->
  exists front back,
    agents = front ++ best :: back /\
    Forall (fun entry => scoreFor task entry < scoreFor task best) front /\
    Forall (fun entry => scoreFor task entry <= scoreFor task best) back.
Proof.
  revert best. induction agents as [|entry agents IH]; simpl; intros best;
    [discriminate|].
  destruct (firstBest task agents) as [best'|] eqn:Hb.
  - destruct (IH best' eq_refl) as (front & back & -> & Hf & Hk).
    destruct (Z.leb_spec (scoreFor task best') (scoreFor task entry));
      intros [= <-].
    + exists [], (front ++ best' :: back). split; [reflexivity|].
      split; [constructor|]. apply Forall_app. split.
      * eapply Forall_impl; [exact Hf|]. simpl. intros; lia.
      * constructor; [lia|]. eapply Forall_impl; [exact Hk|]. simpl. intros; lia.
    + exists (entry :: front), back. split; [reflexivity|].
      split; [constructor; [lia|exact Hf]|exact Hk].
  - intros [= <-]. destruct agents as [|e agents]; [|simpl in Hb].
    + exists [], []. split; [reflexivity|]. split; constructor.
    + destruct (firstBest task agents); [destruct (_ <=? _)|]; discriminate.
Qed.

Lemma firstBest_nonempty task agents :
  agents <> [] -> exists best, firstBest task agents = Some best.
Proof.
  destruct agents as [|entry agents]; [congruence|]. intros _. simpl.
  destruct (firstBest task agents) as [best|]; [destruct (_ <=? _)|]; eauto.
Qed.

(** C8.  The selection reads the capability sets, the statuses and the
    consumption levels of the workers and the title, the description and
    the acceptance criteria of the task, and nothing else: two runs on
    rosters and tasks that agree on these choose the same worker.  The
    worker chosen is the first, in declaration order, that no worker
    outscores. *)
Theorem selection_is_deterministic agents1 agents2 task1 task2 :
  rosterLimits agents1 -> rosterLimits agents2 ->
  Forall2 sameWorker agents1 agents2 ->
  sameText task1 task2 ->
  selectOptimalAgent agents1 task1 = selectOptimalAgent agents2 task2 /\
  (agents1 <> [] ->
   exists front best back,
     selectOptimalAgent agents1 task1 = Ok (fst best) /\
     agents1 = front ++ best :: back /\
     Forall (fun entry => scoreFor task1 entry < scoreFor task1 best) front /\
     Forall (fun entry => scoreFor task1 entry <= scoreFor task1 best) back).
Proof.
  intros H1 H2 Hsame Htext. split.
  - unfold selectOptimalAgent.
    rewrite (analyzeTaskRequirements_same task1 task2 Htext).
    rewrite (scores_same _ agents1 agents2 H1 H2 Hsame). reflexivity.
  - intros Hne. destruct (firstBest_nonempty task1 agents1 Hne) as [best Hb].
    destruct (firstBest_spec task1 agents1 best Hb) as (front & back & ? & ? & ?).
    exists front, best, back. rewrite selectOptimalAgent_firstBest, Hb. auto.
Qed.

Lemma selection_is_deterministic_witness :
  selectOptimalAgent (initializeAgents sampleSpecializations 0) sampleTask =
  selectOptimalAgent (initializeAgents sampleSpecializations 1700000000000)
    (Task.mk (Some "task-2") (Some "LIN-7") (Some "Tidy up") "Housekeeping"
       task_pending Priority.critical None ["task-1"] 25 ["Done"] 5 6 None).
Proof.
  apply (proj1 (selection_is_deterministic
                  (initializeAgents sampleSpecializations 0)
                  (initializeAgents sampleSpecializations 1700000000000)
                  sampleTask
                  (Task.mk (Some "task-2") (Some "LIN-7") (Some "Tidy up")
                     "Housekeeping" task_pending Priority.critical None
                     ["task-1"] 25 ["Done"] 5 6 None)
                  ltac:(repeat constructor) ltac:(repeat constructor)
                  ltac:(repeat constructor) ltac:(repeat constructor))).
Defined.

(** *** [assignTask] *)

Lemma agents_get_In agents persona agent :
  In (persona, agent) agents ->
  exists agent', agents_get agents persona = Some agent'.
Proof.
  induction agents as [|[p a] agents IH]; simpl; [tauto|].
  intros [[= -> ->]|Hin].
  - rewrite decide_True by reflexivity. eauto.
  - destruct (decide (p = persona)); eauto.
Qed.

(** C4 (as amended).  [assignTask] fails with INVALID_TASK when the
    identity or the title of the task is missing or empty.  For a valid
    task with no worker assigned it selects, among all the workers of the
    roster, errored ones included and whatever their scores, the first
    that no worker outscores; it then fails with CONTEXT_LIMIT_EXCEEDED
    when the context requirement of the task exceeds the limit of that
    worker, and otherwise enqueues the task with that worker assigned. *)
Theorem assignTask_outcome task s :
  (truthy (Task.id task) = false \/ truthy (Task.title task) = false ->
   assignTask task s = (Err INVALID_TASK, s)) /\
  (truthy (Task.id task) = true -> truthy (Task.title task) = true ->
   Task.assignedAgent task = None -> agents s <> [] ->
   exists front best back agent,
     agents s = front ++ best :: back /\
     Forall (fun entry => scoreFor task entry < scoreFor task best) front /\
     Forall (fun entry => scoreFor task entry <= scoreFor task best) back /\
     agents_get (agents s) (fst best) = Some agent /\
     assignTask task s =
       if Qle_bool (Task.contextRequirement task)
                   (inject_Z (Agent.contextLimit agent))
       then (Ok tt, enqueued (fst best) task s)
       else (Err (CONTEXT_LIMIT_EXCEEDED (Task.contextRequirement task)
                    (Agent.contextLimit agent)), s)).
Proof.
  split.
  - intros H. unfold assignTask.
    destruct H as [-> | ->]; [reflexivity|].
    rewrite orb_true_r. reflexivity.
  - intros Hid Htitle Hnone Hne.
    destruct (firstBest_nonempty task (agents s) Hne) as [best Hb].
    destruct (firstBest_spec task (agents s) best Hb)
      as (front & back & Hsplit & Hf & Hk).
    destruct (agents_get_In (agents s) (fst best) (snd best)) as [agent Hget].
    { rewrite Hsplit. apply in_or_app. right. left. destruct best; reflexivity. }
    exists front, best, back, agent.
    split; [exact Hsplit|]. split; [exact Hf|]. split; [exact Hk|].
    split; [exact Hget|].
    unfold assignTask. rewrite Hid, Htitle, Hnone. cbn [negb orb].
    cbv [bind gets ret throw modify]. cbn [fst snd].
    rewrite selectOptimalAgent_firstBest, Hb, Hget.
    cbn [Task.contextRequirement Task.assign].
    destruct (Qle_bool _ _); reflexivity.
Qed.

Lemma assignTask_outcome_witness :
  exists front best back agent,
    agents (initialState sampleSpecializations 0) = front ++ best :: back /\
    Forall (fun entry => scoreFor sampleTask entry < scoreFor sampleTask best)
      front /\
    Forall (fun entry => scoreFor sampleTask entry <= scoreFor sampleTask best)
      back /\
    agents_get (agents (initialState sampleSpecializations 0)) (fst best)
      = Some agent /\
    assignTask sampleTask (initialState sampleSpecializations 0) =
      if Qle_bool (Task.contextRequirement sampleTask)
                  (inject_Z (Agent.contextLimit agent))
      then (Ok tt, enqueued (fst best) sampleTask
                     (initialState sampleSpecializations 0))
      else (Err (CONTEXT_LIMIT_EXCEEDED (Task.contextRequirement sampleTask)
                   (Agent.contextLimit agent)),
            initialState sampleSpecializations 0).
Proof.
  apply (proj2 (assignTask_outcome sampleTask
                  (initialState sampleSpecializations 0))).
  - reflexivity.
  - reflexivity.
  - reflexivity.
  - discriminate.
Defined.

(** C4 (as stated) fails: there is no error for the lack of an eligible
    worker, and errored workers are not set aside.  In [busyRoster] every
    worker that is not in error scores -5 for the task, and the task is
    valid; [assignTask] succeeds and enqueues the task for the
    requirements analyst, which is in error. *)
Lemma no_eligible_worker_is_assigned :
  truthy (Task.id sampleTask) = true /\
  truthy (Task.title sampleTask) = true /\
  Forall (fun entry => Agent.status (snd entry) <> error ->
                       scoreFor sampleTask entry <= 0)
         (agents busyRoster) /\
  (exists agent,
     agents_get (agents busyRoster) requirements_analyst = Some agent /\
     Agent.status agent = error) /\
  assignTask sampleTask busyRoster =
    (Ok tt, enqueued requirements_analyst sampleTask busyRoster).
Proof.
  split; [reflexivity|]. split; [reflexivity|].
  split; [apply (bool_decide_unpack _); vm_compute; exact I|].
  split; [eexists; split; [vm_compute; reflexivity|reflexivity]|].
  vm_compute. reflexivity.
Qed.

End AgentOrchestratorFacts.

(** ** The approval gate: the life of a request *)

Module GateLifecycle.
Import Regex PermissionManager PermissionManagerFacts.

Ltac run :=
  cbv [bind ret throw get gets modify emit delivered persistResponse
       persistRequest setupRequestTimeout].

(** *** Responses *)

(** X1.  A response to a pending request resolves it, whether or not its
    confirmation goes through: the request object takes the status
    approved or denied and keeps the response, the request moves from the
    pending map to the history, and the response is written to disk.  The
    waiter is then settled at its next poll, with the response if it
    approves and with a denial that carries its reason if not.  The timer
    stays armed, and does nothing when it fires.  The confirmation comes
    last: each configured service receives at most one message.  When the
    network answers, each of them receives one and the call returns; the
    call rejects only with the error of a service that the network has
    failed, the request being resolved all the same. *)
Theorem response_resolves_request now requestId approved reason respondedBy
    s l request :
  getPending s requestId = Some (l, request) ->
  PermissionRequest.status request = pending ->
  let response :=
    PermissionResponse.mk approved now reason (default "user" respondedBy) in
  exists r s',
    respondToRequest now requestId approved reason respondedBy s = (r, s') /\
    heap s' =
      <[l := PermissionRequest.resolve
               (if approved then approved_ else denied) response request]>
        (heap s) /\
    pendingRequests s' = delete requestId (pendingRequests s) /\
    permissionHistory s' = <[requestId := response]> (permissionHistory s) /\
    disk s' =
      <[requestId +:+ "-response.json" := response_json response]> (disk s) /\
    timers s' = timers s /\
    checkResponse requestId s' =
      (if approved then Some (Ok response)
       else Some (Err (PERMISSION_DENIED
                         ("Permission denied for request " +:+ requestId)
                         reason))) /\
    (forall now', requestTimeoutCallback now' requestId s' = (Ok tt, s')) /\
    (exists d,
        sent s' = sent s ++ d /\
        sublist d (channelsNotified confirmation
                     (PermissionRequest.id request) s)) /\
    match r with
    | Ok _ => True
    | Err e => channelError e = true /\ reliable s = false
    end /\
    (reliable s = true ->
     r = Ok tt /\
     sent s' =
       sent s ++ channelsNotified confirmation (PermissionRequest.id request) s).
Proof.
  intros Hget Hst response.
  pose proof (respondToRequest_pending_spec now requestId approved reason
                respondedBy s l request Hget Hst) as H.
  cbv zeta in H. fold response in H.
  destruct (respondToRequest now requestId approved reason respondedBy s)
    as [r s'].
  cbn [fst snd] in H.
  destruct H as (Hh & Hp & Hhi & Hd & Ht & Hsent & Hres & Hrel).
  exists r, s'. split; [reflexivity|].
  do 5 (split; [assumption|]).
  split.
  { unfold checkResponse. rewrite Hhi, lookup_insert_eq. cbn.
    destruct approved; reflexivity. }
  split.
  { intros now'. unfold requestTimeoutCallback.
    rewrite (bind_Ok get _ s' s' s' eq_refl).
    rewrite (getPending_absent s' requestId)
      by (rewrite Hp; apply lookup_delete_eq).
    rewrite bool_decide_eq_false_2; [reflexivity|].
    intros [? ?]; discriminate. }
  split; [exact Hsent|]. split; [exact Hres|exact Hrel].
Qed.

Lemma response_resolves_request_witness :
  let s := withNetwork [true; true; false] sampleRequested in
  let r := respondToRequest 2000 sampleId true (Some "Approved")
             (Some "dashboard-user") s in
  fst r = Err TWILIO_REQUEST_FAILED /\
  checkResponse sampleId (snd r) =
    Some (Ok (PermissionResponse.mk true 2000 (Some "Approved")
                "dashboard-user")).
Proof.
  intros s r.
  destruct (response_resolves_request 2000 sampleId true (Some "Approved")
              (Some "dashboard-user") s 1%positive
              (PermissionRequest.mk sampleId devops_engineer
                 "rm -rf node_modules" "cleaning up dependencies" critical
                 600000 1000 pending None))
    as (r' & s' & Hr & _ & _ & _ & _ & _ & Hc & _).
  - vm_compute. reflexivity.
  - reflexivity.
  - split; [vm_compute; reflexivity|].
    subst r. rewrite Hr. exact Hc.
Defined.

(** X2.  A response fails in three ways only.  REQUEST_NOT_FOUND, when
    the pending map has no request of that identity, and
    REQUEST_ALREADY_RESOLVED, when it has one whose status is not pending,
    change nothing.  The third is the error of a notification service
    that the network has failed: it is raised by the confirmation, after
    the pending request has been resolved, and the request is then out of
    the pending map with its response in the history. *)
Theorem response_errors now requestId approved reason respondedBy s :
  (getPending s requestId = None ->
   respondToRequest now requestId approved reason respondedBy s
     = (Err (REQUEST_NOT_FOUND requestId), s)) /\
  (forall l request,
     getPending s requestId = Some (l, request) ->
     PermissionRequest.status request <> pending ->
     respondToRequest now requestId approved reason respondedBy s
       = (Err (REQUEST_ALREADY_RESOLVED requestId), s)) /\
  (forall e s',
     respondToRequest now requestId approved reason respondedBy s
       = (Err e, s') ->
     (e = REQUEST_NOT_FOUND requestId /\ getPending s requestId = None /\
      s' = s) \/
     (e = REQUEST_ALREADY_RESOLVED requestId /\ s' = s /\
      exists l request,
        getPending s requestId = Some (l, request) /\
        PermissionRequest.status request <> pending) \/
     (channelError e = true /\ reliable s = false /\
      (exists l request,
          getPending s requestId = Some (l, request) /\
          PermissionRequest.status request = pending) /\
      pendingRequests s' !! requestId = None /\
      permissionHistory s' !! requestId =
        Some (PermissionResponse.mk approved now reason
                (default "user" respondedBy)))).
Proof.
  split; [apply getPending_None_respond|]. split.
  - intros l request. apply getPending_resolved.
  - intros e s' H.
    destruct (getPending s requestId) as [[l request]|] eqn:Hget.
    + destruct (decide (PermissionRequest.status request = pending))
        as [Hst|Hst].
      * right. right.
        destruct (respondToRequest_pending_spec now requestId approved reason
                    respondedBy s l request Hget Hst)
          as (_ & Hp & Hhi & _ & _ & _ & Hres & _).
        rewrite H in Hp, Hhi, Hres. cbn [fst snd] in Hp, Hhi, Hres.
        destruct Hres as [He Hno].
        split; [exact He|]. split; [exact Hno|]. split; [eauto|].
        rewrite Hp, Hhi.
        split; [apply lookup_delete_eq|apply lookup_insert_eq].
      * rewrite (getPending_resolved _ _ _ _ _ _ _ _ Hget Hst) in H.
        injection H as <- <-. right. left.
        split; [reflexivity|]. split; [reflexivity|].
        exists l, request. split; [reflexivity|exact Hst].
    + rewrite getPending_None_respond in H by exact Hget.
      injection H as <- <-. left. auto.
Qed.

Lemma response_errors_witness :
  respondToRequest 5 "no-such-request" true None None sampleRequested
  = (Err (REQUEST_NOT_FOUND "no-such-request"), sampleRequested).
Proof.
  apply (proj1 (response_errors 5 "no-such-request" true None None
                  sampleRequested)).
  vm_compute. reflexivity.
Defined.

(** *** Cancellation *)

(** X3.  [cancelRequest] fails with REQUEST_NOT_FOUND, changing nothing,
    when the pending map has no request of that identity.  Otherwise it
    does not look at the status: the request object becomes expired with a
    denial attributed to "system", whose reason is the one given or
    "Cancelled by user"; the request moves to the history and the denial
    is written to disk; no channel is notified; the waiter is rejected
    with that reason at its next poll. *)
Theorem cancellation_denies_request now requestId reason s :
  (getPending s requestId = None ->
   cancelRequest now requestId reason s
     = (Err (REQUEST_NOT_FOUND requestId), s)) /\
  (forall l request,
     getPending s requestId = Some (l, request) ->
     let response :=
       PermissionResponse.mk false now
         (Some (default "Cancelled by user" reason)) "system" in
     exists s',
       cancelRequest now requestId reason s = (Ok tt, s') /\
       heap s' =
         <[l := PermissionRequest.resolve expired response request]> (heap s)
       /\
       pendingRequests s' = delete requestId (pendingRequests s) /\
       permissionHistory s' = <[requestId := response]> (permissionHistory s)
       /\
       disk s' =
         <[requestId +:+ "-response.json" := response_json response]> (disk s)
       /\
       sent s' = sent s /\
       checkResponse requestId s' =
         Some (Err (PERMISSION_DENIED
                      ("Permission denied for request " +:+ requestId)
                      (Some (default "Cancelled by user" reason))))).
Proof.
  split.
  - intros H. unfold cancelRequest. run. rewrite H. reflexivity.
  - intros l request H response. unfold cancelRequest. run. rewrite H.
    eexists. split; [reflexivity|]. cbn.
    repeat (split; [reflexivity|]).
    unfold checkResponse. cbn. rewrite lookup_insert_eq. reflexivity.
Qed.

Lemma cancellation_denies_request_witness :
  exists s',
    cancelRequest 3000 sampleId None sampleRequested = (Ok tt, s') /\
    checkResponse sampleId s' =
      Some (Err (PERMISSION_DENIED
                   ("Permission denied for request " +:+ sampleId)
                   (Some "Cancelled by user"))).
Proof.
  destruct (proj2 (cancellation_denies_request 3000 sampleId None
                     sampleRequested) 1%positive
              (PermissionRequest.mk sampleId devops_engineer
                 "rm -rf node_modules" "cleaning up dependencies" critical
                 600000 1000 pending None))
    as (s' & Hr & _ & _ & _ & _ & _ & Hc).
  - vm_compute. reflexivity.
  - exists s'. split; [exact Hr|exact Hc].
Defined.

(** *** Requests *)

(** X4.  When approval is required, [requestPermission] creates a request:
    a new object, pending, of the assessed level and with the timeout of
    that level (one to ten minutes), enters the pending map under the
    identifier drawn and is written to disk; the history is left as it
    is, and unless it already holds a response under that identifier a
    poll for the request settles nothing.  Then come the notifications.
    When none of them throws, the timer of the request is armed and the
    caller waits; so it is whenever the network answers, each configured
    service having received its message.  When a service throws, the
    call rejects with the error of that service and no timer is armed,
    the request staying in the pending map. *)
Theorem request_awaits_approval now rid agent command context s :
  let level :=
    RiskAssessment.level (assessRisk (permissionRules s) command context) in
  let request :=
    PermissionRequest.mk rid agent command context level
      (getTimeoutForRisk level) now pending None in
  let l := fresh (dom (heap s)) in
  requiresApproval (permissionRules s) command level = true ->
  exists r s',
    requestPermission now rid agent command context s = (r, s') /\
    heap s !! l = None /\
    heap s' = <[l := request]> (heap s) /\
    pendingRequests s' = <[rid := l]> (pendingRequests s) /\
    getPending s' rid = Some (l, request) /\
    permissionHistory s' = permissionHistory s /\
    disk s' = <[rid +:+ ".json" := request_json request]> (disk s) /\
    60000 <= getTimeoutForRisk level <= 600000 /\
    (permissionHistory s !! rid = None -> checkResponse rid s' = None) /\
    (exists d,
        sent s' = sent s ++ d /\
        sublist d (channelsNotified approval_request rid s)) /\
    match r with
    | Ok o =>
        o = Waiting rid /\
        timers s' = timers s ++ [(rid, getTimeoutForRisk level)]
    | Err e =>
        channelError e = true /\ reliable s = false /\ timers s' = timers s
    end /\
    (reliable s = true ->
     r = Ok (Waiting rid) /\
     sent s' = sent s ++ channelsNotified approval_request rid s).
Proof.
  intros level request l Hreq.
  pose proof (requestPermission_pending_spec now rid agent command context s
                Hreq) as H.
  cbv zeta in H. fold level in H. fold request in H. fold l in H.
  destruct (requestPermission now rid agent command context s) as [r s'].
  cbn [fst snd] in H.
  destruct H as (Hfresh & Hh & Hp & Hhi & Hd & Hsent & Hres & Hrel).
  exists r, s'. split; [reflexivity|].
  assert (Hget : getPending s' rid = Some (l, request)).
  { unfold getPending. rewrite Hp, lookup_insert_eq, Hh, lookup_insert_eq.
    reflexivity. }
  do 3 (split; [assumption|]). split; [exact Hget|].
  do 2 (split; [assumption|]).
  split; [destruct level; cbn; lia|].
  split.
  { intros Hnone. unfold checkResponse. rewrite Hhi, Hnone, Hget.
    reflexivity. }
  split; [exact Hsent|]. split; [|exact Hrel].
  destruct r as [o|e]; [tauto|tauto].
Qed.

Lemma request_awaits_approval_witness :
  exists s',
    requestPermission 1000 sampleId devops_engineer "rm -rf node_modules"
      "cleaning up dependencies" (initialState true true)
      = (Ok (Waiting sampleId), s') /\
    timers s' = [(sampleId, 600000)] /\
    sent s' =
      [(sms, approval_request, sampleId); (push, approval_request, sampleId)].
Proof.
  destruct (request_awaits_approval 1000 sampleId devops_engineer
              "rm -rf node_modules" "cleaning up dependencies"
              (initialState true true))
    as (r & s' & Hr & _ & _ & _ & _ & _ & _ & _ & _ & _ & Hres & Hrel).
  - vm_compute. reflexivity.
  - destruct (Hrel eq_refl) as [-> Hsent].
    exists s'. split; [exact Hr|].
    destruct Hres as [_ Ht]. rewrite Ht, Hsent.
    split; vm_compute; reflexivity.
Defined.

(** *** Which operations need approval *)

Lemma initialPermissionRules_require_approval :
  Forall (fun rule => PermissionRule.requiresApproval rule = true)
         initialPermissionRules.
Proof. unfold initialPermissionRules. repeat constructor. Qed.

Lemma requiresApproval_unless_low command context :
  requiresApproval initialPermissionRules command
    (RiskAssessment.level (assessRisk initialPermissionRules command context))
  = negb (bool_decide
            (RiskAssessment.level
               (assessRisk initialPermissionRules command context) = low)).
Proof.
  destruct (RiskAssessment.level
              (assessRisk initialPermissionRules command context)) eqn:Hl.
  - rewrite <- Hl at 1. rewrite Hl.
    apply (low_requires_no_approval command context Hl).
  - unfold requiresApproval.
    change (bool_decide (medium = critical) || bool_decide (medium = high))
      with false. cbv iota.
    destruct (firstMatchingRule initialPermissionRules command) as [rule|] eqn:Hf;
      [|reflexivity].
    apply firstMatchingRule_Some in Hf as [Hin _].
    pose proof initialPermissionRules_require_approval as Hall.
    rewrite Forall_forall in Hall. apply Hall, list_elem_of_In, Hin.
  - reflexivity.
  - reflexivity.
Qed.

(** X5.  With the rules of the gate, approval is required exactly when
    the assessed level is not low: [requestPermission] settles at once,
    leaving the state as it was, for the level low, and creates a request
    for every other level.  The caller then waits, unless a notification
    service throws; it waits whenever the network answers. *)
Theorem approval_required_unless_low now rid agent command context s :
  permissionRules s = initialPermissionRules ->
  let level :=
    RiskAssessment.level
      (assessRisk initialPermissionRules command context) in
  (level = low ->
   exists response,
     requestPermission now rid agent command context s
       = (Ok (Resolved response), s)) /\
  (level <> low ->
   exists r s',
     requestPermission now rid agent command context s = (r, s') /\
     is_Some (getPending s' rid) /\
     match r with
     | Ok o => o = Waiting rid
     | Err e => channelError e = true /\ reliable s = false
     end /\
     (reliable s = true -> r = Ok (Waiting rid))).
Proof.
  intros Hrules level.
  pose proof (requiresApproval_unless_low command context) as Hreq.
  fold level in Hreq. split; intros Hl.
  - rewrite bool_decide_eq_true_2 in Hreq by exact Hl.
    unfold requestPermission. rewrite bind_gets, Hrules. fold level.
    rewrite Hreq. eexists. reflexivity.
  - rewrite bool_decide_eq_false_2 in Hreq by exact Hl. cbn [negb] in Hreq.
    unfold level in Hreq. rewrite <- Hrules in Hreq.
    pose proof (requestPermission_pending_spec now rid agent command context
                  s Hreq) as H.
    cbv zeta in H.
    destruct (requestPermission now rid agent command context s) as [r s'].
    cbn [fst snd] in H.
    destruct H as (_ & Hh & Hp & _ & _ & _ & Hres & Hrel).
    exists r, s'. split; [reflexivity|]. split.
    { unfold getPending. rewrite Hp, lookup_insert_eq, Hh, lookup_insert_eq.
      eauto. }
    split; [destruct r as [o|e]; tauto|].
    intros Hr. apply Hrel, Hr.
Qed.

Lemma approval_required_unless_low_witness :
  exists r s',
    requestPermission 0 sampleId backend_architect
      "sudo systemctl restart service" "restarting system service"
      (withNetwork [true; false] (initialState true false)) = (r, s') /\
    is_Some (getPending s' sampleId) /\
    r = Err (INTEGRATION_NOT_CONFIGURED "Twilio integration not configured").
Proof.
  destruct (proj2 (approval_required_unless_low 0 sampleId backend_architect
                     "sudo systemctl restart service"
                     "restarting system service"
                     (withNetwork [true; false] (initialState true false))
                     eq_refl))
    as (r & s' & Hr & Hget & _).
  - vm_compute. discriminate.
  - exists r, s'. split; [exact Hr|]. split; [exact Hget|].
    apply (f_equal fst) in Hr. cbn [fst] in Hr. rewrite <- Hr.
    vm_compute. reflexivity.
Defined.

(** X6.  Whatever the rules: a context that mentions [prod] or [db], or a
    command that contains [sudo] or [root], brings the score to 20 at
    least and the level to medium at least.  With the rules of the gate
    such an operation is therefore never approved automatically. *)
Theorem context_keywords_raise_level rules command context :
  includes context "production" || includes context "prod"
  || includes context "database" || includes context "db"
  || includes command "sudo" || includes command "root" = true ->
  20 <= RiskAssessment.score (assessRisk rules command context) /\
  RiskAssessment.level (assessRisk rules command context) <> low /\
  (rules = initialPermissionRules ->
   requiresApproval rules command
     (RiskAssessment.level (assessRisk rules command context)) = true).
Proof.
  intros H.
  assert (Hscore : 20 <= RiskAssessment.score (assessRisk rules command context)).
  { rewrite assessRisk_score.
    pose proof (matchedScore_nonneg command rules).
    destruct (includes context "production"), (includes context "prod"),
      (includes context "database"), (includes context "db"),
      (includes command "sudo"), (includes command "root");
      cbn in *; try discriminate; lia. }
  assert (Hlevel : RiskAssessment.level (assessRisk rules command context)
                   <> low).
  { rewrite assessRisk_scoreLevel. unfold scoreLevel.
    repeat match goal with
           | |- context [?a <=? ?b] => destruct (Z.leb_spec a b)
           end; try discriminate; lia. }
  split; [exact Hscore|]. split; [exact Hlevel|].
  intros ->. rewrite requiresApproval_unless_low.
  rewrite bool_decide_eq_false_2 by exact Hlevel. reflexivity.
Qed.

Lemma context_keywords_raise_level_witness :
  requiresApproval initialPermissionRules "ls -la"
    (RiskAssessment.level
       (assessRisk initialPermissionRules "ls -la" "checking the prod box"))
  = true.
Proof.
  apply (proj2 (proj2 (context_keywords_raise_level initialPermissionRules
                         "ls -la" "checking the prod box" eq_refl))).
  reflexivity.
Defined.

(** *** Expiry *)

(** X30.  A request for which [requestPermission] returns to wait is in
    the pending map, pending, and its timer is armed with the timeout of
    its level.  In any state in which the request is still in the pending
    map when that timer fires, the callback resolves it: the request
    object takes the status expired, the request leaves the pending map,
    and the next poll of the waiter rejects the promise with a denial
    whose reason is "Request timeout". *)
Theorem armed_timer_expires_request now rid agent command context s s' :
  requestPermission now rid agent command context s = (Ok (Waiting rid), s') ->
  let level :=
    RiskAssessment.level (assessRisk (permissionRules s) command context) in
  timers s' = timers s ++ [(rid, getTimeoutForRisk level)] /\
  (exists l request,
      getPending s' rid = Some (l, request) /\
      PermissionRequest.status request = pending /\
      PermissionRequest.timeout request = getTimeoutForRisk level) /\
  forall later s1 l request,
    getPending s1 rid = Some (l, request) ->
    let s2 := snd (requestTimeoutCallback later rid s1) in
    fst (requestTimeoutCallback later rid s1) = Ok tt /\
    (exists request',
        heap s2 !! l = Some request' /\
        PermissionRequest.status request' = expired /\
        PermissionRequest.id request' = PermissionRequest.id request) /\
    pendingRequests s2 !! rid = None /\
    checkResponse rid s2 =
      Some (Err (PERMISSION_DENIED
                   ("Permission denied for request " +:+ rid)
                   (Some "Request timeout"))).
Proof.
  intros H level.
  destruct (requiresApproval (permissionRules s) command level) eqn:Hreq.
  - pose proof (requestPermission_pending_spec now rid agent command context
                  s Hreq) as Hs.
    cbv zeta in Hs. rewrite H in Hs. cbn [fst snd] in Hs.
    destruct Hs as (_ & Hh & Hp & _ & _ & _ & (_ & Ht & _) & _).
    split; [exact Ht|]. split.
    { eexists _, _. split.
      - unfold getPending.
        rewrite Hp, lookup_insert_eq, Hh, lookup_insert_eq. reflexivity.
      - split; reflexivity. }
    intros later s1 l request Hget.
    exact (requestTimeoutCallback_expires later rid s1 l request Hget).
  - unfold requestPermission in H. rewrite bind_gets in H. fold level in H.
    rewrite Hreq in H. discriminate.
Qed.

Lemma armed_timer_expires_request_witness :
  timers sampleRequested = [(sampleId, 600000)] /\
  checkResponse sampleId sampleExpired =
    Some (Err (PERMISSION_DENIED
                 ("Permission denied for request " +:+ sampleId)
                 (Some "Request timeout"))).
Proof.
  destruct (armed_timer_expires_request 1000 sampleId devops_engineer
              "rm -rf node_modules" "cleaning up dependencies"
              (initialState true true) sampleRequested)
    as (Ht & (l & request & Hget & _) & Hfire).
  - vm_compute. reflexivity.
  - split; [exact Ht|].
    exact (proj2 (proj2 (proj2 (Hfire 601000 sampleRequested l request
                                  Hget)))).
Defined.

(** *** What every run of the gate keeps *)

(** the store and the pending map after each operation *)
Lemma respondToRequest_store now requestId approved reason respondedBy s :
  snd (respondToRequest now requestId approved reason respondedBy s) = s \/
  exists l request request',
    pendingRequests s !! requestId = Some l /\
    heap s !! l = Some request /\
    heap (snd (respondToRequest now requestId approved reason respondedBy s))
      = <[l := request']> (heap s) /\
    pendingRequests
      (snd (respondToRequest now requestId approved reason respondedBy s))
      = delete requestId (pendingRequests s).
Proof.
  destruct (getPending s requestId) as [[l request]|] eqn:Hget;
    [|left; rewrite getPending_None_respond by exact Hget; reflexivity].
  destruct (decide (PermissionRequest.status request = pending)) as [Hst|Hst];
    [|left; rewrite (getPending_resolved _ _ _ _ _ _ _ _ Hget Hst);
      reflexivity].
  right.
  destruct (respondToRequest_pending_spec now requestId approved reason
              respondedBy s l request Hget Hst) as (Hh & Hp & _).
  unfold getPending in Hget.
  destruct (pendingRequests s !! requestId) as [l'|] eqn:Hl; [|discriminate].
  destruct (heap s !! l') as [r|] eqn:Hr; [|discriminate].
  injection Hget as -> ->. eexists l, request, _.
  split; [reflexivity|]. split; [exact Hr|]. split; [exact Hh|exact Hp].
Qed.

Lemma cancelRequest_store now requestId reason s :
  snd (cancelRequest now requestId reason s) = s \/
  exists l request request',
    pendingRequests s !! requestId = Some l /\
    heap s !! l = Some request /\
    heap (snd (cancelRequest now requestId reason s))
      = <[l := request']> (heap s) /\
    pendingRequests (snd (cancelRequest now requestId reason s))
      = delete requestId (pendingRequests s).
Proof.
  unfold cancelRequest. run.
  destruct (getPending s requestId) as [[l request]|] eqn:Hget; [|left; reflexivity].
  right. unfold getPending in Hget.
  destruct (pendingRequests s !! requestId) as [l'|] eqn:Hp; [|discriminate].
  destruct (heap s !! l') as [r|] eqn:Hh; [|discriminate].
  injection Hget as -> ->. eexists l, request, _.
  split; [reflexivity|]. split; [exact Hh|]. split; reflexivity.
Qed.

Lemma requestPermission_store now rid agent command context s :
  snd (requestPermission now rid agent command context s) = s \/
  exists request,
    PermissionRequest.status request = pending /\
    heap s !! fresh (dom (heap s)) = None /\
    heap (snd (requestPermission now rid agent command context s))
      = <[fresh (dom (heap s)) := request]> (heap s) /\
    pendingRequests (snd (requestPermission now rid agent command context s))
      = <[rid := fresh (dom (heap s))]> (pendingRequests s).
Proof.
  destruct (requiresApproval (permissionRules s) command
              (RiskAssessment.level
                 (assessRisk (permissionRules s) command context))) eqn:Hreq.
  - right.
    destruct (requestPermission_pending_spec now rid agent command context s
                Hreq) as (Hfresh & Hh & Hp & _).
    eexists. split; [|split; [exact Hfresh|split; [exact Hh|exact Hp]]].
    reflexivity.
  - left. unfold requestPermission. rewrite bind_gets, Hreq. reflexivity.
Qed.

(** the removal of a request keeps the others as they are *)
Lemma pendingArePending_removed s s' requestId l request request' :
  pendingArePending s ->
  pendingRequests s !! requestId = Some l ->
  heap s !! l = Some request ->
  heap s' = <[l := request']> (heap s) ->
  pendingRequests s' = delete requestId (pendingRequests s) ->
  pendingArePending s'.
Proof.
  intros [Hobj Hinj] Hp Hh Hheap Hpend. split.
  - intros id l0. rewrite Hpend, Hheap. intros Hl0.
    apply lookup_delete_Some in Hl0 as [Hne Hl0].
    assert (l0 <> l) by (intros ->; apply Hne; eapply Hinj; eauto).
    rewrite lookup_insert_ne by congruence. eapply Hobj, Hl0.
  - intros id1 id2 l0. rewrite Hpend. intros H1 H2.
    apply lookup_delete_Some in H1 as [_ H1].
    apply lookup_delete_Some in H2 as [_ H2]. eapply Hinj; eauto.
Qed.

Lemma pendingArePending_act a s :
  pendingArePending s -> pendingArePending (act a s).
Proof.
  intros Hinv.
  destruct a as [now rid agent command context
                |now requestId approved reason respondedBy
                |now requestId reason|now requestId]; cbn [act].
  - destruct (requestPermission_store now rid agent command context s)
      as [->|(request & Hst & Hfresh & Hheap & Hpend)]; [exact Hinv|].
    destruct Hinv as [Hobj Hinj].
    assert (Hold : forall id l0, pendingRequests s !! id = Some l0 ->
                                 l0 <> fresh (dom (heap s))).
    { intros id l0 Hl0 ->. destruct (Hobj id _ Hl0) as (r & Hr & _).
      congruence. }
    split.
    + intros id l0. rewrite Hpend, Hheap. intros Hl0.
      apply lookup_insert_Some in Hl0 as [[<- <-]|[Hne Hl0]].
      * exists request. rewrite lookup_insert_eq. auto.
      * rewrite lookup_insert_ne by (intros Heq; eapply Hold; eauto).
        eapply Hobj, Hl0.
    + intros id1 id2 l0. rewrite Hpend. intros H1 H2.
      apply lookup_insert_Some in H1 as [[<- <-]|[Hne1 H1]];
        apply lookup_insert_Some in H2 as [[<- Heq]|[Hne2 H2]];
        try reflexivity.
      * exfalso. eapply Hold; eauto.
      * exfalso. eapply Hold; eauto.
      * eapply Hinj; eauto.
  - destruct (respondToRequest_store now requestId approved reason
                respondedBy s)
      as [->|(l & request & request' & Hp & Hh & Hheap & Hpend)];
      [exact Hinv|].
    eapply pendingArePending_removed; eauto.
  - destruct (cancelRequest_store now requestId reason s)
      as [->|(l & request & request' & Hp & Hh & Hheap & Hpend)];
      [exact Hinv|].
    eapply pendingArePending_removed; eauto.
  - unfold requestTimeoutCallback. rewrite (bind_Ok get _ s s s eq_refl).
    destruct (bool_decide _); [|exact Hinv].
    destruct (cancelRequest_store now requestId (Some "Request timeout") s)
      as [->|(l & request & request' & Hp & Hh & Hheap & Hpend)];
      [exact Hinv|].
    eapply pendingArePending_removed; eauto.
Qed.

Lemma pendingArePending_acts l s :
  pendingArePending s -> pendingArePending (acts l s).
Proof.
  revert s. induction l as [|a l IH]; intros s H; [exact H|].
  apply IH, pendingArePending_act, H.
Qed.

Lemma pendingArePending_initialState answers twilio pushover :
  pendingArePending (withNetwork answers (initialState twilio pushover)).
Proof. split; cbn; intros *; rewrite lookup_empty; discriminate. Qed.

(** X7.  In every state that the gate reaches from its construction
    through requests, responses, cancellations and timers, whatever the
    network answers, each request of the pending map is an object whose
    status is pending.  A response in such a state fails with
    REQUEST_NOT_FOUND when the pending map has no request of that
    identity; otherwise it takes the request out of the pending map, and
    returns or rejects with the error of a notification service:
    REQUEST_ALREADY_RESOLVED is never raised. *)
Theorem pending_requests_are_pending answers twilio pushover actions :
  let s := acts actions (withNetwork answers (initialState twilio pushover)) in
  pendingArePending s /\
  forall now requestId approved reason respondedBy,
    let r := respondToRequest now requestId approved reason respondedBy s in
    match pendingRequests s !! requestId with
    | Some _ =>
        pendingRequests (snd r) = delete requestId (pendingRequests s) /\
        match fst r with
        | Ok _ => True
        | Err e => channelError e = true /\ reliable s = false
        end
    | None => r = (Err (REQUEST_NOT_FOUND requestId), s)
    end.
Proof.
  intros s.
  assert (Hinv : pendingArePending s).
  { apply pendingArePending_acts, pendingArePending_initialState. }
  split; [exact Hinv|].
  intros now requestId approved reason respondedBy r.
  destruct (pendingRequests s !! requestId) as [l|] eqn:Hp.
  - destruct (proj1 Hinv requestId l Hp) as (request & Hh & Hst).
    assert (Hget : getPending s requestId = Some (l, request)).
    { unfold getPending. rewrite Hp, Hh. reflexivity. }
    destruct (respondToRequest_pending_spec now requestId approved reason
                respondedBy s l request Hget Hst)
      as (_ & Hpend & _ & _ & _ & _ & Hres & _).
    split; [exact Hpend|exact Hres].
  - apply getPending_None_respond, getPending_absent, Hp.
Qed.

(** *** The history that is exposed *)

(** X8.  [getPermissionHistory] returns no entry, whatever the limit and
    whatever the gate has recorded: the request of a recorded response is
    looked up with [findRequestInHistory], which finds none.  So it is
    after a response has been recorded, too. *)
Theorem permission_history_is_empty :
  (forall limit s, getPermissionHistory limit s = []) /\
  (forall now requestId approved reason respondedBy s s' limit,
     respondToRequest now requestId approved reason respondedBy s
       = (Ok tt, s') ->
     is_Some (permissionHistory s' !! requestId) /\
     getPermissionHistory limit s' = []).
Proof.
  assert (H : forall limit s, getPermissionHistory limit s = []).
  { intros limit s. unfold getPermissionHistory, findRequestInHistory.
    assert (Hnil : forall l : list (string * PermissionResponse.t),
              omap (fun entry : string * PermissionResponse.t =>
                      @None (PermissionRequest.t * PermissionResponse.t)) l
              = []).
    { induction l as [|x l IH]; [reflexivity|exact IH]. }
    rewrite Hnil. cbn. unfold slice0. destruct (_ <? _); apply take_nil. }
  split; [exact H|].
  intros now requestId approved reason respondedBy s s' limit Hr.
  split; [|apply H].
  apply respondToRequest_Ok in Hr as [_ ->]. eauto.
Qed.

Lemma permission_history_is_empty_witness :
  is_Some (permissionHistory sampleApproved !! sampleId) /\
  getPermissionHistory None sampleApproved = [].
Proof.
  apply (proj2 permission_history_is_empty 2000 sampleId true
           (Some "Approved") (Some "dashboard-user") sampleRequested
           sampleApproved None).
  vm_compute. reflexivity.
Defined.

End GateLifecycle.

(** ** The resource ledger: soundness, persistence, eviction *)

Module LedgerSoundness.
Import ContextManager ContextManagerFacts.

Ltac run :=
  cbv [bind ret throw get gets modify emit updateTotalUsage
       persistContextState removePersistedState].

(** *** Sizes *)

Lemma totalSize_app l1 l2 : totalSize (l1 ++ l2) = totalSize l1 + totalSize l2.
Proof. induction l1 as [|x l1 IH]; simpl; [reflexivity|]. rewrite IH. lia. Qed.

Lemma totalSize_Permutation l1 l2 :
  Permutation l1 l2 -> totalSize l1 = totalSize l2.
Proof. induction 1; simpl; lia. Qed.

Lemma totalSize_nonneg l : nonnegSizes l -> 0 <= totalSize l.
Proof. induction 1; simpl; lia. Qed.

Lemma percentage_zero persona : (percentage 0 persona == 0)%Q.
Proof. unfold percentage, Qdiv. rewrite Qmult_0_l. apply Qmult_0_l. Qed.

(** *** Soundness reads the windows, the files and the limits *)

Lemma windowSound_ext s s' persona :
  contextWindows s' persona = contextWindows s persona ->
  disk s' persona = disk s persona ->
  limitsOf s' = limitsOf s ->
  windowSound s persona -> windowSound s' persona.
Proof. unfold windowSound. intros -> -> ->. tauto. Qed.

(** a sound window that takes the place of the window of [persona], with
    its file *)
Lemma ledgerSound_replace s s' persona :
  limitsOf s' = limitsOf s ->
  (forall q, q <> persona ->
     contextWindows s' q = contextWindows s q /\ disk s' q = disk s q) ->
  windowSound s' persona ->
  ledgerSound s -> ledgerSound s'.
Proof.
  intros Hlim Hother Hp [Hl Hs]. split; [congruence|].
  intros q. destruct (decide (q = persona)) as [->|Hq]; [exact Hp|].
  destruct (Hother q Hq). apply (windowSound_ext s); auto.
Qed.

Lemma ledgerSound_same s s' :
  limitsOf s' = limitsOf s ->
  (forall q, contextWindows s' q = contextWindows s q /\ disk s' q = disk s q) ->
  ledgerSound s -> ledgerSound s'.
Proof.
  intros Hlim Hsame [Hl Hs]. split; [congruence|].
  intros q. destruct (Hsame q). apply (windowSound_ext s); auto.
Qed.

Lemma ledgerSound_initialState : ledgerSound initialState.
Proof.
  split; [reflexivity|]. intros persona. unfold windowSound. cbn.
  repeat split; try constructor.
  destruct persona; vm_compute; discriminate.
Qed.

(** *** [removeContext], in full *)

Lemma removeContext_full now persona itemPath s :
  match removeFirst itemPath (itemsOf s persona) with
  | None => removeContext now persona itemPath s = (Ok false, s)
  | Some (removed, rest) =>
      let window := contextWindows s persona in
      let window' :=
        ContextWindow.mk (ContextWindow.persona window) rest
          (ContextWindow.currentUsage window - ContextItem.size removed)
          now (ContextWindow.priority window) in
      exists s',
        removeContext now persona itemPath s = (Ok true, s') /\
        limitsOf s' = limitsOf s /\
        contextWindows s' persona = window' /\
        disk s' persona = Some window' /\
        (forall q, q <> persona ->
           contextWindows s' q = contextWindows s q /\
           disk s' q = disk s q /\
           recordedUsage s' q = recordedUsage s q) /\
        recordedUsage s' persona =
          percentage (ContextWindow.currentUsage window') persona /\
        totalUsageOf s' = mean (map (recordedUsage s') personas)
  end.
Proof.
  unfold removeContext, itemsOf. run.
  destruct (removeFirst itemPath (ContextWindow.items (contextWindows s persona)))
    as [[removed rest]|]; [|reflexivity].
  cbv zeta. eexists. split; [reflexivity|].
  unfold limitsOf, recordedUsage, totalUsageOf. cbn. rewrite !upd_same.
  split; [reflexivity|]. split; [reflexivity|]. split; [reflexivity|].
  split; [|split; reflexivity].
  intros q Hq. rewrite !upd_other by exact Hq. auto.
Qed.

Lemma removeContext_sound now persona itemPath s :
  ledgerSound s -> ledgerSound (snd (removeContext now persona itemPath s)).
Proof.
  intros Hs. pose proof (removeContext_full now persona itemPath s) as H.
  destruct (removeFirst itemPath (itemsOf s persona)) as [[removed rest]|] eqn:Hr;
    [|rewrite H; exact Hs].
  destruct H as (s' & -> & Hlim & Hw & Hd & Hother & _). cbn [snd].
  apply (ledgerSound_replace s s' persona Hlim);
    [intros q Hq; destruct (Hother q Hq) as (? & ? & _); auto| |exact Hs].
  destruct (proj2 Hs persona) as (Hp & Hprio & Htot & Hnn & Hpct & _).
  apply removeFirst_Some in Hr as (front & back & Hitems & -> & _).
  unfold itemsOf in Hitems.
  assert (Hsize : 0 <= ContextItem.size removed).
  { unfold nonnegSizes in Hnn. rewrite Hitems in Hnn.
    apply Forall_app in Hnn as [_ Hnn]. inversion Hnn; assumption. }
  unfold windowSound. rewrite Hw, Hd, Hlim. cbn.
  split; [exact Hp|]. split; [exact Hprio|]. split.
  { rewrite Htot, Hitems, !totalSize_app. simpl. lia. }
  split.
  { unfold nonnegSizes in *. rewrite Hitems in Hnn.
    apply Forall_app in Hnn as [Hf Hb]. apply Forall_app. split; [exact Hf|].
    inversion Hb; assumption. }
  split; [|reflexivity].
  eapply Qle_trans; [|exact Hpct]. apply percentage_mono. lia.
Qed.

(** *** Loops *)

Lemma for_each_keeps {S A} (P : S -> Prop) (body : A -> M S unit) l :
  (forall x s, P s -> exists s', body x s = (Ok tt, s') /\ P s') ->
  forall s, P s -> exists s', for_each l body s = (Ok tt, s') /\ P s'.
Proof.
  intros Hbody. induction l as [|x l IH]; intros s Hs; simpl.
  - exists s. auto.
  - destruct (Hbody x s Hs) as (s1 & Hx & H1).
    destruct (IH s1 H1) as (s2 & Hl & H2).
    exists s2. erewrite bind_Ok by exact Hx. auto.
Qed.

Lemma performAutomaticCleanup_sound now persona requiredSpace s :
  ledgerSound s ->
  ledgerSound (snd (performAutomaticCleanup now persona requiredSpace s)).
Proof.
  intros Hs. unfold performAutomaticCleanup. rewrite bind_gets.
  destruct (selectItems _ _ _) as [chosen freedSpace].
  destruct (for_each_keeps ledgerSound
              (fun itemPath =>
                 do _ <- removeContext now persona itemPath; ret tt)
              (map ContextItem.path chosen)) with (s := s)
    as (s' & Hl & Hs'); [|exact Hs|].
  { intros p st Hst.
    destruct (removeContext_effect now persona p st) as (b & st' & Hr & _).
    exists st'. erewrite bind_Ok by exact Hr. split; [reflexivity|].
    pose proof (removeContext_sound now persona p st Hst) as H.
    rewrite Hr in H. exact H. }
  erewrite bind_Ok by exact Hl. cbv [emit modify]. cbn [snd].
  eapply ledgerSound_same; [| |exact Hs']; [reflexivity|auto].
Qed.

(** *** [addContext] *)

Lemma appended_full now persona item usagePercentage s :
  let window := contextWindows s persona in
  let window' :=
    ContextWindow.mk (ContextWindow.persona window)
      (ContextWindow.items window ++ [item])
      (ContextWindow.currentUsage window + ContextItem.size item)
      now (ContextWindow.priority window) in
  let s' := appended now persona item usagePercentage s in
  limitsOf s' = limitsOf s /\
  contextWindows s' persona = window' /\
  disk s' persona = Some window' /\
  (forall q, q <> persona ->
     contextWindows s' q = contextWindows s q /\ disk s' q = disk s q).
Proof.
  unfold appended, limitsOf. run. cbn.
  destruct (Qle_bool _ usagePercentage); cbn; rewrite !upd_same;
    (split; [reflexivity|]); (split; [reflexivity|]); (split; [reflexivity|]);
    intros q Hq; rewrite !upd_other by exact Hq; auto.
Qed.

Lemma appended_sound now persona item usagePercentage s :
  (percentage (usedBy s persona + ContextItem.size item) persona
     <= ContextLimits.maxPercentage (limitsOf s))%Q ->
  0 <= ContextItem.size item ->
  ledgerSound s -> ledgerSound (appended now persona item usagePercentage s).
Proof.
  intros Hfit Hsize Hs.
  destruct (appended_full now persona item usagePercentage s)
    as (Hlim & Hw & Hd & Hother).
  apply (ledgerSound_replace s _ persona Hlim Hother); [|exact Hs].
  destruct (proj2 Hs persona) as (Hp & Hprio & Htot & Hnn & _).
  unfold windowSound. rewrite Hw, Hd, Hlim. cbn.
  split; [exact Hp|]. split; [exact Hprio|]. split.
  { rewrite Htot, totalSize_app. simpl. lia. }
  split; [apply Forall_app; split; [exact Hnn|repeat constructor; exact Hsize]|].
  split; [exact Hfit|reflexivity].
Qed.

Lemma addContext_sound now persona item s :
  ledgerSound s -> ledgerSound (snd (addContext now persona item s)).
Proof.
  intros Hs. rewrite addContext_eq. cbv zeta.
  pose proof (calculateItemSize_nonneg item) as Hsize.
  destruct (Qgt_bool (percentage (usedBy s persona + calculateItemSize item)
                        persona) _) eqn:Hover.
  - pose proof (performAutomaticCleanup_sound now persona
                  (calculateItemSize item) s Hs) as Hc.
    destruct (performAutomaticCleanup_effect now persona
                (calculateItemSize item) s) as (s' & Hp & [Hlim _] & _).
    rewrite Hp in *. cbn [snd] in *.
    destruct (Qgt_bool (percentage (usedBy s' persona + calculateItemSize item)
                          persona) _) eqn:Hover'; cbn [snd]; [exact Hc|].
    apply appended_sound; [|exact Hsize|exact Hc].
    rewrite Hlim. apply Qgt_bool_false, Hover'.
  - cbn [snd]. apply appended_sound; [|exact Hsize|exact Hs].
    apply Qgt_bool_false, Hover.
Qed.

(** *** [cleanup] and [emergencyCleanup] *)

Lemma cleanup_full now persona s :
  let window := contextWindows s persona in
  exists s',
    cleanup now persona s = (Ok tt, s') /\
    limitsOf s' = limitsOf s /\
    contextWindows s' persona =
      ContextWindow.mk (ContextWindow.persona window) [] 0 now
        (ContextWindow.priority window) /\
    disk s' persona = None /\
    recordedUsage s' persona = 0%Q /\
    totalUsageOf s' = mean (map (recordedUsage s') personas) /\
    (forall q, q <> persona ->
       contextWindows s' q = contextWindows s q /\
       disk s' q = disk s q /\
       recordedUsage s' q = recordedUsage s q).
Proof.
  unfold cleanup. run. cbv zeta. eexists. split; [reflexivity|].
  unfold limitsOf, recordedUsage, totalUsageOf. cbn. rewrite !upd_same.
  repeat (split; [reflexivity|]).
  intros q Hq. rewrite !upd_other by exact Hq. auto.
Qed.

Lemma cleanup_sound now persona s :
  ledgerSound s -> ledgerSound (snd (cleanup now persona s)).
Proof.
  intros Hs. destruct (cleanup_full now persona s)
    as (s' & -> & Hlim & Hw & Hd & _ & _ & Hother). cbn [snd].
  apply (ledgerSound_replace s s' persona Hlim);
    [intros q Hq; destruct (Hother q Hq) as (? & ? & _); auto| |exact Hs].
  destruct (proj2 Hs persona) as (Hp & Hprio & _).
  unfold windowSound. rewrite Hw, Hd, Hlim. cbn.
  split; [exact Hp|]. split; [exact Hprio|]. split; [reflexivity|].
  split; [constructor|]. split; [|reflexivity].
  rewrite percentage_zero. rewrite (proj1 Hs). discriminate.
Qed.

(** the loop of [emergencyCleanup]: the windows it has visited are empty,
    and an empty window stays empty *)
Lemma emergencyLoop_effect now keys :
  forall acc s,
    ledgerSound s ->
    exists acc' s',
      emergencyLoop now keys acc s = (Ok acc', s') /\
      ledgerSound s' /\
      (forall p, In p keys \/ itemsOf s p = [] -> itemsOf s' p = []).
Proof.
  induction keys as [|k keys IH]; intros acc s Hs; simpl.
  - exists acc, s. split; [reflexivity|]. split; [exact Hs|].
    intros p [[]|H]; exact H.
  - rewrite bind_gets.
    destruct (ContextWindow.items (contextWindows s k)) as [|i its] eqn:Hk.
    + destruct (IH acc s Hs) as (acc' & s' & Hl & Hs' & He).
      exists acc', s'. split; [exact Hl|]. split; [exact Hs'|].
      intros p [[<-|Hin]|Hp]; apply He; auto.
    + destruct (cleanup_full now k s)
        as (s1 & Hc & _ & Hw & _ & _ & _ & Hother).
      pose proof (cleanup_sound now k s Hs) as Hs1. rewrite Hc in Hs1.
      cbn [snd] in Hs1.
      destruct (IH (fst acc + Z.of_nat (length (i :: its)),
                    snd acc + ContextWindow.currentUsage (contextWindows s k))
                  s1 Hs1) as (acc' & s' & Hl & Hs' & He).
      exists acc', s'. erewrite bind_Ok by exact Hc.
      split; [exact Hl|]. split; [exact Hs'|].
      intros p Hp. apply He.
      destruct (decide (p = k)) as [->|Hne].
      * right. unfold itemsOf. rewrite Hw. reflexivity.
      * destruct Hp as [[Heq|Hin]|Hp]; [congruence|auto|].
        right. unfold itemsOf in *. rewrite (proj1 (Hother p Hne)). exact Hp.
Qed.

Lemma emergencyCleanup_full now s :
  ledgerSound s ->
  exists s',
    emergencyCleanup now s = (Ok tt, s') /\
    ledgerSound s' /\
    (forall p, itemsOf s' p = [] /\ usedBy s' p = 0 /\
               recordedUsage s' p = 0%Q) /\
    totalUsageOf s' = 0%Q.
Proof.
  intros Hs. unfold emergencyCleanup.
  destruct (emergencyLoop_effect now personas (0, 0) s Hs)
    as (acc' & s1 & Hl & Hs1 & He).
  erewrite bind_Ok by exact Hl. cbv [bind modify emit]. cbn [fst snd].
  eexists. split; [reflexivity|].
  match goal with |- ledgerSound ?st /\ _ => assert (Hst : ledgerSound st) end.
  { eapply ledgerSound_same; [| |exact Hs1]; [reflexivity|auto]. }
  split; [exact Hst|]. split; [|reflexivity].
  intros p.
  assert (Hp : itemsOf s1 p = []).
  { apply He. left. destruct p; cbn; tauto. }
  split; [exact Hp|]. split; [|reflexivity].
  destruct (proj2 Hs1 p) as (_ & _ & Htot & _).
  unfold usedBy. cbn. rewrite Htot. unfold itemsOf in Hp. rewrite Hp.
  reflexivity.
Qed.

Lemma call_sound c s : ledgerSound s -> ledgerSound (call c s).
Proof.
  intros Hs. destruct c; cbn [call].
  - apply addContext_sound, Hs.
  - apply removeContext_sound, Hs.
  - apply performAutomaticCleanup_sound, Hs.
  - apply cleanup_sound, Hs.
  - destruct (emergencyCleanup_full now s Hs) as (s' & -> & Hs' & _).
    exact Hs'.
  - unfold calculateUsage. run. cbn [snd].
    eapply ledgerSound_same; [| |exact Hs]; [reflexivity|auto].
Qed.

Lemma calls_sound l s : ledgerSound s -> ledgerSound (calls l s).
Proof.
  revert s. induction l as [|c l IH]; intros s Hs; [exact Hs|].
  apply IH, call_sound, Hs.
Qed.

(** X9.  Whatever sequence of calls the ledger has served since its
    construction (reservations, releases, automatic, manual and emergency
    cleanups, usage queries), for every persona the running total of its
    window is the sum of the sizes of the items it holds, no size is
    negative, the total is within 40% of the capacity, and the file of
    the persona is a copy of the window, a persona without a file having
    an empty window. *)
Theorem ledger_stays_sound l persona :
  let s := calls l initialState in
  let window := contextWindows s persona in
  ContextWindow.currentUsage window = totalSize (ContextWindow.items window)
  /\
  Forall (fun item => 0 <= ContextItem.size item) (ContextWindow.items window)
  /\
  (percentage (ContextWindow.currentUsage window) persona <= 40)%Q /\
  ContextWindow.persona window = persona /\
  match disk s persona with
  | Some file => file = window
  | None => ContextWindow.items window = [] /\
            ContextWindow.currentUsage window = 0
  end.
Proof.
  intros s window.
  pose proof (calls_sound l initialState ledgerSound_initialState) as [Hl Hs].
  fold s in Hl, Hs.
  destruct (Hs persona) as (Hp & _ & Htot & Hnn & Hpct & Hd).
  fold window in Hp, Htot, Hnn, Hpct, Hd.
  rewrite Hl in Hpct. cbn in Hpct.
  split; [exact Htot|]. split; [exact Hnn|]. split; [exact Hpct|].
  split; [exact Hp|].
  destruct (disk s persona); [exact Hd|].
  split; [exact Hd|]. rewrite Htot, Hd. reflexivity.
Qed.

End LedgerSoundness.

(** ** The resource ledger: releases, cleanups, restarts *)

Module LedgerLifecycle.
Import ContextManager ContextManagerFacts LedgerSoundness.

(** *** Paths *)

Lemma removeFirst_first itemPath front removed back :
  Forall (fun item => ContextItem.path item <> itemPath) front ->
  ContextItem.path removed = itemPath ->
  removeFirst itemPath (front ++ removed :: back)
  = Some (removed, front ++ back).
Proof.
  intros Hfront Hpath. induction Hfront as [|x front Hx _ IH]; simpl.
  - rewrite bool_decide_eq_true_2 by exact Hpath. reflexivity.
  - rewrite bool_decide_eq_false_2 by exact Hx. rewrite IH. reflexivity.
Qed.

Lemma removeFirst_absent itemPath items :
  Forall (fun item => ContextItem.path item <> itemPath) items ->
  removeFirst itemPath items = None.
Proof.
  induction 1 as [|x items Hx _ IH]; simpl; [reflexivity|].
  rewrite bool_decide_eq_false_2 by exact Hx. rewrite IH. reflexivity.
Qed.

Lemma distinctPaths_inj items x y :
  distinctPaths items -> In x items -> In y items ->
  ContextItem.path x = ContextItem.path y -> x = y.
Proof.
  unfold distinctPaths. induction items as [|i items IH]; simpl; [tauto|].
  intros Hnd Hx Hy Hxy. apply NoDup_cons in Hnd as [Hi Hnd].
  destruct Hx as [->|Hx], Hy as [->|Hy]; auto.
  - exfalso. apply Hi. rewrite Hxy. apply list_elem_of_In, in_map, Hy.
  - exfalso. apply Hi. rewrite <- Hxy. apply list_elem_of_In, in_map, Hx.
Qed.

Lemma removedSize_distinct items e :
  distinctPaths items -> In e items ->
  removedSize (ContextItem.path e) items = ContextItem.size e.
Proof.
  intros Hd He. unfold removedSize.
  destruct (removeFirst (ContextItem.path e) items) as [[removed rest]|] eqn:Hr.
  - apply removeFirst_Some in Hr as (front & back & Hitems & _ & Hpath & _).
    assert (removed = e) as ->; [|reflexivity].
    apply (distinctPaths_inj items); auto.
    rewrite Hitems. apply in_or_app. right. left. reflexivity.
  - apply removeFirst_None in Hr. rewrite Forall_forall in Hr.
    exfalso. apply (Hr e); [apply list_elem_of_In, He|reflexivity].
Qed.

(** with pairwise distinct paths, removing the paths of [chosen] takes
    off the sizes of [chosen] *)
Lemma removedTotal_distinct chosen :
  forall items,
    distinctPaths items ->
    NoDup (map ContextItem.path chosen) ->
    (forall e, In e chosen -> In e items) ->
    removedTotal (map ContextItem.path chosen) items = totalSize chosen.
Proof.
  induction chosen as [|e chosen IH]; intros items Hd Hnd Hin; simpl;
    [reflexivity|].
  apply NoDup_cons in Hnd as [He Hnd].
  rewrite removedSize_distinct by (auto; apply Hin; left; reflexivity).
  rewrite IH; [reflexivity| |exact Hnd|].
  - apply (distinctPaths_sublist _ items); [apply removePath_sublist|exact Hd].
  - intros e' He'. rewrite removePath_distinct by exact Hd.
    apply list_elem_of_In, list_elem_of_filter. split.
    + intros Heq. apply He. rewrite <- Heq.
      apply list_elem_of_In, in_map, He'.
    + apply list_elem_of_In, Hin. right. exact He'.
Qed.

Lemma filter_none {A} (P : A -> Prop) `{forall x, Decision (P x)} (l : list A) :
  (forall x, x ∈ l -> ~ P x) -> filter P l = [].
Proof.
  induction l as [|x l IH]; intros Hl; [reflexivity|].
  rewrite filter_cons. destruct (decide (P x)) as [Hx|_].
  - exfalso. apply (Hl x); [left|exact Hx].
  - apply IH. intros y Hy. apply Hl. right. exact Hy.
Qed.

(** what the eviction chooses in a window of pairwise distinct paths *)
Lemma evictedItems_distinct requiredSpace items :
  distinctPaths items ->
  let evicted := evictedItems requiredSpace items in
  exists rest,
    Permutation items (evicted ++ rest) /\
    (rest = [] \/ requiredSpace <= totalSize evicted) /\
    removedTotal (map ContextItem.path evicted) items = totalSize evicted /\
    fold_left (fun its p => removePath p its)
      (map ContextItem.path evicted) items
    = filter (fun i => ContextItem.path i ∉ map ContextItem.path evicted)
        items.
Proof.
  intros Hd evicted. unfold evictedItems in evicted.
  destruct (selectItems requiredSpace 0 (sort_by itemPriority items))
    as [chosen freed] eqn:Hsel.
  apply selectItems_spec in Hsel as (rest & Hsorted & Hfreed & Hstop & _).
  cbn [fst] in evicted. subst evicted. exists rest.
  assert (Hperm : Permutation items (chosen ++ rest)).
  { rewrite <- Hsorted. apply sort_by_Permutation. }
  split; [exact Hperm|]. split; [rewrite Hfreed in Hstop; exact Hstop|].
  split; [|apply fold_removePath_distinct, Hd].
  apply removedTotal_distinct; [exact Hd| |].
  - assert (Hnd : NoDup (map ContextItem.path (chosen ++ rest))).
    { unfold distinctPaths in Hd.
      rewrite <- (Permutation_map ContextItem.path Hperm). exact Hd. }
    rewrite map_app in Hnd. apply NoDup_app in Hnd as [Hnd _]. exact Hnd.
  - intros e He. eapply Permutation_in; [symmetry; exact Hperm|].
    apply in_or_app. left. exact He.
Qed.

(** *** Sums over the windows *)

Lemma held_agree s s' keys :
  (forall p, In p keys -> contextWindows s' p = contextWindows s p) ->
  itemsHeld s' keys = itemsHeld s keys /\ spaceHeld s' keys = spaceHeld s keys.
Proof.
  induction keys as [|k keys IH]; intros Hk; simpl; [auto|].
  destruct IH as [-> ->]; [intros p Hp; apply Hk; right; exact Hp|].
  unfold itemsOf, usedBy. rewrite (Hk k) by (left; reflexivity). auto.
Qed.

Lemma emergencyLoop_totals now keys :
  forall acc s,
    NoDup keys -> ledgerSound s ->
    fst (emergencyLoop now keys acc s)
    = Ok (fst acc + itemsHeld s keys, snd acc + spaceHeld s keys).
Proof.
  induction keys as [|k keys IH]; intros acc s Hnd Hs; simpl.
  - cbv [ret]. cbn. destruct acc; cbn. apply f_equal, pair_equal_spec. lia.
  - apply NoDup_cons in Hnd as [Hk Hnd]. rewrite bind_gets.
    destruct (proj2 Hs k) as (_ & _ & Htot & _).
    unfold itemsOf at 1. unfold usedBy at 1.
    destruct (ContextWindow.items (contextWindows s k)) as [|i its] eqn:Hitems.
    + rewrite IH by assumption. rewrite Htot. cbn.
      apply f_equal, pair_equal_spec. lia.
    + destruct (cleanup_full now k s)
        as (s1 & Hc & _ & _ & _ & _ & _ & Hother).
      pose proof (cleanup_sound now k s Hs) as Hs1. rewrite Hc in Hs1.
      cbn [snd] in Hs1. erewrite bind_Ok by exact Hc.
      rewrite IH by assumption. cbn [fst snd].
      destruct (held_agree s s1 keys) as [-> ->].
      { intros p Hp. apply Hother. intros ->. apply Hk, list_elem_of_In, Hp. }
      apply f_equal, pair_equal_spec. cbn [length]. lia.
Qed.

Lemma NoDup_personas : NoDup personas.
Proof. apply (bool_decide_unpack _). vm_compute. exact I. Qed.

Lemma In_personas p : In p personas.
Proof. destruct p; cbn; tauto. Qed.

(** *** [loadPersistedState] *)

Lemma loadWindow_full persona s :
  exists s',
    loadWindow persona s = (Ok tt, s') /\
    disk s' = disk s /\ limitsOf s' = limitsOf s /\
    (forall q, q <> persona ->
       contextWindows s' q = contextWindows s q /\
       recordedUsage s' q = recordedUsage s q) /\
    match disk s persona with
    | None =>
        contextWindows s' persona = contextWindows s persona /\
        recordedUsage s' persona = recordedUsage s persona
    | Some file =>
        contextWindows s' persona =
          ContextWindow.mk (ContextWindow.persona (contextWindows s persona))
            (ContextWindow.items file) (ContextWindow.currentUsage file)
            (ContextWindow.lastUpdated file)
            (if decide (ContextWindow.priority file = 0)
             then getPersonaPriority persona
             else ContextWindow.priority file) /\
        recordedUsage s' persona =
          percentage (ContextWindow.currentUsage file) persona
    end.
Proof.
  unfold loadWindow. rewrite bind_gets.
  destruct (disk s persona) as [file|] eqn:Hfile.
  - cbv [bind ret gets modify]. cbv zeta. eexists. split; [reflexivity|].
    unfold limitsOf, recordedUsage. cbn. rewrite !upd_same.
    split; [reflexivity|]. split; [reflexivity|]. split; [|auto].
    intros q Hq. rewrite !upd_other by exact Hq. auto.
  - exists s. cbv [ret]. repeat split; reflexivity.
Qed.

(** the loop of [loadPersistedState] over [keys], from a state whose
    files are those that the sound state [s0] left *)
Lemma load_loop_effect s0 keys :
  ledgerSound s0 ->
  NoDup keys ->
  forall s,
    disk s = disk s0 ->
    (forall p, ContextWindow.persona (contextWindows s p) = p) ->
    exists s',
      for_each keys loadWindow s = (Ok tt, s') /\
      disk s' = disk s0 /\ limitsOf s' = limitsOf s /\
      (forall p, ContextWindow.persona (contextWindows s' p) = p) /\
      (forall p, ~ In p keys ->
         contextWindows s' p = contextWindows s p /\
         recordedUsage s' p = recordedUsage s p) /\
      (forall p, In p keys ->
         match disk s0 p with
         | Some _ =>
             contextWindows s' p = contextWindows s0 p /\
             recordedUsage s' p = usageOf s0 p
         | None =>
             contextWindows s' p = contextWindows s p /\
             recordedUsage s' p = recordedUsage s p
         end).
Proof.
  intros Hs0. induction keys as [|k keys IH]; intros Hnd s Hd Hp; simpl.
  - exists s. cbv [ret]. repeat split; auto. intros p [].
  - apply NoDup_cons in Hnd as [Hk Hnd].
    destruct (loadWindow_full k s) as (s1 & Hl & Hd1 & Hlim1 & Hother & Hat).
    assert (Hp1 : forall p, ContextWindow.persona (contextWindows s1 p) = p).
    { intros p. destruct (decide (p = k)) as [->|Hne].
      - destruct (disk s k); [|rewrite (proj1 Hat); apply Hp].
        rewrite (proj1 Hat). cbn. apply Hp.
      - rewrite (proj1 (Hother p Hne)). apply Hp. }
    destruct (IH Hnd s1) as (s' & Hl' & Hd' & Hlim' & Hp' & Hout & Hin);
      [congruence|exact Hp1|].
    exists s'. erewrite bind_Ok by exact Hl.
    split; [exact Hl'|]. split; [exact Hd'|]. split; [congruence|].
    split; [exact Hp'|]. split.
    + intros p Hnp.
      destruct (Hout p) as [-> ->]; [intros H; apply Hnp; right; exact H|].
      apply Hother. intros ->. apply Hnp. left. reflexivity.
    + intros p [<-|Hpk].
      * destruct (Hout k) as [-> ->]; [intros H; apply Hk, list_elem_of_In, H|].
        rewrite Hd in Hat.
        destruct (proj2 Hs0 k) as (Hpk & Hprio & _ & _ & _ & Hfile).
        destruct (disk s0 k) as [file|]; [|exact Hat].
        destruct Hat as [-> ->]. subst file. split; [|reflexivity].
        rewrite Hp, Hprio.
        destruct (decide (getPersonaPriority k = 0)) as [H0|_];
          [destruct k; discriminate H0|].
        rewrite <- Hprio, <- Hpk at 1.
        destruct (contextWindows s0 k); cbn in *. congruence.
      * pose proof (Hin p Hpk) as H.
        assert (Hne : p <> k).
        { intros ->. apply Hk, list_elem_of_In, Hpk. }
        destruct (disk s0 p); [exact H|].
        destruct H as [-> ->]. apply Hother, Hne.
Qed.

(** *** The mean of the recorded usages *)

Lemma fold_Qplus_le (l : list Q) (t : Q) :
  (forall x, In x l -> (x <= t)%Q) ->
  forall acc,
    (fold_left Qplus l acc <= acc + inject_Z (Z.of_nat (length l)) * t)%Q.
Proof.
  induction l as [|x l IH]; intros Hl acc.
  - cbn. rewrite Qmult_0_l, Qplus_0_r. apply Qle_refl.
  - cbn [fold_left length]. eapply Qle_trans.
    { apply IH. intros y Hy. apply Hl. right. exact Hy. }
    rewrite Nat2Z.inj_succ, <- Z.add_1_r, inject_Z_plus.
    assert (Hx : (x <= t)%Q) by (apply Hl; left; reflexivity).
    setoid_replace ((acc + (inject_Z (Z.of_nat (length l)) + inject_Z 1) * t)%Q)
      with ((acc + t + inject_Z (Z.of_nat (length l)) * t)%Q)
      using relation Qeq by ring.
    apply Qplus_le_compat; [|apply Qle_refl].
    apply Qplus_le_compat; [apply Qle_refl|exact Hx].
Qed.

Lemma mean_le (l : list Q) (t : Q) :
  l <> [] -> (forall x, In x l -> (x <= t)%Q) -> (mean l <= t)%Q.
Proof.
  intros Hne Hl. unfold mean.
  assert (Hn : (0 < inject_Z (Z.of_nat (length l)))%Q).
  { change 0%Q with (inject_Z 0). rewrite <- Zlt_Qlt.
    destruct l; [congruence|cbn [length]; lia]. }
  apply Qle_shift_div_r; [exact Hn|].
  pose proof (fold_Qplus_le l t Hl 0) as H. rewrite Qplus_0_l in H.
  rewrite Qmult_comm. exact H.
Qed.

Lemma highUsageAgents_nil s :
  highUsageAgents s = [] <->
  forall p, (recordedUsage s p
               <= ContextLimits.warningThreshold (limitsOf s))%Q.
Proof.
  unfold highUsageAgents. split.
  - intros Hnil p.
    destruct (Qgt_bool (recordedUsage s p)
                (ContextLimits.warningThreshold (limitsOf s))) eqn:Hp;
      [|apply Qgt_bool_false, Hp].
    assert (Hin : p ∈ filter
              (fun persona =>
                 Qgt_bool (recordedUsage s persona)
                   (ContextLimits.warningThreshold (limitsOf s)) = true)
              personas).
    { apply list_elem_of_filter. split; [exact Hp|].
      apply list_elem_of_In, In_personas. }
    rewrite Hnil in Hin. inversion Hin.
  - intros Hall. apply filter_none. intros p _ Hp.
    apply Qgt_bool_true in Hp. apply (Qlt_not_le _ _ Hp), Hall.
Qed.

Lemma Math_round_quarters x n :
  (x == inject_Z n / 4)%Q -> Math_round x = (n + 2) / 4.
Proof.
  intros H. unfold Math_round.
  transitivity (Qfloor ((n + 2) # 4)); [|reflexivity].
  apply Qfloor_comp. rewrite H. unfold Qeq. cbn. lia.
Qed.

(** X10.  A release looks the item up by path.  When no item of the
    window has the path, it returns false and changes nothing.  Otherwise
    it returns true, having removed the first item of that path and no
    other, taken its size off the running total, recorded the exact usage
    of the window, set the total to the mean of the recorded usages and
    written the window to its file; it emits no event and leaves the
    other personas as they were.  It never throws. *)
Theorem release_removes_first_match now persona itemPath s :
  (Forall (fun item => ContextItem.path item <> itemPath) (itemsOf s persona)
   -> removeContext now persona itemPath s = (Ok false, s)) /\
  (forall front removed back,
     itemsOf s persona = front ++ removed :: back ->
     Forall (fun item => ContextItem.path item <> itemPath) front ->
     ContextItem.path removed = itemPath ->
     exists s',
       removeContext now persona itemPath s = (Ok true, s') /\
       itemsOf s' persona = front ++ back /\
       usedBy s' persona = usedBy s persona - ContextItem.size removed /\
       recordedUsage s' persona = usageOf s' persona /\
       totalUsageOf s' = mean (map (recordedUsage s') personas) /\
       disk s' persona = Some (contextWindows s' persona) /\
       emitted s' = emitted s /\
       forall q, q <> persona ->
         contextWindows s' q = contextWindows s q /\
         disk s' q = disk s q /\
         recordedUsage s' q = recordedUsage s q).
Proof.
  split.
  - intros Habsent. unfold removeContext. rewrite bind_gets.
    unfold itemsOf in Habsent. rewrite (removeFirst_absent _ _ Habsent).
    reflexivity.
  - intros front removed back Hitems Hfront Hpath.
    unfold removeContext. rewrite bind_gets. unfold itemsOf in Hitems.
    rewrite Hitems, (removeFirst_first _ _ _ _ Hfront Hpath).
    cbv [bind ret gets modify updateTotalUsage persistContextState].
    cbv zeta. eexists. split; [reflexivity|].
    unfold itemsOf, usedBy, recordedUsage, usageOf, totalUsageOf. cbn.
    rewrite !upd_same. cbn.
    repeat (split; [reflexivity|]).
    intros q Hq. rewrite !upd_other by exact Hq. auto.
Qed.

Lemma release_removes_first_match_witness :
  exists s',
    removeContext 5 technical_writer "/a"
      (runOps [Reserve 1 technical_writer largeFile] initialState)
    = (Ok true, s') /\
    itemsOf s' technical_writer = [].
Proof.
  destruct (proj2 (release_removes_first_match 5 technical_writer "/a"
                     (runOps [Reserve 1 technical_writer largeFile]
                        initialState))
              [] (ContextItem.with_size 2001 largeFile) [])
    as (s' & Hr & Hitems & _).
  - vm_compute. reflexivity.
  - constructor.
  - reflexivity.
  - exists s'. split; [exact Hr|exact Hitems].
Defined.

(** X11.  In every state the ledger reaches, [emergencyCleanup] returns;
    it leaves every window empty with a running total of 0, every
    recorded usage and the total at 0, and the event it emits last
    reports the number of items and the space that the windows held
    together. *)
Theorem emergency_cleanup_resets l now :
  let s := calls l initialState in
  exists s',
    emergencyCleanup now s = (Ok tt, s') /\
    (forall p, itemsOf s' p = [] /\ usedBy s' p = 0 /\
               recordedUsage s' p = 0%Q) /\
    totalUsageOf s' = 0%Q /\
    last (emitted s')
    = Some (context_emergency_cleanup (itemsHeld s personas)
              (spaceHeld s personas) now).
Proof.
  intros s.
  assert (Hs : ledgerSound s) by apply calls_sound, ledgerSound_initialState.
  destruct (emergencyCleanup_full now s Hs) as (s' & Hr & _ & Hall & Htot).
  exists s'. split; [exact Hr|]. split; [exact Hall|]. split; [exact Htot|].
  pose proof (emergencyLoop_totals now personas (0, 0) s NoDup_personas Hs)
    as Hacc.
  unfold emergencyCleanup in Hr.
  destruct (emergencyLoop now personas (0, 0) s) as [[acc|e] s1] eqn:Hloop;
    cbn [fst] in Hacc; [|discriminate].
  injection Hacc as ->.
  erewrite bind_Ok in Hr by exact Hloop.
  cbv [bind modify emit] in Hr. cbn [fst snd] in Hr.
  injection Hr as <-. cbn [emitted]. apply last_snoc.
Qed.

(** X12.  A new manager that loads the files which a run of the ledger
    left has, for every persona, the items, the running total, the
    persona and the priority that the window had in that run (the whole
    window when the persona has a file), and records as usage of each
    persona the exact usage of its window, the total being the mean of
    these. *)
Theorem restart_restores_windows l :
  let s := calls l initialState in
  exists s',
    loadPersistedState (restarted s) = (Ok tt, s') /\
    disk s' = disk s /\
    (forall p,
       itemsOf s' p = itemsOf s p /\
       usedBy s' p = usedBy s p /\
       ContextWindow.persona (contextWindows s' p) = p /\
       ContextWindow.priority (contextWindows s' p) = getPersonaPriority p /\
       (recordedUsage s' p == usageOf s p)%Q /\
       (disk s p <> None -> contextWindows s' p = contextWindows s p)) /\
    totalUsageOf s' = mean (map (recordedUsage s') personas).
Proof.
  intros s.
  assert (Hs : ledgerSound s) by apply calls_sound, ledgerSound_initialState.
  destruct (load_loop_effect s personas Hs NoDup_personas (restarted s))
    as (s1 & Hl & Hd & _ & _ & _ & Hin); [reflexivity|reflexivity|].
  unfold loadPersistedState. erewrite bind_Ok by exact Hl.
  cbv [updateTotalUsage modify]. eexists. split; [reflexivity|].
  unfold itemsOf, usedBy, recordedUsage, usageOf, totalUsageOf. cbn.
  split; [exact Hd|]. split; [|reflexivity].
  intros p. pose proof (Hin p (In_personas p)) as Hp.
  destruct (proj2 Hs p) as (Hpers & Hprio & Htot & _ & _ & Hfile).
  unfold recordedUsage, usageOf in Hp.
  destruct (disk s p) as [file|].
  - destruct Hp as [-> ->].
    do 2 (split; [reflexivity|]). split; [exact Hpers|].
    split; [exact Hprio|]. split; [reflexivity|]. intros _. reflexivity.
  - destruct Hp as [-> ->]. cbn. rewrite Htot, Hfile. cbn.
    do 4 (split; [reflexivity|]).
    split; [symmetry; apply percentage_zero|].
    intros H. exfalso. apply H. reflexivity.
Qed.

(** X13.  A reservation that needs no eviction, of an item whose path no
    item of the window has, followed by the release of that path, leaves
    the window with the items and the running total it had, and the
    recorded usage of the persona is then the exact usage of the window;
    the other windows are untouched. *)
Theorem reserve_then_release now now' persona item s :
  Qgt_bool (percentage (usedBy s persona + calculateItemSize item) persona)
    (ContextLimits.maxPercentage (limitsOf s)) = false ->
  Forall (fun i => ContextItem.path i <> ContextItem.path item)
    (itemsOf s persona) ->
  let s1 := snd (addContext now persona item s) in
  fst (addContext now persona item s) = Ok tt /\
  exists s2,
    removeContext now' persona (ContextItem.path item) s1 = (Ok true, s2) /\
    itemsOf s2 persona = itemsOf s persona /\
    usedBy s2 persona = usedBy s persona /\
    recordedUsage s2 persona = usageOf s persona /\
    forall q, q <> persona -> contextWindows s2 q = contextWindows s q.
Proof.
  intros Hfits Hfresh s1. subst s1. rewrite addContext_eq. cbv zeta.
  rewrite Hfits. cbn [fst snd]. split; [reflexivity|].
  set (item' := ContextItem.with_size (calculateItemSize item) item).
  set (s1 := appended _ _ _ _ _).
  destruct (appended_effect now persona item'
              (percentage (usedBy s persona + calculateItemSize item) persona)
              s) as ([_ Hoth] & Hitems & Hused & _).
  fold s1 in Hoth, Hitems, Hused.
  pose proof (removeContext_full now' persona (ContextItem.path item) s1) as H.
  rewrite Hitems in H.
  replace (itemsOf s persona ++ [item'])
    with (itemsOf s persona ++ item' :: []) in H by reflexivity.
  rewrite (removeFirst_first (ContextItem.path item) (itemsOf s persona)
             item' [] Hfresh eq_refl) in H.
  cbv zeta in H. destruct H as (s2 & Hr & _ & Hw & _ & Hother & Hrec & _).
  rewrite <- Hw in Hrec.
  assert (Hi2 : itemsOf s2 persona = itemsOf s persona).
  { unfold itemsOf at 1. rewrite Hw. cbn. apply app_nil_r. }
  assert (Hu2 : usedBy s2 persona = usedBy s persona).
  { unfold usedBy at 1. rewrite Hw. cbn. fold (usedBy s1 persona).
    rewrite Hused. cbn. lia. }
  exists s2. split; [exact Hr|]. split; [exact Hi2|]. split; [exact Hu2|].
  split.
  - rewrite Hrec. unfold usageOf. fold (usedBy s2 persona).
    fold (usedBy s persona). rewrite Hu2. reflexivity.
  - intros q Hq. rewrite (proj1 (Hother q Hq)). apply Hoth, Hq.
Qed.

Lemma reserve_then_release_witness :
  exists s2,
    removeContext 2 technical_writer "/a"
      (snd (addContext 1 technical_writer largeFile initialState))
    = (Ok true, s2) /\
    itemsOf s2 technical_writer = [] /\
    usedBy s2 technical_writer = 0.
Proof.
  destruct (reserve_then_release 1 2 technical_writer largeFile initialState)
    as (_ & s2 & Hr & Hitems & Hused & _).
  - vm_compute. reflexivity.
  - constructor.
  - exists s2. split; [exact Hr|]. split; [exact Hitems|exact Hused].
Defined.

(** X14.  The size of an item is a quarter of the lengths of its path and
    of its content, rounded half up; an item without content, or with an
    empty one, counts the fixed size of its type in place of the content
    (file 100, interface 50, dependency 25, config 30).  The size that
    the caller declares plays no part. *)
Theorem item_size_formula item :
  calculateItemSize item =
    match ContextItem.content item with
    | Some (String c rest) =>
        (str_length (ContextItem.path item)
         + str_length (String c rest) + 2) / 4
    | _ =>
        typeSizes (ContextItem.type item)
        + (str_length (ContextItem.path item) + 2) / 4
    end /\
  forall declared,
    calculateItemSize (ContextItem.with_size declared item)
    = calculateItemSize item.
Proof.
  split; [|intros declared; destruct item; reflexivity].
  unfold calculateItemSize. cbv zeta.
  destruct (ContextItem.content item) as [[|c rest]|].
  - rewrite (Math_round_quarters _
               (str_length (ContextItem.path item)
                + 4 * typeSizes (ContextItem.type item))).
    + rewrite <- Z.add_assoc, (Z.add_comm (4 * _)), Z.add_assoc,
        (Z.mul_comm 4), Z.div_add by lia. lia.
    + rewrite inject_Z_plus, inject_Z_mult. field.
  - apply Math_round_quarters. rewrite inject_Z_plus. field.
  - rewrite (Math_round_quarters _
               (str_length (ContextItem.path item)
                + 4 * typeSizes (ContextItem.type item))).
    + rewrite <- Z.add_assoc, (Z.add_comm (4 * _)), Z.add_assoc,
        (Z.mul_comm 4), Z.div_add by lia. lia.
    + rewrite inject_Z_plus, inject_Z_mult. field.
Qed.

(** X15.  In a window whose running total is the sum of the sizes of its
    items, none negative, whose paths are pairwise distinct and whose
    usage is within the ceiling, a reservation succeeds exactly when the
    item alone fits under the ceiling.  When it fails, the error is
    CONTEXT_OVERFLOW with the usage of the item alone, and the eviction
    has emptied the window. *)
Theorem reservation_fits_alone now persona item s :
  let itemSize := calculateItemSize item in
  let maxPercentage := ContextLimits.maxPercentage (limitsOf s) in
  let r := addContext now persona item s in
  usedBy s persona = totalSize (itemsOf s persona) ->
  nonnegSizes (itemsOf s persona) ->
  distinctPaths (itemsOf s persona) ->
  (usageOf s persona <= maxPercentage)%Q ->
  (fst r = Ok tt <-> (percentage itemSize persona <= maxPercentage)%Q) /\
  (fst r <> Ok tt ->
   fst r = Err (CONTEXT_OVERFLOW (percentage itemSize persona) maxPercentage)
   /\ itemsOf (snd r) persona = [] /\ usedBy (snd r) persona = 0).
Proof.
  intros itemSize maxPercentage r Htot Hnn Hd Hmax. subst r.
  rewrite addContext_eq. cbv zeta. fold itemSize maxPercentage.
  pose proof (calculateItemSize_nonneg item) as Hsize. fold itemSize in Hsize.
  pose proof (totalSize_nonneg _ Hnn) as Hused0. rewrite <- Htot in Hused0.
  unfold usageOf in Hmax. fold (usedBy s persona) in Hmax.
  destruct (Qgt_bool (percentage (usedBy s persona + itemSize) persona)
              maxPercentage) eqn:Hover.
  2:{ cbn [fst snd]. split; [|congruence]. split; [|reflexivity].
      intros _. apply Qgt_bool_false in Hover.
      eapply Qle_trans; [|exact Hover]. apply percentage_mono. lia. }
  destruct (performAutomaticCleanup_effect now persona itemSize s)
    as (s' & Hp & _ & Hitems & Hused).
  rewrite Hp. cbn [snd].
  destruct (evictedItems_distinct itemSize (itemsOf s persona) Hd)
    as (rest & Hperm & Hstop & Hrem & Hfold).
  rewrite Hrem in Hused. rewrite Hfold in Hitems.
  assert (Hsum : usedBy s persona
                 = totalSize (evictedItems itemSize (itemsOf s persona))
                   + totalSize rest).
  { rewrite Htot, (totalSize_Permutation _ _ Hperm), totalSize_app.
    reflexivity. }
  assert (Hrest : 0 <= totalSize rest).
  { apply totalSize_nonneg. unfold nonnegSizes in *.
    rewrite Forall_forall in *. intros x Hx. apply Hnn. rewrite Hperm.
    apply elem_of_app. right. exact Hx. }
  destruct Hstop as [->|Hge].
  - assert (Hzero : usedBy s' persona = 0)
      by (change (totalSize []) with 0 in Hsum; lia).
    assert (Hnil : itemsOf s' persona = []).
    { rewrite Hitems. apply filter_none. intros x Hx Hnot. apply Hnot.
      apply list_elem_of_In, in_map, list_elem_of_In.
      rewrite Hperm, app_nil_r in Hx. exact Hx. }
    rewrite Hzero, Z.add_0_l.
    destruct (Qgt_bool (percentage itemSize persona) maxPercentage) eqn:Hover';
      cbn [fst snd].
    + split; [|intros _; auto]. split; [discriminate|].
      intros Hle. apply Qgt_bool_true in Hover'.
      destruct (Qlt_not_le _ _ Hover' Hle).
    + split; [|congruence]. split; [|reflexivity].
      intros _. apply Qgt_bool_false, Hover'.
  - assert (Hfit : (percentage (usedBy s' persona + itemSize) persona
                      <= maxPercentage)%Q).
    { eapply Qle_trans; [|exact Hmax]. apply percentage_mono. lia. }
    destruct (Qgt_bool (percentage (usedBy s' persona + itemSize) persona)
                maxPercentage) eqn:Hover'; cbn [fst snd].
    + apply Qgt_bool_true in Hover'. destruct (Qlt_not_le _ _ Hover' Hfit).
    + split; [|congruence]. split; [|reflexivity].
      intros _. eapply Qle_trans; [|exact Hfit]. apply percentage_mono. lia.
Qed.

Lemma reservation_fits_alone_witness :
  fst (addContext 2 technical_writer smallFile
         (runOps [Reserve 1 technical_writer largeFile] initialState))
  = Ok tt <->
  (percentage (calculateItemSize smallFile) technical_writer <= 40)%Q.
Proof.
  apply (reservation_fits_alone 2 technical_writer smallFile
           (runOps [Reserve 1 technical_writer largeFile] initialState)).
  - vm_compute. reflexivity.
  - apply (bool_decide_unpack _). vm_compute. exact I.
  - apply (bool_decide_unpack _). vm_compute. exact I.
  - vm_compute. discriminate.
Defined.

(** X16.  In a window of pairwise distinct paths the automatic cleanup
    takes exactly the sizes of the items it chose off the running total
    and removes exactly those items; the event it emits last reports
    their number and that space; and it stops only when the space asked
    for is freed or the window is empty. *)
Theorem cleanup_frees_reported_space now persona requiredSpace s :
  let evicted := evictedItems requiredSpace (itemsOf s persona) in
  distinctPaths (itemsOf s persona) ->
  exists s',
    performAutomaticCleanup now persona requiredSpace s = (Ok tt, s') /\
    usedBy s' persona = usedBy s persona - totalSize evicted /\
    itemsOf s' persona =
      filter (fun i => ContextItem.path i ∉ map ContextItem.path evicted)
        (itemsOf s persona) /\
    last (emitted s')
    = Some (context_cleanup_completed persona
              (Z.of_nat (length evicted)) (totalSize evicted)) /\
    (itemsOf s' persona = [] \/ requiredSpace <= totalSize evicted).
Proof.
  intros evicted Hd.
  destruct (evictedItems_distinct requiredSpace (itemsOf s persona) Hd)
    as (rest & Hperm & Hstop & Hrem & Hfold). fold evicted in Hperm, Hstop,
    Hrem, Hfold.
  unfold performAutomaticCleanup. rewrite bind_gets.
  unfold evictedItems, itemsOf in evicted.
  destruct (selectItems requiredSpace 0
              (sort_by itemPriority
                 (ContextWindow.items (contextWindows s persona))))
    as [chosen freed] eqn:Hsel.
  cbn [fst] in evicted. subst evicted.
  apply selectItems_spec in Hsel as (_ & _ & Hfreed & _). cbn in Hfreed.
  destruct (removal_loop_effect now persona (map ContextItem.path chosen) s)
    as (s1 & Hl & _ & Hitems & Hused).
  erewrite bind_Ok by exact Hl. cbv [emit modify]. eexists.
  split; [reflexivity|].
  unfold usedBy, itemsOf in *. cbn.
  rewrite Hused, Hitems, Hrem, Hfold, length_map, Hfreed.
  split; [reflexivity|]. split; [reflexivity|]. split; [apply last_snoc|].
  destruct Hstop as [->|Hge]; [left|right; exact Hge].
  apply filter_none. intros x Hx Hnot. apply Hnot.
  apply list_elem_of_In, in_map, list_elem_of_In.
  rewrite Hperm, app_nil_r in Hx. exact Hx.
Qed.

Lemma cleanup_frees_reported_space_witness :
  exists s',
    performAutomaticCleanup 2 technical_writer 501
      (runOps [Reserve 1 technical_writer largeFile] initialState)
    = (Ok tt, s') /\
    usedBy s' technical_writer = 0.
Proof.
  destruct (cleanup_frees_reported_space 2 technical_writer 501
              (runOps [Reserve 1 technical_writer largeFile] initialState))
    as (s' & Hr & Hused & _).
  - apply (bool_decide_unpack _). vm_compute. exact I.
  - exists s'. split; [exact Hr|]. rewrite Hused. vm_compute. reflexivity.
Defined.

(** X17.  The status carries no recommendation exactly when no recorded
    usage and not the total is above the warning threshold; it carries
    two lines for the personas above it and two for the total.  When the
    total is the mean of the recorded usages, a total above the
    threshold comes with a persona above it, so that all four lines are
    there. *)
Theorem status_recommendations s :
  let status := getContextStatus s in
  let threshold := ContextLimits.warningThreshold (limitsOf s) in
  (ContextStatus.recommendations status = [] <->
   (forall p, (recordedUsage s p <= threshold)%Q) /\
   (totalUsageOf s <= threshold)%Q) /\
  (length (ContextStatus.recommendations status) =
   (if bool_decide (highUsageAgents s = []) then 0 else 2)
   + (if Qgt_bool (totalUsageOf s) threshold then 2 else 0))%nat /\
  ((totalUsageOf s == mean (map (recordedUsage s) personas))%Q ->
   (threshold < totalUsageOf s)%Q ->
   (exists p, (threshold < recordedUsage s p)%Q) /\
   length (ContextStatus.recommendations status) = 4%nat).
Proof.
  intros status threshold. subst status. unfold getContextStatus.
  cbn [ContextStatus.recommendations]. fold threshold.
  pose proof (highUsageAgents_nil s) as Hnil.
  fold threshold in Hnil.
  assert (Hmean : (totalUsageOf s == mean (map (recordedUsage s) personas))%Q
                  -> (threshold < totalUsageOf s)%Q ->
                  highUsageAgents s <> []).
  { intros Heq Hlt Hno. apply (Qlt_not_le _ _ Hlt). rewrite Heq.
    apply mean_le; [discriminate|]. intros x Hx.
    apply in_map_iff in Hx as (p & <- & _). apply Hnil, Hno. }
  destruct (Qgt_bool (totalUsageOf s) threshold) eqn:Htotal.
  - pose proof (Qgt_bool_true _ _ Htotal) as Hlt.
    split; [|split].
    + split.
      * intros H. apply app_eq_nil in H as [_ H]. discriminate H.
      * intros [_ Hle]. destruct (Qlt_not_le _ _ Hlt Hle).
    + destruct (highUsageAgents s) as [|a l];
        [rewrite bool_decide_eq_true_2 by reflexivity
        |rewrite bool_decide_eq_false_2 by discriminate]; reflexivity.
    + intros Heq _. specialize (Hmean Heq Hlt).
      destruct (highUsageAgents s) as [|a l] eqn:Hhigh; [congruence|].
      split; [|reflexivity]. exists a. apply Qgt_bool_true.
      assert (Ha : a ∈ highUsageAgents s) by (rewrite Hhigh; left).
      unfold highUsageAgents in Ha. apply list_elem_of_filter in Ha as [Ha _].
      exact Ha.
  - pose proof (Qgt_bool_false _ _ Htotal) as Hle.
    split; [|split].
    + destruct (highUsageAgents s) as [|a l] eqn:Hhigh.
      * split; [intros _|reflexivity]. split; [apply Hnil; reflexivity|exact Hle].
      * split; [discriminate|]. intros [Hall _].
        apply Hnil in Hall. discriminate Hall.
    + destruct (highUsageAgents s) as [|a l];
        [rewrite bool_decide_eq_true_2 by reflexivity
        |rewrite bool_decide_eq_false_2 by discriminate]; reflexivity.
    + intros _ Hlt. destruct (Qlt_not_le _ _ Hlt Hle).
Qed.

Lemma status_recommendations_witness :
  ContextStatus.recommendations (getContextStatus initialState) = [].
Proof.
  apply (proj1 (status_recommendations initialState)).
  split; [intros p|]; vm_compute; discriminate.
Defined.

End LedgerLifecycle.

(** ** The dispatcher: submission and routing *)

Module Routing.
Import AgentOrchestrator AgentOrchestratorFacts.

Lemma sublist_map {A B} (f : A -> B) (l1 l2 : list A) :
  sublist l1 l2 -> sublist (map f l1) (map f l2).
Proof. induction 1; simpl; constructor; assumption. Qed.

Lemma sublist_filter_l {A} (P : A -> Prop) `{forall x, Decision (P x)}
    (l : list A) :
  sublist (filter P l) l.
Proof.
  induction l as [|x l IH]; [constructor|].
  rewrite filter_cons. destruct (decide (P x)); constructor; exact IH.
Qed.

Lemma matchingKeywords_sublist text :
  sublist (matchingKeywords text) (map fst specializationKeywords).
Proof. unfold matchingKeywords. apply sublist_map, sublist_filter_l. Qed.

Lemma Math_round_le x y : (x <= y)%Q -> Math_round x <= Math_round y.
Proof.
  intros H. unfold Math_round. apply Qfloor_resp_le.
  apply Qplus_le_compat; [exact H|apply Qle_refl].
Qed.

Lemma agentScore_no_keywords agent :
  agentScore [] agent =
  (if negb (Qle_bool (inject_Z (Agent.contextLimit agent) * (8 # 10))
              (Agent.contextUsage agent)) then 5 else 0)
  + (if decide (Agent.status agent = idle) then 8
     else if decide (Agent.status agent = working) then -5 else 0).
Proof.
  unfold agentScore.
  assert (H : forall l acc,
             fold_left (fun score specialization =>
                          if array_includes [] specialization then score + 10
                          else score) l acc = acc).
  { induction l as [|x l IH]; intros acc; [reflexivity|apply IH]. }
  rewrite H.
  destruct (negb _), (decide (Agent.status agent = idle)),
    (decide (Agent.status agent = working)); lia.
Qed.

(** [assignTask] in closed form *)
Lemma assignTask_eq task s :
  assignTask task s =
  if negb (truthy (Task.id task)) || negb (truthy (Task.title task))
  then (Err INVALID_TASK, s)
  else
    match match Task.assignedAgent task with
          | Some persona => Ok persona
          | None => selectOptimalAgent (agents s) task
          end with
    | Err e => (Err e, s)
    | Ok persona =>
        match agents_get (agents s) persona with
        | None => (Err (AGENT_NOT_FOUND persona), s)
        | Some agent =>
            if Qle_bool (Task.contextRequirement task)
                 (inject_Z (Agent.contextLimit agent))
            then (Ok tt, enqueued persona task s)
            else (Err (CONTEXT_LIMIT_EXCEEDED (Task.contextRequirement task)
                         (Agent.contextLimit agent)), s)
        end
    end.
Proof.
  unfold assignTask.
  destruct (negb (truthy (Task.id task)) || negb (truthy (Task.title task)));
    [reflexivity|].
  assert (Hcheck : forall persona,
    (do roster <- gets agents;
     match agents_get roster persona with
     | None => throw (AGENT_NOT_FOUND persona)
     | Some agent =>
         if negb (Qle_bool (Task.contextRequirement
                              (Task.assign persona task))
                    (inject_Z (Agent.contextLimit agent)))
         then throw (CONTEXT_LIMIT_EXCEEDED
                       (Task.contextRequirement (Task.assign persona task))
                       (Agent.contextLimit agent))
         else
           do_ modify (fun s =>
                 mkState (agents s) (activeAgents s)
                   (taskQueue s ++ [Task.assign persona task])
                   (isRunning s) (emitted s));
           modify (fun s =>
             mkState (agents s) (activeAgents s) (taskQueue s)
               (isRunning s)
               (emitted s ++
                  [task_assigned (Task.id (Task.assign persona task))
                     persona (Task.title (Task.assign persona task))
                     (Task.priority (Task.assign persona task))]))
     end) s =
    match agents_get (agents s) persona with
    | None => (Err (AGENT_NOT_FOUND persona), s)
    | Some agent =>
        if Qle_bool (Task.contextRequirement task)
             (inject_Z (Agent.contextLimit agent))
        then (Ok tt, enqueued persona task s)
        else (Err (CONTEXT_LIMIT_EXCEEDED (Task.contextRequirement task)
                     (Agent.contextLimit agent)), s)
    end).
  { intros persona. rewrite bind_gets.
    destruct (agents_get (agents s) persona) as [agent|]; [|reflexivity].
    cbn [Task.assign Task.contextRequirement].
    destruct (Qle_bool _ _); reflexivity. }
  destruct (Task.assignedAgent task) as [named|].
  - erewrite bind_Ok by reflexivity. apply Hcheck.
  - destruct (selectOptimalAgent (agents s) task) as [persona|e] eqn:Hsel.
    + erewrite bind_Ok by (rewrite bind_gets, Hsel; reflexivity).
      apply Hcheck.
    + erewrite bind_Err by (rewrite bind_gets, Hsel; reflexivity).
      reflexivity.
Qed.

(** X18.  A submission either fails and leaves the orchestrator as it
    was, or succeeds and appends the task, with its worker, to the end of
    the queue and emits the assignment, nothing else changing.  On
    success the task has an identity and a title, its worker is in the
    roster with a context limit that is not below the requirement of the
    task, and a worker named by the submitter is the one kept; a named
    worker that the roster lacks makes the submission fail with
    AGENT_NOT_FOUND. *)
Theorem assignTask_frame task s :
  (forall e, fst (assignTask task s) = Err e -> snd (assignTask task s) = s)
  /\
  (fst (assignTask task s) = Ok tt ->
   exists persona agent,
     snd (assignTask task s) = enqueued persona task s /\
     agents_get (agents s) persona = Some agent /\
     (Task.contextRequirement task <= inject_Z (Agent.contextLimit agent))%Q /\
     truthy (Task.id task) = true /\ truthy (Task.title task) = true /\
     (forall named, Task.assignedAgent task = Some named -> persona = named))
  /\
  (forall named,
     truthy (Task.id task) = true -> truthy (Task.title task) = true ->
     Task.assignedAgent task = Some named ->
     agents_get (agents s) named = None ->
     assignTask task s = (Err (AGENT_NOT_FOUND named), s)).
Proof.
  rewrite assignTask_eq.
  destruct (truthy (Task.id task)), (truthy (Task.title task));
    cbn [negb orb fst snd];
    try (split; [reflexivity|split; [discriminate|discriminate]]).
  set (chosen := match Task.assignedAgent task with
                 | Some persona => Ok persona
                 | None => selectOptimalAgent (agents s) task
                 end).
  assert (Hnamed : forall named, Task.assignedAgent task = Some named ->
                                 chosen = Ok named).
  { intros named H. subst chosen. rewrite H. reflexivity. }
  destruct chosen as [persona|e] eqn:Hchosen; cbn [fst snd].
  2:{ split; [reflexivity|]. split; [discriminate|].
      intros named _ _ H. specialize (Hnamed named H). discriminate. }
  destruct (agents_get (agents s) persona) as [agent|] eqn:Hget;
    cbn [fst snd].
  2:{ split; [reflexivity|]. split; [discriminate|].
      intros named _ _ H. specialize (Hnamed named H).
      injection Hnamed as ->. reflexivity. }
  destruct (Qle_bool (Task.contextRequirement task)
              (inject_Z (Agent.contextLimit agent))) eqn:Hle; cbn [fst snd].
  - split; [discriminate|]. split.
    + intros _. exists persona, agent. split; [reflexivity|].
      split; [exact Hget|]. split; [apply Qle_bool_iff, Hle|].
      split; [reflexivity|]. split; [reflexivity|].
      intros named H. specialize (Hnamed named H). congruence.
    + intros named _ _ H Hnone. specialize (Hnamed named H). congruence.
  - split; [reflexivity|]. split; [discriminate|].
    intros named _ _ H Hnone. specialize (Hnamed named H). congruence.
Qed.

Lemma assignTask_frame_witness :
  exists persona agent,
    snd (assignTask sampleTask (initialState sampleSpecializations 0))
    = enqueued persona sampleTask (initialState sampleSpecializations 0) /\
    agents_get (agents (initialState sampleSpecializations 0)) persona
    = Some agent.
Proof.
  destruct (proj1 (proj2 (assignTask_frame sampleTask
                            (initialState sampleSpecializations 0))))
    as (persona & agent & Hs & Hget & _).
  - vm_compute. reflexivity.
  - exists persona, agent. split; [exact Hs|exact Hget].
Defined.

Lemma Qfloor_half n :
  Qfloor (1 + (1 # 2) * inject_Z n + 3 + (1 # 2)) = 4 + (n + 1) / 2.
Proof.
  transitivity (Qfloor ((n + 1 + 4 * 2) # 2)).
  - apply Qfloor_comp. unfold Qeq. cbn. lia.
  - change (Qfloor ((n + 1 + 4 * 2) # 2)) with ((n + 1 + 4 * 2) / 2).
    rewrite Z.div_add by lia. lia.
Qed.

(** X19.  The analysis of a task names each specialization at most once,
    in the order of the keyword table, and its complexity is a whole
    number from 1 to 10; for a text of 3000 characters or more the
    complexity is 4 plus half the number of specializations named,
    rounded half up. *)
Theorem task_analysis_bounds task :
  let keywords := fst (analyzeTaskRequirements task) in
  let complexity := snd (analyzeTaskRequirements task) in
  sublist keywords (map fst specializationKeywords) /\
  NoDup keywords /\
  (length keywords <= 12)%nat /\
  1 <= complexity <= 10 /\
  (3000 <= str_length (taskText task) ->
   complexity = 4 + (Z.of_nat (length keywords) + 1) / 2).
Proof.
  intros keywords complexity. subst keywords complexity.
  unfold analyzeTaskRequirements. cbv zeta. cbn [fst snd].
  pose proof (matchingKeywords_sublist (taskText task)) as Hsub.
  set (keywords := matchingKeywords (taskText task)) in *.
  assert (Hlen : (length keywords <= 12)%nat).
  { apply sublist_length in Hsub. exact Hsub. }
  set (k := inject_Z (Z.of_nat (length keywords))).
  set (len := (inject_Z (str_length (taskText task)) / 1000)%Q).
  assert (Hk0 : (0 <= k)%Q).
  { unfold k. change 0%Q with (inject_Z 0). rewrite <- Zle_Qle. lia. }
  assert (Hk12 : (k <= 12)%Q).
  { unfold k. change 12%Q with (inject_Z 12). rewrite <- Zle_Qle. lia. }
  assert (Hlen0 : (0 <= len)%Q).
  { unfold len. apply Qle_shift_div_l; [reflexivity|].
    rewrite Qmult_0_l. change 0%Q with (inject_Z 0). rewrite <- Zle_Qle.
    unfold str_length. lia. }
  assert (Hmin0 : (0 <= Qmin len 3)%Q).
  { apply Q.min_glb; [exact Hlen0|discriminate]. }
  assert (Hmin3 : (Qmin len 3 <= 3)%Q) by apply Q.le_min_r.
  split; [exact Hsub|].
  split.
  { eapply sublist_NoDup; [|exact Hsub].
    apply (bool_decide_unpack _). vm_compute. exact I. }
  split; [exact Hlen|]. split; [split|].
  - change 1 with (Math_round 1). apply Math_round_le.
    apply Qle_trans with (1 + (1 # 2) * 0 + 0)%Q; [discriminate|].
    apply Qplus_le_compat; [|exact Hmin0].
    apply Qplus_le_compat; [apply Qle_refl|].
    apply Qmult_le_l; [reflexivity|exact Hk0].
  - change 10 with (Math_round 10). apply Math_round_le.
    apply Qle_trans with (1 + (1 # 2) * 12 + 3)%Q; [|discriminate].
    apply Qplus_le_compat; [|exact Hmin3].
    apply Qplus_le_compat; [apply Qle_refl|].
    apply Qmult_le_l; [reflexivity|exact Hk12].
  - intros Hlong.
    assert (Hmin : (Qmin len 3 == 3)%Q).
    { apply Q.min_r. unfold len. apply Qle_shift_div_l; [reflexivity|].
      change (3 * 1000)%Q with (inject_Z 3000). rewrite <- Zle_Qle.
      exact Hlong. }
    unfold Math_round.
    rewrite (Qfloor_comp _ (1 + (1 # 2) * k + 3 + (1 # 2))%Q)
      by (rewrite Hmin; reflexivity).
    apply Qfloor_half.
Qed.

Lemma firstBest_all_equal task score :
  forall roster entry,
    Forall (fun e => scoreFor task e = score) (entry :: roster) ->
    firstBest task (entry :: roster) = Some entry.
Proof.
  induction roster as [|a roster IH]; intros entry Hall; [reflexivity|].
  apply Forall_cons in Hall as [Hentry Hrest].
  change (firstBest task (entry :: a :: roster))
    with (match firstBest task (a :: roster) with
          | None => Some entry
          | Some best =>
              if scoreFor task best <=? scoreFor task entry then Some entry
              else Some best
          end).
  rewrite (IH a Hrest). apply Forall_cons in Hrest as [Ha _].
  rewrite Ha, Hentry, Z.leb_refl. reflexivity.
Qed.

(** X20.  On the roster that the orchestrator builds, a task whose text
    names no specialization goes to the first worker declared, the
    requirements analyst, whatever the specializations of the workers:
    all workers score alike and ties go to the first. *)
Theorem unmatched_task_goes_to_first_worker getSpecializations now task :
  fst (analyzeTaskRequirements task) = [] ->
  selectOptimalAgent (initializeAgents getSpecializations now) task
  = Ok requirements_analyst /\
  Forall (fun entry => scoreFor task entry = 13)
    (initializeAgents getSpecializations now).
Proof.
  intros Hno.
  assert (Hscores : Forall (fun entry => scoreFor task entry = 13)
                      (initializeAgents getSpecializations now)).
  { unfold initializeAgents. apply List.Forall_map, List.Forall_forall.
    intros persona _. unfold scoreFor. cbn [snd].
    rewrite Hno, agentScore_no_keywords.
    cbn [Agent.contextLimit Agent.contextUsage Agent.status].
    destruct persona; reflexivity. }
  split; [|exact Hscores].
  rewrite selectOptimalAgent_firstBest.
  unfold initializeAgents, agentConfigs in *. cbn [map] in *.
  rewrite (firstBest_all_equal task 13 _ _ Hscores). reflexivity.
Qed.

Lemma unmatched_task_goes_to_first_worker_witness :
  selectOptimalAgent (initializeAgents sampleSpecializations 0) sampleTask
  = Ok requirements_analyst.
Proof.
  apply (unmatched_task_goes_to_first_worker sampleSpecializations 0
           sampleTask).
  vm_compute. reflexivity.
Defined.

End Routing.

(** ** The task executor *)

Module TaskExecutorFacts.
Import TaskExecutor.

(** *** Maps *)

Section JsMapFacts.
Context {K V : Type} `{EqDecision K}.
Implicit Types (m : list (K * V)) (k : K) (v : V).

Lemma Map_get_set_eq m k v : Map_get (Map_set m k v) k = Some v.
Proof.
  induction m as [|[k' v'] m IH]; simpl.
  - destruct (decide (k = k)); congruence.
  - destruct (decide (k' = k)) as [->|Hne]; simpl.
    + destruct (decide (k = k)); congruence.
    + destruct (decide (k' = k)); [congruence|exact IH].
Qed.

Lemma Map_get_set_ne m k k' v :
  k <> k' -> Map_get (Map_set m k v) k' = Map_get m k'.
Proof.
  intros Hne. induction m as [|[k0 v0] m IH]; simpl.
  - destruct (decide (k = k')); congruence.
  - destruct (decide (k0 = k)) as [->|Hk]; simpl.
    + destruct (decide (k = k')); congruence.
    + destruct (decide (k0 = k')); [reflexivity|exact IH].
Qed.

Lemma Map_delete_set_fresh m k v :
  Map_get m k = None -> Map_delete (Map_set m k v) k = m.
Proof.
  induction m as [|[k' v'] m IH]; simpl; intros Hget.
  - destruct (decide (k = k)); congruence.
  - destruct (decide (k' = k)) as [->|Hne]; [discriminate|].
    simpl. destruct (decide (k' = k)); [congruence|]. rewrite IH by exact Hget.
    reflexivity.
Qed.

Lemma Map_has_false m k : Map_has m k = false -> Map_get m k = None.
Proof. unfold Map_has. destruct (Map_get m k); [discriminate|reflexivity]. Qed.

Lemma Map_set_In m k v k' v' :
  In (k', v') (Map_set m k v) -> (k', v') = (k, v) \/ In (k', v') m.
Proof.
  induction m as [|[k0 v0] m IH]; simpl.
  - intros [<-|[]]. left. reflexivity.
  - destruct (decide (k0 = k)) as [->|Hne]; simpl.
    + intros [<-|Hin]; auto.
    + intros [<-|Hin]; auto. destruct (IH Hin); auto.
Qed.

Lemma Map_set_keys m k v :
  NoDup (map fst m) -> NoDup (map fst (Map_set m k v)).
Proof.
  induction m as [|[k0 v0] m IH]; simpl; intros Hnd.
  - repeat constructor. intros Hin. inversion Hin.
  - apply NoDup_cons in Hnd as [Hk0 Hnd].
    destruct (decide (k0 = k)) as [->|Hne]; simpl.
    + apply NoDup_cons. auto.
    + apply NoDup_cons. split; [|apply IH, Hnd].
      intros Hin. apply list_elem_of_In, in_map_iff in Hin
        as ([k1 v1] & Hk1 & Hin). simpl in Hk1. subst k1.
      apply Map_set_In in Hin as [Heq|Hin]; [congruence|].
      apply Hk0, list_elem_of_In, in_map_iff. exists (k0, v1). auto.
Qed.

End JsMapFacts.

(** *** [resolveDependencies] *)

Lemma checkDependencies_open taskId s dependencies :
  Forall (succeeded s) dependencies ->
  checkDependencies taskId (completedTasks s) dependencies = Done tt.
Proof.
  induction 1 as [|depId dependencies (r & Hget & Hsucc) _ IH]; simpl;
    [reflexivity|].
  rewrite Hget, Hsucc. exact IH.
Qed.

Lemma checkDependencies_blocked taskId s front depId back :
  Forall (succeeded s) front ->
  ~ succeeded s depId ->
  checkDependencies taskId (completedTasks s) (front ++ depId :: back)
  = Thrown (Failure.TASK_EXECUTION_FAILED taskId (blockedBy s depId)).
Proof.
  intros Hfront Hdep.
  induction Hfront as [|d front (r & Hget & Hsucc) _ IH]; simpl.
  - unfold blockedBy.
    destruct (Map_get (completedTasks s) (Some depId)) as [r|] eqn:Hget;
      [|reflexivity].
    destruct (ExecutionResult.success r) eqn:Hsucc; [|reflexivity].
    exfalso. apply Hdep. exists r. auto.
  - rewrite Hget, Hsucc. exact IH.
Qed.

(** the dependencies split at the first that has not succeeded *)
Lemma first_blocked s dependencies :
  Forall (succeeded s) dependencies \/
  exists front depId back,
    dependencies = front ++ depId :: back /\
    Forall (succeeded s) front /\ ~ succeeded s depId.
Proof.
  induction dependencies as [|d dependencies IH]; [left; constructor|].
  destruct (decide (succeeded s d)) as [Hd|Hd].
  - destruct IH as [Hall|(front & depId & back & -> & Hfront & Hdep)].
    + left. constructor; assumption.
    + right. exists (d :: front), depId, back. repeat split; auto.
  - right. exists [], d, dependencies. repeat split; auto.
Qed.

(** [execute] in closed form, past the gate *)
Lemma execute_open c now later task agent s :
  Map_has (executingTasks s) (Task.id task) = false ->
  Forall (succeeded s) (Task.dependencies task) ->
  let started :=
    with_progress task_in_progress now (Task.completedAt task) task in
  let caught (current : Task.t) (errorMessage : string) :=
    let executionResult :=
      ExecutionResult.mk false None (Some errorMessage) (later - now)
        (Agent.contextUsage agent) None in
    match match Task.linearId task with
          | Some linearId => reportFailure c linearId errorMessage
          | None => None
          end with
    | Some thrown =>
        (Thrown (Failure.External thrown),
         with_progress task_failed later (Task.completedAt current) current,
         s)
    | None =>
        (Thrown (Failure.TASK_EXECUTION_FAILED (Task.id task) errorMessage),
         with_progress task_failed later (Task.completedAt current) current,
         mkState (executingTasks s)
           (Map_set (completedTasks s) (Task.id task) executionResult)
           (emitted s ++
              [executor_task_failed (Task.id task) executionResult
                 (Agent.persona agent) errorMessage]))
    end in
  execute c now later task agent s =
  match work c started agent with
  | Finished output artifacts =>
      let executionResult :=
        ExecutionResult.mk true (Some output) None (later - now)
          (Agent.contextUsage agent) (Some artifacts) in
      match match Task.linearId task with
            | Some linearId => reportSuccess c linearId executionResult
            | None => None
            end with
      | Some errorMessage =>
          caught (with_progress task_completed later (Some later) started)
            errorMessage
      | None =>
          (Done executionResult,
           with_progress task_completed later (Some later) started,
           mkState (executingTasks s)
             (Map_set (completedTasks s) (Task.id task) executionResult)
             (emitted s ++
                [executor_task_executed (Task.id task) executionResult
                   (Agent.persona agent)]))
      end
  | Failed errorMessage => caught started errorMessage
  end.
Proof.
  intros Hhas Hdeps started caught. unfold execute, resolveDependencies.
  rewrite Hhas, (checkDependencies_open _ _ _ Hdeps). cbv zeta.
  apply Map_has_false in Hhas. subst started caught.
  cbn [Task.id Task.linearId Task.completedAt with_progress].
  assert (Hs : mkState (executingTasks s) (completedTasks s) (emitted s) = s)
    by (destruct s; reflexivity).
  destruct (work c _ agent) as [output artifacts|errorMessage].
  - destruct (match Task.linearId task with
              | Some linearId => reportSuccess c linearId _
              | None => None
              end) as [errorMessage|].
    + destruct (match Task.linearId task with
                | Some linearId => reportFailure c linearId errorMessage
                | None => None
                end) as [thrown|];
        cbn [executingTasks completedTasks emitted];
        rewrite (Map_delete_set_fresh _ _ _ Hhas); [|reflexivity].
      rewrite Hs. reflexivity.
    + cbn [executingTasks completedTasks emitted].
      rewrite (Map_delete_set_fresh _ _ _ Hhas). reflexivity.
  - destruct (match Task.linearId task with
              | Some linearId => reportFailure c linearId errorMessage
              | None => None
              end) as [thrown|];
      cbn [executingTasks completedTasks emitted];
      rewrite (Map_delete_set_fresh _ _ _ Hhas); [|reflexivity].
    rewrite Hs. reflexivity.
Qed.

Lemma execute_blocked c now later task agent s front depId back :
  Map_has (executingTasks s) (Task.id task) = false ->
  Task.dependencies task = front ++ depId :: back ->
  Forall (succeeded s) front -> ~ succeeded s depId ->
  execute c now later task agent s =
  (Thrown (Failure.TASK_EXECUTION_FAILED (Task.id task) (blockedBy s depId)),
   task, s).
Proof.
  intros Hhas Hdeps Hfront Hdep. unfold execute, resolveDependencies.
  rewrite Hhas, Hdeps, (checkDependencies_blocked _ _ _ _ _ Hfront Hdep).
  reflexivity.
Qed.

Lemma dependent_refused s name result dependent rest c now later agent :
  Map_get (completedTasks s) (Some name) = Some result ->
  ExecutionResult.success result = false ->
  Task.dependencies dependent = name :: rest ->
  Map_has (executingTasks s) (Task.id dependent) = false ->
  execute c now later dependent agent s =
  (Thrown (Failure.TASK_EXECUTION_FAILED (Task.id dependent)
             ("Dependency failed: " +:+ name +:+ " - " +:+
              interpolate (ExecutionResult.error result))),
   dependent, s).
Proof.
  intros Hget Hfail Hdeps Hhas.
  rewrite (execute_blocked c now later dependent agent s [] name rest
             Hhas Hdeps (List.Forall_nil _)).
  - unfold blockedBy. rewrite Hget. reflexivity.
  - intros (r & Hget' & Hsucc). congruence.
Qed.

(** [execute] writes the status and the dates of the task only *)
Lemma execute_task_identity c now later task agent s :
  let task' := snd (fst (execute c now later task agent s)) in
  Task.id task' = Task.id task /\
  Task.assignedAgent task' = Task.assignedAgent task /\
  Task.priority task' = Task.priority task /\
  Task.dependencies task' = Task.dependencies task.
Proof.
  unfold execute.
  destruct (Map_has (executingTasks s) (Task.id task)); [repeat split|].
  destruct (resolveDependencies task s); [|repeat split].
  cbv zeta. destruct (work c _ agent) as [output artifacts|message].
  - destruct (match Task.linearId _ with
              | Some linearId => reportSuccess c linearId _
              | None => None
              end) as [message|]; [|repeat split].
    destruct (match Task.linearId _ with
              | Some linearId => reportFailure c linearId message
              | None => None
              end); repeat split.
  - destruct (match Task.linearId _ with
              | Some linearId => reportFailure c linearId message
              | None => None
              end); repeat split.
Qed.

(** when the work has finished and the report of the success to Linear
    throws, the task is failed with the date of its completion set *)
Lemma execute_report_thrown c now later task agent s linearId output
    artifacts errorMessage :
  Map_has (executingTasks s) (Task.id task) = false ->
  Forall (succeeded s) (Task.dependencies task) ->
  Task.linearId task = Some linearId ->
  work c (with_progress task_in_progress now (Task.completedAt task) task)
    agent = Finished output artifacts ->
  reportSuccess c linearId
    (ExecutionResult.mk true (Some output) None (later - now)
       (Agent.contextUsage agent) (Some artifacts)) = Some errorMessage ->
  reportFailure c linearId errorMessage = None ->
  let task' := snd (fst (execute c now later task agent s)) in
  fst (fst (execute c now later task agent s)) =
    Thrown (Failure.TASK_EXECUTION_FAILED (Task.id task) errorMessage) /\
  Task.status task' = task_failed /\
  Task.completedAt task' = Some later.
Proof.
  intros Hhas Hall Hlinear Hwork Hsuccess Hfailure.
  rewrite (execute_open c now later task agent s Hhas Hall). cbv zeta.
  rewrite Hwork, Hlinear, Hsuccess, Hfailure. repeat split.
Qed.

(** *** The invariant of sequential runs *)

Lemma resultsSound_execute c now later task agent s :
  resultsSound s -> resultsSound (snd (execute c now later task agent s)).
Proof.
  intros (Hexec & Hkeys & Hres).
  assert (Hhas : Map_has (executingTasks s) (Task.id task) = false).
  { rewrite Hexec. reflexivity. }
  destruct (first_blocked s (Task.dependencies task))
    as [Hall|(front & depId & back & Hdeps & Hfront & Hdep)].
  - rewrite (execute_open c now later task agent s Hhas Hall). cbv zeta.
    assert (Hset : forall r,
              (ExecutionResult.success r = false ->
               is_Some (ExecutionResult.error r)) ->
              Forall (fun entry =>
                        ExecutionResult.success (snd entry) = false ->
                        is_Some (ExecutionResult.error (snd entry)))
                     (Map_set (completedTasks s) (Task.id task) r)).
    { intros r Hr. apply List.Forall_forall. intros [k v] Hin.
      apply Map_set_In in Hin as [[= -> ->]|Hin]; [exact Hr|].
      rewrite List.Forall_forall in Hres. apply (Hres _ Hin). }
    assert (Hcaught : forall errorMessage current,
              resultsSound
                (snd (match match Task.linearId task with
                            | Some linearId =>
                                reportFailure c linearId errorMessage
                            | None => None
                            end with
                      | Some thrown =>
                          (@Thrown ExecutionResult.t
                             (Failure.External thrown),
                           with_progress task_failed later
                             (Task.completedAt current) current, s)
                      | None =>
                          (Thrown (Failure.TASK_EXECUTION_FAILED
                                     (Task.id task) errorMessage),
                           with_progress task_failed later
                             (Task.completedAt current) current,
                           mkState (executingTasks s)
                             (Map_set (completedTasks s) (Task.id task)
                                (ExecutionResult.mk false None
                                   (Some errorMessage) (later - now)
                                   (Agent.contextUsage agent) None))
                             (emitted s ++
                                [executor_task_failed (Task.id task)
                                   (ExecutionResult.mk false None
                                      (Some errorMessage) (later - now)
                                      (Agent.contextUsage agent) None)
                                   (Agent.persona agent) errorMessage]))
                      end))).
    { intros errorMessage current.
      destruct (match Task.linearId task with
                | Some linearId => reportFailure c linearId errorMessage
                | None => None
                end); [repeat split; assumption|].
      split; [exact Hexec|]. split; [apply Map_set_keys, Hkeys|].
      apply Hset. intros _. eexists. reflexivity. }
    destruct (work c _ agent) as [output artifacts|errorMessage].
    + destruct (match Task.linearId task with
                | Some linearId => reportSuccess c linearId _
                | None => None
                end) as [errorMessage|]; [apply Hcaught|].
      split; [exact Hexec|]. split; [apply Map_set_keys, Hkeys|].
      apply Hset. discriminate.
    + apply Hcaught.
  - rewrite (execute_blocked c now later task agent s front depId back
               Hhas Hdeps Hfront Hdep).
    repeat split; assumption.
Qed.

Lemma resultsSound_runs c l s : resultsSound s -> resultsSound (runs c l s).
Proof.
  revert s. induction l as [|r l IH]; intros s Hs; [exact Hs|].
  apply IH, resultsSound_execute, Hs.
Qed.

Lemma resultsSound_initialState : resultsSound initialState.
Proof. repeat split; constructor. Qed.

Lemma filter_success_split (results : list ExecutionResult.t) :
  (length (filter (fun r => ExecutionResult.success r = true) results)
   + length (filter (fun r => ExecutionResult.success r = false) results)
   = length results)%nat.
Proof.
  induction results as [|r results IH]; [reflexivity|].
  rewrite !filter_cons.
  destruct (decide (ExecutionResult.success r = true)) as [Ht|Hf];
    destruct (decide (ExecutionResult.success r = false)) as [Hf'|Ht'];
    cbn [length]; try lia; try congruence.
  destruct (ExecutionResult.success r); congruence.
Qed.

(** X21.  [execute] refuses a task that is executing, and a task one of
    whose dependencies has no recorded result or has a failure: it
    throws TASK_EXECUTION_FAILED, which for a dependency names the first
    such in the order of the task ("Dependency not completed: d", or
    "Dependency failed: d - message").  In both cases the work is not
    run, nothing is recorded for the task, and the executor and the task
    stay as they were. *)
Theorem dependencies_gate_execution c now later task agent s :
  (Map_has (executingTasks s) (Task.id task) = true ->
   execute c now later task agent s =
   (Thrown (Failure.TASK_EXECUTION_FAILED (Task.id task)
              "Task is already executing"), task, s)) /\
  (Map_has (executingTasks s) (Task.id task) = false ->
   forall front depId back,
     Task.dependencies task = front ++ depId :: back ->
     Forall (succeeded s) front -> ~ succeeded s depId ->
     execute c now later task agent s =
     (Thrown (Failure.TASK_EXECUTION_FAILED (Task.id task)
                (blockedBy s depId)), task, s)).
Proof.
  split.
  - intros Hhas. unfold execute. rewrite Hhas. reflexivity.
  - intros Hhas front depId back. apply execute_blocked, Hhas.
Qed.

Lemma dependencies_gate_execution_witness :
  execute AgentOrchestrator.diligent 1 2
    (Task.mk (Some "task-2") None (Some "Ship") "" task_pending
       Priority.high None ["task-1"] 10 [] 0 0 None)
    (Agent.mk "agent-qa" "QA Engineer Master" qa_engineer
       ["test-automation"] 30 working None 0)
    initialState =
  (Thrown (Failure.TASK_EXECUTION_FAILED (Some "task-2")
             "Dependency not completed: task-1"),
   Task.mk (Some "task-2") None (Some "Ship") "" task_pending
     Priority.high None ["task-1"] 10 [] 0 0 None,
   initialState).
Proof.
  apply (proj2 (dependencies_gate_execution AgentOrchestrator.diligent 1 2
                  (Task.mk (Some "task-2") None (Some "Ship") "" task_pending
                     Priority.high None ["task-1"] 10 [] 0 0 None)
                  (Agent.mk "agent-qa" "QA Engineer Master" qa_engineer
                     ["test-automation"] 30 working None 0)
                  initialState) eq_refl [] "task-1" []).
  - reflexivity.
  - constructor.
  - intros (r & Hget & _). discriminate Hget.
Defined.

(** X22.  When the gate is passed, [execute] runs the work and records
    its outcome under the identity of the task, in place of an earlier
    result of that task, leaving the results of the other tasks and the
    set of executing tasks as they were.  Work that finishes gives a
    success that carries the context usage of the agent and the time
    taken, and the task is completed.  Work that throws, as a report of
    the success to Linear that throws, gives a recorded failure with its
    message, the task is failed and [execute] throws
    TASK_EXECUTION_FAILED with that message; a task that depends on it is
    then refused with "Dependency failed".  When the report of the
    failure to Linear throws, nothing is recorded. *)
Theorem execution_is_recorded c now later task agent s :
  Map_has (executingTasks s) (Task.id task) = false ->
  Forall (succeeded s) (Task.dependencies task) ->
  let r := fst (fst (execute c now later task agent s)) in
  let task' := snd (fst (execute c now later task agent s)) in
  let s' := snd (execute c now later task agent s) in
  executingTasks s' = executingTasks s /\
  (forall k, k <> Task.id task ->
     Map_get (completedTasks s') k = Map_get (completedTasks s) k) /\
  match r with
  | Done result =>
      Map_get (completedTasks s') (Task.id task) = Some result /\
      ExecutionResult.success result = true /\
      ExecutionResult.contextUsed result = Agent.contextUsage agent /\
      ExecutionResult.duration result = later - now /\
      Task.status task' = task_completed /\
      Task.completedAt task' = Some later
  | Thrown (Failure.TASK_EXECUTION_FAILED taskId message) =>
      taskId = Task.id task /\
      Task.status task' = task_failed /\
      (exists result,
         Map_get (completedTasks s') (Task.id task) = Some result /\
         ExecutionResult.success result = false /\
         ExecutionResult.error result = Some message) /\
      forall name dependent rest c' now' later' agent',
        Task.id task = Some name ->
        Task.dependencies dependent = name :: rest ->
        Map_has (executingTasks s') (Task.id dependent) = false ->
        execute c' now' later' dependent agent' s' =
        (Thrown (Failure.TASK_EXECUTION_FAILED (Task.id dependent)
                   ("Dependency failed: " +:+ name +:+ " - " +:+ message)),
         dependent, s')
  | Thrown (Failure.External _) =>
      Task.linearId task <> None /\
      Task.status task' = task_failed /\
      s' = s
  | Thrown _ => False
  end.
Proof.
  intros Hhas Hall r task' s'. subst r task' s'.
  rewrite (execute_open c now later task agent s Hhas Hall). cbv zeta.
  assert (Hcaught : forall errorMessage,
            let result :=
              ExecutionResult.mk false None (Some errorMessage) (later - now)
                (Agent.contextUsage agent) None in
            let s' :=
              mkState (executingTasks s)
                (Map_set (completedTasks s) (Task.id task) result)
                (emitted s ++
                   [executor_task_failed (Task.id task) result
                      (Agent.persona agent) errorMessage]) in
            executingTasks s' = executingTasks s /\
            (forall k, k <> Task.id task ->
               Map_get (completedTasks s') k = Map_get (completedTasks s) k)
            /\
            (exists result,
               Map_get (completedTasks s') (Task.id task) = Some result /\
               ExecutionResult.success result = false /\
               ExecutionResult.error result = Some errorMessage) /\
            forall name dependent rest c' now' later' agent',
              Task.id task = Some name ->
              Task.dependencies dependent = name :: rest ->
              Map_has (executingTasks s') (Task.id dependent) = false ->
              execute c' now' later' dependent agent' s' =
              (Thrown (Failure.TASK_EXECUTION_FAILED (Task.id dependent)
                         ("Dependency failed: " +:+ name +:+ " - " +:+
                          errorMessage)),
               dependent, s')).
  { intros errorMessage result s'. subst s'.
    cbn [executingTasks completedTasks].
    split; [reflexivity|].
    split; [intros k Hk; apply Map_get_set_ne; congruence|].
    split; [eexists; split; [apply Map_get_set_eq|split; reflexivity]|].
    intros name dependent rest c' now' later' agent' Hname Hdeps Hhas'.
    apply (dependent_refused _ name result dependent rest);
      [|reflexivity|exact Hdeps|exact Hhas'].
    cbn [completedTasks]. rewrite <- Hname. apply Map_get_set_eq. }
  assert (Hfailed : forall errorMessage,
            match Task.linearId task with
            | Some linearId => reportFailure c linearId errorMessage
            | None => None
            end <> None ->
            Task.linearId task <> None).
  { intros errorMessage H Hnone. rewrite Hnone in H. congruence. }
  destruct (work c _ agent) as [output artifacts|errorMessage].
  - destruct (match Task.linearId task with
              | Some linearId => reportSuccess c linearId _
              | None => None
              end) as [errorMessage|].
    + destruct (match Task.linearId task with
                | Some linearId => reportFailure c linearId errorMessage
                | None => None
                end) as [thrown|] eqn:Hreport.
      * cbn [fst snd]. split; [reflexivity|]. split; [reflexivity|].
        split; [|split; reflexivity].
        apply (Hfailed errorMessage). rewrite Hreport. discriminate.
      * cbn [fst snd].
        destruct (Hcaught errorMessage) as (H1 & H2 & H3 & H4).
        split; [exact H1|]. split; [exact H2|].
        split; [reflexivity|]. split; [reflexivity|].
        split; [exact H3|exact H4].
    + cbn [fst snd executingTasks completedTasks].
      split; [reflexivity|].
      split; [intros k Hk; apply Map_get_set_ne; congruence|].
      split; [apply Map_get_set_eq|]. repeat split; reflexivity.
  - destruct (match Task.linearId task with
              | Some linearId => reportFailure c linearId errorMessage
              | None => None
              end) as [thrown|] eqn:Hreport.
    + cbn [fst snd]. split; [reflexivity|]. split; [reflexivity|].
      split; [|split; reflexivity].
      apply (Hfailed errorMessage). rewrite Hreport. discriminate.
    + cbn [fst snd].
      destruct (Hcaught errorMessage) as (H1 & H2 & H3 & H4).
      split; [exact H1|]. split; [exact H2|].
      split; [reflexivity|]. split; [reflexivity|].
      split; [exact H3|exact H4].
Qed.

Lemma execution_is_recorded_witness :
  Map_get
    (completedTasks
       (snd (execute AgentOrchestrator.diligent 1 5
               AgentOrchestrator.sampleTask
               (Agent.mk "agent-qa" "QA Engineer Master" qa_engineer
                  ["test-automation"] 30 working None 0)
               initialState)))
    (Some "task-1")
  = Some (ExecutionResult.mk true (Some "{}") None 4 0 (Some [])).
Proof.
  pose proof (execution_is_recorded AgentOrchestrator.diligent 1 5
                AgentOrchestrator.sampleTask
                (Agent.mk "agent-qa" "QA Engineer Master" qa_engineer
                   ["test-automation"] 30 working None 0)
                initialState eq_refl (List.Forall_nil _)) as H.
  cbv zeta in H. destruct H as (_ & _ & H). vm_compute in H.
  destruct H as (H & _). vm_compute. exact H.
Defined.

(** X23.  When the calls to [execute] follow one another, whatever the
    tasks, the agents and the collaborators: no task is left executing
    between two calls, each task has one recorded result at most, a
    recorded failure carries its message, and the status reports no
    executing task and as many completed and failed tasks together as
    there are recorded results. *)
Theorem sequential_runs_are_accounted c l :
  let s := runs c l initialState in
  let status := getExecutionStatus s in
  (forall k, Map_has (executingTasks s) k = false) /\
  NoDup (map fst (completedTasks s)) /\
  (forall k result,
     Map_get (completedTasks s) k = Some result ->
     ExecutionResult.success result = false ->
     is_Some (ExecutionResult.error result)) /\
  ExecutionStatus.executing status = [] /\
  (ExecutionStatus.completed status + ExecutionStatus.failed status
   = length (completedTasks s))%nat.
Proof.
  intros s status. subst status.
  destruct (resultsSound_runs c l initialState resultsSound_initialState)
    as (Hexec & Hkeys & Hres). fold s in Hexec, Hkeys, Hres.
  split; [intros k; rewrite Hexec; reflexivity|].
  split; [exact Hkeys|]. split.
  - intros k result Hget. rewrite List.Forall_forall in Hres.
    assert (Hin : In (k, result) (completedTasks s)).
    { clear -Hget. induction (completedTasks s) as [|[k' v'] m IH];
        [discriminate|]. simpl in Hget.
      destruct (decide (k' = k)) as [->|_]; [left; congruence|right; auto]. }
    apply (Hres _ Hin).
  - unfold getExecutionStatus. cbn. rewrite Hexec.
    split; [reflexivity|].
    rewrite filter_success_split. unfold Map_values. apply length_map.
Qed.

End TaskExecutorFacts.

(** ** The dispatcher: execution *)

Module DispatchFacts.
Import AgentOrchestrator.

(** *** The roster *)

Lemma agents_get_update_eq roster persona f :
  agents_get (agents_update roster persona f) persona
  = option_map f (agents_get roster persona).
Proof.
  induction roster as [|[p agent] roster IH]; simpl; [reflexivity|].
  destruct (decide (p = persona)) as [->|Hne]; simpl.
  - destruct (decide (persona = persona)); congruence.
  - destruct (decide (p = persona)); [congruence|exact IH].
Qed.

Lemma agents_get_update_ne roster persona f q :
  q <> persona ->
  agents_get (agents_update roster persona f) q = agents_get roster q.
Proof.
  intros Hq. induction roster as [|[p agent] roster IH]; simpl; [reflexivity|].
  destruct (decide (p = persona)) as [->|Hne]; simpl.
  - destruct (decide (persona = q)); [congruence|reflexivity].
  - destruct (decide (p = q)); [reflexivity|exact IH].
Qed.

Lemma Set_delete_not_in persona l : persona ∉ Set_delete persona l.
Proof.
  unfold Set_delete. intros Hin. apply list_elem_of_filter in Hin as [Hne _].
  apply Hne. reflexivity.
Qed.

(** *** The context manager never throws here *)

Lemma cleanup_Ok now persona ctx :
  ContextManager.cleanup now persona ctx
  = (Ok tt, snd (ContextManager.cleanup now persona ctx)).
Proof.
  destruct (LedgerSoundness.cleanup_full now persona ctx) as (ctx' & -> & _).
  reflexivity.
Qed.

(** *** [startAgent] and [stopAgent] in closed form *)

Lemma startAgent_eq persona task sys agent :
  agents_get (agents (orchestrator sys)) persona = Some agent ->
  let usage := ContextManager.usageOf (contextManager sys) persona in
  startAgent persona task sys =
  (Done tt,
   mkSystem
     (mkState
        (agents_update
           (agents_update (agents (orchestrator sys)) persona
              (with_work working (Some task)))
           persona (with_contextUsage usage))
        (Set_add persona (activeAgents (orchestrator sys)))
        (taskQueue (orchestrator sys)) (isRunning (orchestrator sys))
        (emitted (orchestrator sys)))
     (snd (ContextManager.calculateUsage persona (contextManager sys)))
     (taskExecutor sys)
     (lifecycle sys ++
        [agent_status_changed (Agent.id agent) persona idle working])).
Proof. intros Hget usage. unfold startAgent. rewrite Hget. reflexivity. Qed.

Lemma stopAgent_eq now persona sys agent :
  agents_get (agents (orchestrator sys)) persona = Some agent ->
  stopAgent now persona sys =
  (Done tt,
   mkSystem
     (mkState
        (agents_update
           (agents_update (agents (orchestrator sys)) persona
              (with_work idle None))
           persona (with_contextUsage 0))
        (Set_delete persona (activeAgents (orchestrator sys)))
        (taskQueue (orchestrator sys)) (isRunning (orchestrator sys))
        (emitted (orchestrator sys)))
     (snd (ContextManager.cleanup now persona (contextManager sys)))
     (taskExecutor sys)
     (lifecycle sys ++
        [agent_status_changed (Agent.id agent) persona (Agent.status agent)
           idle])).
Proof.
  intros Hget. unfold stopAgent. rewrite Hget.
  cbn [contextManager set_orchestrator].
  rewrite cleanup_Ok. reflexivity.
Qed.

Lemma executeTask_busy c now later task sys :
  busy sys task ->
  executeTask c now later task sys =
  (Done tt, task,
   mkSystem
     (mkState (agents (orchestrator sys)) (activeAgents (orchestrator sys))
        (taskQueue (orchestrator sys) ++ [task])
        (isRunning (orchestrator sys)) (emitted (orchestrator sys)))
     (contextManager sys) (taskExecutor sys) (lifecycle sys)).
Proof.
  intros (persona & agent & Hassigned & Hget & Hbusy). unfold executeTask.
  rewrite Hassigned, Hget, bool_decide_eq_false_2 by exact Hbusy.
  reflexivity.
Qed.

(** X24.  [executeTask] throws NO_ASSIGNED_AGENT for a task without an
    agent and AGENT_NOT_FOUND for an agent that the roster lacks, and
    changes nothing then.  When the agent of the task is not idle, the
    task is put back at the end of the queue and nothing else happens:
    no agent is started, no work is run, no event is emitted, and the
    call returns normally. *)
Theorem busy_agent_requeues_task c now later task sys :
  (Task.assignedAgent task = None ->
   executeTask c now later task sys
   = (Thrown Failure.NO_ASSIGNED_AGENT, task, sys)) /\
  (forall persona,
     Task.assignedAgent task = Some persona ->
     agents_get (agents (orchestrator sys)) persona = None ->
     executeTask c now later task sys
     = (Thrown (Failure.Sentra (AGENT_NOT_FOUND persona)), task, sys)) /\
  (busy sys task ->
   executeTask c now later task sys =
   (Done tt, task,
    mkSystem
      (mkState (agents (orchestrator sys)) (activeAgents (orchestrator sys))
         (taskQueue (orchestrator sys) ++ [task])
         (isRunning (orchestrator sys)) (emitted (orchestrator sys)))
      (contextManager sys) (taskExecutor sys) (lifecycle sys))).
Proof.
  split; [unfold executeTask; intros ->; reflexivity|]. split.
  - unfold executeTask. intros persona -> ->. reflexivity.
  - apply executeTask_busy.
Qed.

Lemma busy_agent_requeues_task_witness :
  executeTask diligent 1 2 (Task.assign requirements_analyst sampleTask)
    (mkSystem busyRoster ContextManager.initialState
       TaskExecutor.initialState []) =
  (Done tt, Task.assign requirements_analyst sampleTask,
   mkSystem
     (mkState (agents busyRoster) [] [Task.assign requirements_analyst
                                        sampleTask] true [])
     ContextManager.initialState TaskExecutor.initialState []).
Proof.
  apply (proj2 (proj2 (busy_agent_requeues_task diligent 1 2
                         (Task.assign requirements_analyst sampleTask)
                         (mkSystem busyRoster ContextManager.initialState
                            TaskExecutor.initialState [])))).
  eexists requirements_analyst, _.
  split; [reflexivity|]. split; [vm_compute; reflexivity|discriminate].
Defined.

(** X25.  [executeTask] on a task whose agent is idle starts the agent
    with the context usage that the ledger computes for it, runs
    [execute] with the agent so updated, and stops the agent whatever
    the outcome.  On return the agent is idle again, without a task and
    with a context usage of 0, it is not among the active agents, its
    window in the ledger is empty with no file and a recorded usage of
    0, and the other agents, the queue and the running flag are as
    before.  The call returns normally exactly when [execute] does, the
    task being then completed, and throws what [execute] throws
    otherwise, the task being failed.  The events are the start of the
    agent, the completion if any, and the stop of the agent. *)
Theorem executeTask_releases_agent c now later task sys persona agent :
  Task.assignedAgent task = Some persona ->
  agents_get (agents (orchestrator sys)) persona = Some agent ->
  Agent.status agent = idle ->
  let usage := ContextManager.usageOf (contextManager sys) persona in
  let run :=
    TaskExecutor.execute c now later task (engaged task usage agent)
      (taskExecutor sys) in
  exists task' sys',
    executeTask c now later task sys =
      (match fst (fst run) with
       | Done _ => Done tt
       | Thrown f => Thrown f
       end, task', sys') /\
    Task.status task' =
      (match fst (fst run) with
       | Done _ => task_completed
       | Thrown _ => task_failed
       end) /\
    taskExecutor sys' = snd run /\
    agents_get (agents (orchestrator sys')) persona = Some (released agent) /\
    (forall q, q <> persona ->
       agents_get (agents (orchestrator sys')) q
       = agents_get (agents (orchestrator sys)) q) /\
    (persona ∉ activeAgents (orchestrator sys')) /\
    taskQueue (orchestrator sys') = taskQueue (orchestrator sys) /\
    isRunning (orchestrator sys') = isRunning (orchestrator sys) /\
    ContextManager.itemsOf (contextManager sys') persona = [] /\
    ContextManager.recordedUsage (contextManager sys') persona = 0%Q /\
    ContextManager.disk (contextManager sys') persona = None /\
    lifecycle sys' =
      lifecycle sys
      ++ [agent_status_changed (Agent.id agent) persona idle working]
      ++ (match fst (fst run) with
          | Done result =>
              [orchestrator_task_completed (Task.id task) (Some persona)
                 result]
          | Thrown _ => []
          end)
      ++ [agent_status_changed (Agent.id agent) persona working idle].
Proof.
  intros Hassigned Hget Hidle usage run.
  unfold executeTask. rewrite Hassigned, Hget, Hidle.
  rewrite bool_decide_eq_true_2 by reflexivity. cbn [negb].
  rewrite (startAgent_eq persona task sys agent Hget). cbv zeta.
  cbn [orchestrator agents taskExecutor].
  rewrite !agents_get_update_eq, Hget. cbn [option_map].
  fold usage. fold (engaged task usage agent). fold run.
  destruct (TaskExecutorFacts.execute_task_identity c now later task
              (engaged task usage agent) (taskExecutor sys))
    as (Hid & Hagent & _). fold run in Hid, Hagent.
  destruct (LedgerSoundness.cleanup_full later persona
              (snd (ContextManager.calculateUsage persona
                      (contextManager sys))))
    as (ctx' & Hc & _ & Hw & Hd & Hrec & _).
  set (sys1 := mkSystem _ _ (taskExecutor sys) _).
  assert (Hget1 : forall exec events,
    agents_get
      (agents (orchestrator
                 (mkSystem (orchestrator sys1) (contextManager sys1) exec
                    events))) persona
    = Some (engaged task usage agent)).
  { intros exec events. cbn [orchestrator agents sys1].
    rewrite !agents_get_update_eq, Hget. reflexivity. }
  unfold ContextManager.itemsOf.
  destruct run as [[[result|f] task1] exec1]; cbn [fst snd] in *;
    unfold emitLifecycle, set_taskExecutor;
    rewrite (stopAgent_eq later persona _ _ (Hget1 _ _));
    cbn [orchestrator contextManager taskExecutor lifecycle agents
         activeAgents taskQueue isRunning emitted sys1];
    rewrite Hc; cbn [snd]; eexists _, _; (split; [reflexivity|]);
    cbn [orchestrator contextManager taskExecutor lifecycle agents
         activeAgents taskQueue isRunning Task.status
         TaskExecutor.with_progress Task.id Task.assignedAgent];
    rewrite Hw, Hd, Hrec, !agents_get_update_eq, Hget;
    (split; [reflexivity|]); (split; [reflexivity|]);
    (split; [reflexivity|]);
    (split; [intros q Hq; rewrite !agents_get_update_ne by exact Hq;
             reflexivity|]);
    (split; [apply Set_delete_not_in|]);
    do 5 (split; [reflexivity|]);
    rewrite <- ?app_assoc; cbn [app].
  - rewrite Hid, Hagent, Hassigned. reflexivity.
  - reflexivity.
Qed.

Lemma executeTask_releases_agent_witness :
  exists task' sys',
    executeTask diligent 1 5 (Task.assign qa_engineer sampleTask)
      (initialSystem sampleSpecializations 0)
    = (Done tt, task', sys') /\
    Task.status task' = task_completed /\
    agents_get (agents (orchestrator sys')) qa_engineer
    = agents_get (agents (orchestrator
                            (initialSystem sampleSpecializations 0)))
        qa_engineer.
Proof.
  destruct (executeTask_releases_agent diligent 1 5
              (Task.assign qa_engineer sampleTask)
              (initialSystem sampleSpecializations 0) qa_engineer
              (Agent.mk ("agent-qa-engineer-" +:+ pretty 0)
                 "QA Engineer Master" qa_engineer
                 (sampleSpecializations qa_engineer) 30 idle None 0))
    as (task' & sys' & Hrun & Hstatus & _ & Hagent & _).
  - reflexivity.
  - vm_compute. reflexivity.
  - reflexivity.
  - exists task', sys'. split; [exact Hrun|]. split; [exact Hstatus|].
    rewrite Hagent. vm_compute. reflexivity.
Defined.

(** *** [emergencyStop] *)

Lemma fold_update_get (f : Agent.t -> Agent.t) active :
  (forall agent, f (f agent) = f agent) ->
  forall roster q,
    agents_get
      (fold_left (fun roster persona => agents_update roster persona f)
         active roster) q
    = if bool_decide (q ∈ active) then option_map f (agents_get roster q)
      else agents_get roster q.
Proof.
  intros Hf. induction active as [|p active IH]; intros roster q;
    [reflexivity|].
  cbn [fold_left]. rewrite IH.
  destruct (decide (q = p)) as [->|Hne].
  - rewrite agents_get_update_eq.
    rewrite (bool_decide_eq_true_2 (p ∈ p :: active)) by left.
    destruct (bool_decide (p ∈ active)); [|reflexivity].
    destruct (agents_get roster p); cbn; [rewrite Hf|]; reflexivity.
  - rewrite agents_get_update_ne by exact Hne.
    destruct (decide (q ∈ active)) as [Hin|Hout].
    + rewrite !bool_decide_eq_true_2; [reflexivity|right; exact Hin|exact Hin].
    + rewrite !bool_decide_eq_false_2; [reflexivity| |exact Hout].
      intros Hin. apply elem_of_cons in Hin as [?|?]; auto.
Qed.

(** X26.  From a sound ledger, [emergencyStop] returns normally with the
    orchestrator stopped, the queue emptied and no agent active.  The
    agents that were active are left in error without a task, and the
    other agents are left as they were; no agent is made idle.  Every
    window of the ledger is empty and every recorded usage is 0.  The
    tasks that were queued are dropped without a failure event, and a
    later pass over the queue does nothing. *)
Theorem emergencyStop_halts c ticks now sys :
  ContextManager.ledgerSound (contextManager sys) ->
  exists sys',
    emergencyStop now sys = (Done tt, sys') /\
    isRunning (orchestrator sys') = false /\
    taskQueue (orchestrator sys') = [] /\
    activeAgents (orchestrator sys') = [] /\
    (forall p,
       agents_get (agents (orchestrator sys')) p =
       if bool_decide (p ∈ activeAgents (orchestrator sys))
       then option_map (with_work error None)
              (agents_get (agents (orchestrator sys)) p)
       else agents_get (agents (orchestrator sys)) p) /\
    (forall p,
       ContextManager.itemsOf (contextManager sys') p = [] /\
       ContextManager.usedBy (contextManager sys') p = 0 /\
       ContextManager.recordedUsage (contextManager sys') p = 0%Q) /\
    ContextManager.totalUsageOf (contextManager sys') = 0%Q /\
    taskExecutor sys' = taskExecutor sys /\
    lifecycle sys' = lifecycle sys ++ [orchestrator_emergency_stopped now] /\
    processTaskQueue c ticks sys' = (true, sys').
Proof.
  intros Hsound. unfold emergencyStop. cbv zeta.
  cbn [set_orchestrator set_isRunning set_taskQueue set_agents
       set_activeAgents orchestrator contextManager taskExecutor lifecycle
       agents activeAgents taskQueue isRunning emitted].
  destruct (LedgerSoundness.emergencyCleanup_full now (contextManager sys)
              Hsound) as (ctx' & -> & _ & Hall & Htotal).
  eexists. split; [reflexivity|].
  cbn [emitLifecycle set_contextManager orchestrator contextManager
       taskExecutor lifecycle agents activeAgents taskQueue isRunning].
  do 3 (split; [reflexivity|]).
  split; [intros p; apply fold_update_get; reflexivity|].
  split; [exact Hall|]. split; [exact Htotal|].
  do 2 (split; [reflexivity|]). reflexivity.
Qed.

Lemma emergencyStop_halts_witness :
  (* the system before: running, the technical writer at work with a file
     in its window, five tasks queued *)
  isRunning (orchestrator sampleAtWork) = true /\
  activeAgents (orchestrator sampleAtWork) = [technical_writer] /\
  (Agent.status <$>
     agents_get (agents (orchestrator sampleAtWork)) technical_writer)
    = Some working /\
  length (taskQueue (orchestrator sampleAtWork)) = 5%nat /\
  ContextManager.usedBy (contextManager sampleAtWork) technical_writer = 501
  /\
  (* and after *)
  exists sys',
    emergencyStop 9 sampleAtWork = (Done tt, sys') /\
    isRunning (orchestrator sys') = false /\
    taskQueue (orchestrator sys') = [] /\
    activeAgents (orchestrator sys') = [] /\
    (Agent.status <$> agents_get (agents (orchestrator sys')) technical_writer)
      = Some error /\
    (Agent.status <$> agents_get (agents (orchestrator sys')) qa_engineer)
      = Some idle /\
    ContextManager.itemsOf (contextManager sys') technical_writer = [] /\
    processTaskQueue diligent [(10, 11)] sys' = (true, sys').
Proof.
  do 5 (split; [vm_compute; reflexivity|]).
  destruct (emergencyStop_halts diligent [(10, 11)] 9 sampleAtWork)
    as (sys' & Hstop & Hrunning & Hqueue & Hactive & Hagents & Hledger & _ &
        _ & _ & Hpass).
  - change (ContextManager.ledgerSound
              (ContextManager.calls
                 [ContextManager.AddContext 1 technical_writer
                    ContextManager.smallFile;
                  ContextManager.CalculateUsage technical_writer]
                 ContextManager.initialState)).
    apply LedgerSoundness.calls_sound,
      LedgerSoundness.ledgerSound_initialState.
  - exists sys'. split; [exact Hstop|]. split; [exact Hrunning|].
    split; [exact Hqueue|]. split; [exact Hactive|].
    split; [rewrite Hagents; vm_compute; reflexivity|].
    split; [rewrite Hagents; vm_compute; reflexivity|].
    split; [exact (proj1 (Hledger technical_writer))|exact Hpass].
Defined.

(** *** The queue *)

Section Stability.
Context {A : Type} (key : A -> Z).

Lemma insert_by_filter x l k :
  filter (fun y => key y = k) (insert_by key x l) =
  if decide (key x = k) then x :: filter (fun y => key y = k) l
  else filter (fun y => key y = k) l.
Proof.
  induction l as [|y l IH]; simpl.
  - rewrite filter_cons, filter_nil. reflexivity.
  - destruct (Z.leb_spec (key x) (key y)) as [Hle|Hlt].
    + rewrite filter_cons. reflexivity.
    + rewrite !(filter_cons _ y), IH.
      destruct (decide (key y = k)) as [Hy|Hy]; [|reflexivity].
      destruct (decide (key x = k)) as [Hx|Hx]; [lia|reflexivity].
Qed.

Lemma sort_by_filter l k :
  filter (fun y => key y = k) (sort_by key l)
  = filter (fun y => key y = k) l.
Proof.
  induction l as [|x l IH]; [reflexivity|].
  cbn [sort_by]. rewrite insert_by_filter, filter_cons, IH. reflexivity.
Qed.

End Stability.

Lemma StronglySorted_weaken {A} (R R' : A -> A -> Prop) l :
  (forall a b, R a b -> R' a b) ->
  StronglySorted R l -> StronglySorted R' l.
Proof.
  intros HR. induction 1 as [|a l _ IH Hall]; constructor; [exact IH|].
  eapply List.Forall_impl; [|exact Hall]. intros b. apply HR.
Qed.

(** X27.  A pass over the queue first sorts it: the tasks are then in
    the order of their priorities, critical before high before medium
    before low, the tasks of one priority keeping the order in which
    they were queued, and no task is lost or added.  A pass does nothing
    when the orchestrator is not running. *)
Theorem queue_is_sorted_by_priority c sys :
  let queue := taskQueue (orchestrator sys) in
  Permutation queue (sortQueue queue) /\
  byPriority (sortQueue queue) /\
  (forall p,
     filter (fun task => Task.priority task = p) (sortQueue queue)
     = filter (fun task => Task.priority task = p) queue) /\
  (forall ticks,
     isRunning (orchestrator sys) = false ->
     processTaskQueue c ticks sys = (true, sys)) /\
  (isRunning (orchestrator sys) = true -> queue <> [] ->
   processTaskQueue c [] sys = (false, withQueue (sortQueue queue) sys)).
Proof.
  intros queue. split; [apply sort_by_Permutation|]. split.
  { unfold byPriority, sortQueue.
    eapply StronglySorted_weaken; [|apply sort_by_sorted].
    intros a b Hab. unfold keyLe in Hab.
    destruct (Task.priority a), (Task.priority b); cbn in Hab |- *;
      first [exact I|lia]. }
  split.
  { intros p. unfold sortQueue.
    pose proof (sort_by_filter
                  (fun task => - priorityOrder (Task.priority task))
                  queue (- priorityOrder p)) as H.
    assert (Hext : forall l : list Task.t,
              filter (fun task => Task.priority task = p) l
              = filter (fun task : Task.t =>
                          - priorityOrder (Task.priority task)
                          = - priorityOrder p) l).
    { intros l. apply list_filter_iff. intros task. split; [intros ->; auto|].
      destruct (Task.priority task), p; cbn; intros Heq;
        first [reflexivity|discriminate Heq]. }
    rewrite !Hext. exact H. }
  split.
  { intros ticks Hstopped. unfold processTaskQueue. rewrite Hstopped.
    reflexivity. }
  intros Hrunning Hqueue. unfold processTaskQueue. rewrite Hrunning.
  cbn [negb]. unfold processLoop.
  cbn [set_orchestrator set_taskQueue orchestrator taskQueue isRunning].
  fold queue. rewrite Hrunning.
  destruct (sortQueue queue) as [|task rest] eqn:Hsorted.
  - exfalso. apply Hqueue. apply Permutation_nil.
    rewrite <- Hsorted. symmetry. apply sort_by_Permutation.
  - cbn [negb]. unfold withQueue, set_orchestrator, set_taskQueue.
    fold queue. rewrite Hsorted. reflexivity.
Qed.

Lemma queue_is_sorted_by_priority_witness :
  processTaskQueue diligent [] sampleAtWork
  = (false,
     withQueue [taskOf "t2" Priority.critical qa_engineer;
                taskOf "t4" Priority.critical qa_engineer;
                taskOf "t5" Priority.high qa_engineer;
                taskOf "t3" Priority.medium qa_engineer;
                taskOf "t1" Priority.low qa_engineer]
       sampleAtWork).
Proof.
  apply (proj2 (proj2 (proj2 (proj2
           (queue_is_sorted_by_priority diligent sampleAtWork))))).
  - reflexivity.
  - discriminate.
Defined.

(** *** Tasks of agents that are not idle *)

Lemma processTask_busy c now later task queue sys :
  busy sys task ->
  processTask c now later task (withQueue queue sys)
  = withQueue (queue ++ [task]) sys.
Proof.
  intros Hbusy. unfold processTask.
  rewrite (executeTask_busy c now later task (withQueue queue sys) Hbusy).
  reflexivity.
Qed.

Lemma processLoop_step c now later ticks task rest sys :
  isRunning (orchestrator sys) = true ->
  processLoop c ((now, later) :: ticks) (withQueue (task :: rest) sys)
  = processLoop c ticks (processTask c now later task (withQueue rest sys)).
Proof.
  intros Hrunning. cbn [processLoop withQueue set_orchestrator set_taskQueue
                        orchestrator taskQueue isRunning].
  rewrite Hrunning. reflexivity.
Qed.

Lemma processLoop_busy c ticks sys :
  isRunning (orchestrator sys) = true ->
  forall queue,
    queue <> [] -> Forall (busy sys) queue ->
    exists queue',
      processLoop c ticks (withQueue queue sys)
      = (false, withQueue queue' sys) /\
      Permutation queue queue'.
Proof.
  intros Hrunning. induction ticks as [|[now later] ticks IH];
    intros queue Hne Hbusy.
  - exists queue. split; [|reflexivity].
    destruct queue as [|task rest]; [congruence|].
    cbn. rewrite Hrunning. reflexivity.
  - destruct queue as [|task rest]; [congruence|].
    apply Forall_cons in Hbusy as [Htask Hrest].
    destruct (IH (rest ++ [task])) as (queue' & Hloop & Hperm).
    { destruct rest; discriminate. }
    { apply Forall_app. split; [exact Hrest|]. constructor; [exact Htask|].
      constructor. }
    exists queue'. split.
    + rewrite (processLoop_step c now later ticks task rest sys Hrunning).
      rewrite (processTask_busy c now later task rest sys Htask).
      exact Hloop.
    + rewrite <- Hperm. apply Permutation_cons_append.
Qed.

(** X28.  While the orchestrator runs, a queue all of whose tasks belong
    to agents that are not idle is never worked off: however long the
    loop of [processTaskQueue] turns, it has not come to its end, every
    task is still queued, and nothing else has changed: no agent was
    started, no work was run and no event was emitted.  An agent in
    error, as [emergencyStop] leaves it, holds its tasks up in this
    way. *)
Theorem busy_agents_hold_the_queue c ticks sys :
  isRunning (orchestrator sys) = true ->
  taskQueue (orchestrator sys) <> [] ->
  Forall (busy sys) (taskQueue (orchestrator sys)) ->
  exists queue',
    processTaskQueue c ticks sys = (false, withQueue queue' sys) /\
    Permutation (taskQueue (orchestrator sys)) queue'.
Proof.
  intros Hrunning Hne Hbusy. unfold processTaskQueue. rewrite Hrunning.
  cbn [negb].
  destruct (processLoop_busy c ticks sys Hrunning
              (sortQueue (taskQueue (orchestrator sys))))
    as (queue' & Hloop & Hperm).
  - intros Hnil. apply Hne, Permutation_nil. rewrite <- Hnil.
    symmetry. apply sort_by_Permutation.
  - rewrite List.Forall_forall in *. intros task Hin. apply Hbusy.
    eapply Permutation_in; [symmetry; apply sort_by_Permutation|exact Hin].
  - exists queue'. split.
    + rewrite <- Hloop. reflexivity.
    + rewrite <- Hperm. apply sort_by_Permutation.
Qed.

Lemma busy_agents_hold_the_queue_witness :
  exists queue',
    processTaskQueue diligent [(1, 2); (3, 4); (5, 6)]
      (mkSystem
         (mkState (agents busyRoster) []
            [Task.assign requirements_analyst sampleTask] true [])
         ContextManager.initialState TaskExecutor.initialState [])
    = (false,
       withQueue queue'
         (mkSystem
            (mkState (agents busyRoster) []
               [Task.assign requirements_analyst sampleTask] true [])
            ContextManager.initialState TaskExecutor.initialState [])) /\
    Permutation [Task.assign requirements_analyst sampleTask] queue'.
Proof.
  apply (busy_agents_hold_the_queue diligent [(1, 2); (3, 4); (5, 6)]
           (mkSystem
              (mkState (agents busyRoster) []
                 [Task.assign requirements_analyst sampleTask] true [])
              ContextManager.initialState TaskExecutor.initialState [])).
  - reflexivity.
  - discriminate.
  - constructor; [|constructor].
    eexists requirements_analyst, _.
    split; [reflexivity|]. split; [vm_compute; reflexivity|discriminate].
Defined.

(** *** [stop] *)

(** what [stopAgent] does to the agents, to the active set and to the
    ledger *)
Lemma stopAgent_effect now persona sys :
  exists sys',
    stopAgent now persona sys = (Done tt, sys') /\
    isRunning (orchestrator sys') = isRunning (orchestrator sys) /\
    taskQueue (orchestrator sys') = taskQueue (orchestrator sys) /\
    taskExecutor sys' = taskExecutor sys /\
    (forall q,
       agents_get (agents (orchestrator sys')) q =
       if bool_decide (q = persona)
       then option_map released (agents_get (agents (orchestrator sys)) q)
       else agents_get (agents (orchestrator sys)) q) /\
    activeAgents (orchestrator sys') =
      (if enrolled sys persona
       then Set_delete persona (activeAgents (orchestrator sys))
       else activeAgents (orchestrator sys)) /\
    (enrolled sys persona = true ->
     ContextManager.itemsOf (contextManager sys') persona = [] /\
     ContextManager.recordedUsage (contextManager sys') persona = 0%Q /\
     ContextManager.disk (contextManager sys') persona = None) /\
    (forall q, q <> persona \/ enrolled sys persona = false ->
       ContextManager.contextWindows (contextManager sys') q
       = ContextManager.contextWindows (contextManager sys) q /\
       ContextManager.disk (contextManager sys') q
       = ContextManager.disk (contextManager sys) q /\
       ContextManager.recordedUsage (contextManager sys') q
       = ContextManager.recordedUsage (contextManager sys) q).
Proof.
  unfold enrolled.
  destruct (agents_get (agents (orchestrator sys)) persona) as [agent|] eqn:Hget.
  - rewrite (stopAgent_eq now persona sys agent Hget).
    destruct (LedgerSoundness.cleanup_full now persona (contextManager sys))
      as (ctx' & Hc & _ & Hw & Hd & Hrec & _ & Hother).
    rewrite Hc. eexists. split; [reflexivity|].
    cbn [orchestrator contextManager taskExecutor lifecycle agents
         activeAgents taskQueue isRunning snd].
    do 3 (split; [reflexivity|]). split.
    { intros q. destruct (decide (q = persona)) as [->|Hq].
      - rewrite bool_decide_eq_true_2 by reflexivity.
        rewrite !agents_get_update_eq, Hget. reflexivity.
      - rewrite bool_decide_eq_false_2 by exact Hq.
        rewrite !agents_get_update_ne by exact Hq. reflexivity. }
    split; [reflexivity|]. split.
    { intros _. unfold ContextManager.itemsOf. rewrite Hw. auto. }
    intros q [Hq|Hq]; [apply Hother, Hq|discriminate].
  - exists sys. unfold stopAgent. rewrite Hget. split; [reflexivity|].
    do 3 (split; [reflexivity|]). split.
    { intros q. destruct (decide (q = persona)) as [->|Hq].
      - rewrite bool_decide_eq_true_2 by reflexivity. rewrite Hget.
        reflexivity.
      - rewrite bool_decide_eq_false_2 by exact Hq. reflexivity. }
    split; [reflexivity|]. split; [discriminate|]. auto.
Qed.

Lemma enrolled_stopAgent now persona sys q :
  enrolled (snd (stopAgent now persona sys)) q = enrolled sys q.
Proof.
  destruct (stopAgent_effect now persona sys)
    as (sys' & -> & _ & _ & _ & Hagents & _).
  cbn [snd]. unfold enrolled. rewrite Hagents.
  destruct (bool_decide (q = persona));
    destruct (agents_get (agents (orchestrator sys)) q); reflexivity.
Qed.

(** the loop of [stop] over the agents that were active *)
Lemma stopAgents_effect now active :
  forall sys,
  exists sys',
    stopAgents now active sys = (Done tt, sys') /\
    isRunning (orchestrator sys') = isRunning (orchestrator sys) /\
    taskQueue (orchestrator sys') = taskQueue (orchestrator sys) /\
    taskExecutor sys' = taskExecutor sys /\
    (forall q,
       agents_get (agents (orchestrator sys')) q =
       if bool_decide (q ∈ active)
       then option_map released (agents_get (agents (orchestrator sys)) q)
       else agents_get (agents (orchestrator sys)) q) /\
    (forall q,
       q ∈ activeAgents (orchestrator sys') <->
       q ∈ activeAgents (orchestrator sys) /\
       ~ (q ∈ active /\ enrolled sys q = true)) /\
    (forall q, q ∈ active -> enrolled sys q = true ->
       ContextManager.itemsOf (contextManager sys') q = [] /\
       ContextManager.recordedUsage (contextManager sys') q = 0%Q /\
       ContextManager.disk (contextManager sys') q = None) /\
    (forall q, ~ (q ∈ active /\ enrolled sys q = true) ->
       ContextManager.contextWindows (contextManager sys') q
       = ContextManager.contextWindows (contextManager sys) q /\
       ContextManager.disk (contextManager sys') q
       = ContextManager.disk (contextManager sys) q /\
       ContextManager.recordedUsage (contextManager sys') q
       = ContextManager.recordedUsage (contextManager sys) q).
Proof.
  induction active as [|p active IH]; intros sys.
  - exists sys. split; [reflexivity|]. do 3 (split; [reflexivity|]).
    split; [intros q; reflexivity|]. split.
    { intros q. split; [intros H; split; [exact H|]|tauto].
      intros [Hin _]. inversion Hin. }
    split; [intros q Hin; inversion Hin|]. auto.
  - destruct (stopAgent_effect now p sys)
      as (sys1 & Hstop & Hrun1 & Hq1 & Hex1 & Hag1 & Hact1 & Hin1 & Hout1).
    destruct (IH sys1)
      as (sys' & Hloop & Hrun & Hq & Hex & Hag & Hact & Hin & Hout).
    assert (Henr : forall q, enrolled sys1 q = enrolled sys q).
    { intros q. pose proof (enrolled_stopAgent now p sys q) as H.
      rewrite Hstop in H. exact H. }
    exists sys'. cbn [stopAgents]. rewrite Hstop.
    split; [exact Hloop|]. split; [congruence|]. split; [congruence|].
    split; [congruence|]. split.
    { intros q. rewrite Hag, Hag1.
      destruct (decide (q = p)) as [->|Hne].
      - rewrite (bool_decide_eq_true_2 (p = p)) by reflexivity.
        rewrite (bool_decide_eq_true_2 (p ∈ p :: active)) by left.
        destruct (bool_decide (p ∈ active)); [|reflexivity].
        destruct (agents_get (agents (orchestrator sys)) p); reflexivity.
      - rewrite (bool_decide_eq_false_2 (q = p)) by exact Hne.
        destruct (decide (q ∈ active)) as [Hqa|Hqa].
        + rewrite !bool_decide_eq_true_2; [reflexivity|right; exact Hqa
                                          |exact Hqa].
        + rewrite !bool_decide_eq_false_2; [reflexivity| |exact Hqa].
          intros H. apply elem_of_cons in H as [?|?]; auto. }
    split.
    { intros q. rewrite Hact, Hact1, Henr.
      destruct (enrolled sys p) eqn:Hp.
      - unfold Set_delete. rewrite list_elem_of_filter.
        split.
        + intros [[Hne Hq0] Hn]. split; [exact Hq0|].
          intros [Hqin Hqe]. apply elem_of_cons in Hqin as [->|Hqin];
            [congruence|]. apply Hn. auto.
        + intros [Hq0 Hn]. split.
          * split; [|exact Hq0]. intros ->. apply Hn. split; [left|exact Hp].
          * intros [Hqin Hqe]. apply Hn. split; [right; exact Hqin|exact Hqe].
      - split.
        + intros [Hq0 Hn]. split; [exact Hq0|].
          intros [Hqin Hqe]. apply elem_of_cons in Hqin as [->|Hqin];
            [congruence|]. apply Hn. auto.
        + intros [Hq0 Hn]. split; [exact Hq0|].
          intros [Hqin Hqe]. apply Hn. split; [right; exact Hqin|exact Hqe]. }
    split.
    { intros q Hqin Hqe.
      destruct (decide (q ∈ active)) as [Hqa|Hqa].
      - apply Hin; [exact Hqa|rewrite Henr; exact Hqe].
      - apply elem_of_cons in Hqin as [->|Hqin]; [|contradiction].
        destruct (Hout p) as (Hw & Hd & Hr); [tauto|].
        destruct (Hin1 Hqe) as (Hi1 & Hr1 & Hd1).
        unfold ContextManager.itemsOf in *. rewrite Hw, Hd, Hr. auto. }
    intros q Hn.
    destruct (Hout q) as (Hw & Hd & Hr).
    { intros [Hqa Hqe]. apply Hn. split; [right; exact Hqa|].
      rewrite <- Henr. exact Hqe. }
    destruct (Hout1 q) as (Hw1 & Hd1 & Hr1).
    { destruct (decide (q = p)) as [->|Hne]; [|left; exact Hne].
      right. destruct (enrolled sys p) eqn:Hp; [|reflexivity].
      exfalso. apply Hn. split; [left|reflexivity]. }
    rewrite Hw, Hd, Hr. auto.
Qed.

(** X29.  [stop] does nothing when the orchestrator is not running.
    When it runs, [stop] returns normally with the running flag off and
    the queue untouched; every agent that was active and is in the
    roster is idle, without a task and with a context usage of 0, and is
    no longer active; its window in the ledger is empty, with no file
    and a recorded usage of 0.  The other agents and windows are as
    before, and the last event is the stop. *)
Theorem stop_releases_active_agents now sys :
  (isRunning (orchestrator sys) = false -> stop now sys = (Done tt, sys)) /\
  (isRunning (orchestrator sys) = true ->
   exists sys',
     stop now sys = (Done tt, sys') /\
     isRunning (orchestrator sys') = false /\
     taskQueue (orchestrator sys') = taskQueue (orchestrator sys) /\
     taskExecutor sys' = taskExecutor sys /\
     (forall q,
        agents_get (agents (orchestrator sys')) q =
        if bool_decide (q ∈ activeAgents (orchestrator sys))
        then option_map released (agents_get (agents (orchestrator sys)) q)
        else agents_get (agents (orchestrator sys)) q) /\
     (forall q,
        q ∈ activeAgents (orchestrator sys') <->
        q ∈ activeAgents (orchestrator sys) /\ enrolled sys q = false) /\
     (forall q,
        q ∈ activeAgents (orchestrator sys) -> enrolled sys q = true ->
        ContextManager.itemsOf (contextManager sys') q = [] /\
        ContextManager.recordedUsage (contextManager sys') q = 0%Q /\
        ContextManager.disk (contextManager sys') q = None) /\
     (forall q,
        q ∉ activeAgents (orchestrator sys) ->
        ContextManager.contextWindows (contextManager sys') q
        = ContextManager.contextWindows (contextManager sys) q) /\
     last (lifecycle sys') = Some (orchestrator_stopped now)).
Proof.
  unfold stop. split; [intros ->; reflexivity|].
  intros ->. cbn [negb].
  destruct (stopAgents_effect now
              (activeAgents
                 (orchestrator (set_orchestrator (set_isRunning false) sys)))
              (set_orchestrator (set_isRunning false) sys))
    as (sys' & Hloop & Hrun & Hq & Hex & Hag & Hact & Hin & Hout).
  rewrite Hloop. eexists. split; [reflexivity|].
  cbn [emitLifecycle orchestrator contextManager taskExecutor lifecycle].
  split; [exact Hrun|]. split; [exact Hq|]. split; [exact Hex|].
  split; [exact Hag|]. split.
  { intros q. rewrite Hact. cbn [set_orchestrator set_isRunning orchestrator
                                 activeAgents].
    change (enrolled (set_orchestrator (set_isRunning false) sys) q)
      with (enrolled sys q).
    destruct (enrolled sys q); split; intros [H1 H2]; split; auto.
    - exfalso. apply H2. auto.
    - discriminate.
    - intros [_ ?]. discriminate. }
  split; [exact Hin|]. split.
  { intros q Hq0. apply (Hout q). intros [Hqa _]. apply Hq0, Hqa. }
  apply last_snoc.
Qed.

Lemma stop_releases_active_agents_witness :
  (* the system before: running, the technical writer at work with a file
     in its window *)
  activeAgents (orchestrator sampleAtWork) = [technical_writer] /\
  (Agent.status <$>
     agents_get (agents (orchestrator sampleAtWork)) technical_writer)
    = Some working /\
  ContextManager.usedBy (contextManager sampleAtWork) technical_writer = 501
  /\
  (* and after *)
  exists sys',
    stop 7 sampleAtWork = (Done tt, sys') /\
    isRunning (orchestrator sys') = false /\
    taskQueue (orchestrator sys') = sampleQueue /\
    activeAgents (orchestrator sys') = [] /\
    (Agent.status <$> agents_get (agents (orchestrator sys')) technical_writer)
      = Some idle /\
    (Agent.currentTask <$>
       agents_get (agents (orchestrator sys')) technical_writer)
      = Some None /\
    ContextManager.itemsOf (contextManager sys') technical_writer = [] /\
    last (lifecycle sys') = Some (orchestrator_stopped 7).
Proof.
  do 3 (split; [vm_compute; reflexivity|]).
  destruct (proj2 (stop_releases_active_agents 7 sampleAtWork) eq_refl)
    as (sys' & Hstop & Hrunning & Hqueue & _ & Hagents & Hactive & Hledger &
        _ & Hlast).
  exists sys'. split; [exact Hstop|]. split; [exact Hrunning|].
  split; [exact Hqueue|]. split.
  { destruct (activeAgents (orchestrator sys')) as [|q rest] eqn:Hq;
      [reflexivity|].
    assert (Hin : q ∈ q :: rest) by left.
    apply Hactive in Hin as [Hin Hout].
    change (q ∈ [technical_writer]) in Hin.
    apply list_elem_of_singleton in Hin as ->. discriminate Hout. }
  split; [rewrite Hagents; vm_compute; reflexivity|].
  split; [rewrite Hagents; vm_compute; reflexivity|].
  split; [|exact Hlast].
  apply (Hledger technical_writer); [left|reflexivity].
Defined.

End DispatchFacts.
